(** * Outbound WhatsApp delivery of the polymer-trading application

    A shallow embedding of the messaging subsystem
    ([rate-limiter.ts], [circuit-breaker.ts], [whatsapp.types.ts],
    [whatsapp.service.ts], [message-templates.ts], [deal.service.ts])
    and the properties its specification states about it.

    Modelling conventions.
    - A JavaScript [number] holding a count or a millisecond timestamp is a
      [Z]; quantities and rates of a deal, which may be fractional or [NaN],
      are a [number] ([NaN] or a rational).
    - A [Date] is its [getTime ()] value, a [Z].
    - A synchronous run-to-completion segment of the service or of the
      breaker observes one clock value [now]; the limiter is given each
      reading of the clock it makes ([RateLimiter.Reads]), and the
      service hands it one value for all of them.
    - What [parseInt] returns is a double: an integer that a double
      holds, an infinity or [NaN].
    - Thrown values are data ([Thrown]); code that can throw returns
      [Thrown + A]; [try]/[catch] is a [match] on that sum.
    - Logger calls have no effect on any value the code returns and are left
      out. *)

From Stdlib Require Import ZArith QArith Qminmax Qround List String Ascii Bool Lia.
From Stdlib Require Import DecimalString Lqa.
Import ListNotations.

Local Open Scope string_scope.
Local Open Scope list_scope.
Local Open Scope Z_scope.

(** ** JavaScript primitives used by the code *)

Module JS.

(** [s.length] counts UTF-16 code units.  A source string is kept as its
    UTF-8 bytes: a lead byte of a one-, two- or three-byte sequence is one
    unit, the lead byte of a four-byte sequence is two (a surrogate pair),
    a continuation byte is none. *)
Definition utf16_units (c : ascii) : Z :=
  let n := Z.of_N (N_of_ascii c) in
  if n <? 128 then 1
  else if n <? 192 then 0
  else if n <? 240 then 1
  else 2.

Fixpoint length (s : string) : Z :=
  match s with
  | EmptyString => 0
  | String c s' => utf16_units c + length s'
  end.

(** [s.startsWith (c)] for a one-character ASCII prefix. *)
Definition startsWith (s : string) (c : ascii) : bool :=
  match s with
  | String c' _ => Ascii.eqb c' c
  | EmptyString => false
  end.

(** Truthiness of a string: only the empty string is falsy. *)
Definition truthy (s : string) : bool :=
  match s with
  | EmptyString => false
  | _ => true
  end.

(** [a || b] on strings. *)
Definition or_else (a b : string) : string := if truthy a then a else b.

(** [a || undefined] on a string: an empty string becomes [undefined]. *)
Definition or_undefined (a : string) : option string :=
  if truthy a then Some a else None.

(** A [number] that is compared with zero: [NaN] or a rational. *)
Inductive number : Type :=
| NaN
| Num (q : Q).

(** [!x] on a number: [0] and [NaN] are falsy. *)
Definition falsy (x : number) : bool :=
  match x with
  | NaN => true
  | Num q => Qeq_bool q 0
  end.

(** [x <= 0]; every comparison with [NaN] is false. *)
Definition le0 (x : number) : bool :=
  match x with
  | NaN => false
  | Num q => Qle_bool q 0
  end.

(** [arr.slice (start)] with one argument. *)
Definition slice_from {A : Type} (start : Z) (l : list A) : list A :=
  let len := Z.of_nat (List.length l) in
  let k := if start <? 0 then Z.max (len + start) 0 else Z.min start len in
  skipn (Z.to_nat k) l.

(** Decimal rendering of an integer inside a template literal. *)
Definition show (z : Z) : string :=
  NilEmpty.string_of_int (Z.to_int z).

(** *** White space

    [parseInt] and [trim] skip the characters of [WhiteSpace] and of
    [LineTerminator].  In the UTF-8 bytes of a string these are the six
    ASCII ones (tab, line feed, vertical tab, form feed, carriage return,
    space), the two bytes of U+00A0, and the three bytes of U+1680,
    U+2000 to U+200A, U+2028, U+2029, U+202F, U+205F, U+3000 and
    U+FEFF. *)
Definition is_space (c : ascii) : bool :=
  let n := N_of_ascii c in
  (N.eqb n 32 || N.eqb n 9 || N.eqb n 10 || N.eqb n 11 || N.eqb n 12
   || N.eqb n 13)%bool.

Definition is_space2 (c1 c2 : ascii) : bool :=
  (N.eqb (N_of_ascii c1) 194 && N.eqb (N_of_ascii c2) 160)%bool.

Definition is_space3 (c1 c2 c3 : ascii) : bool :=
  let n1 := N_of_ascii c1 in
  let n2 := N_of_ascii c2 in
  let n3 := N_of_ascii c3 in
  ((N.eqb n1 225 && N.eqb n2 154 && N.eqb n3 128)
   || (N.eqb n1 226 && N.eqb n2 128
       && ((N.leb 128 n3 && N.leb n3 138)
           || N.eqb n3 168 || N.eqb n3 169 || N.eqb n3 175))
   || (N.eqb n1 226 && N.eqb n2 129 && N.eqb n3 159)
   || (N.eqb n1 227 && N.eqb n2 128 && N.eqb n3 128)
   || (N.eqb n1 239 && N.eqb n2 187 && N.eqb n3 191))%bool.

Fixpoint skip_space (s : string) : string :=
  match s with
  | String c1 s1 =>
      if is_space c1 then skip_space s1
      else
        match s1 with
        | String c2 s2 =>
            if is_space2 c1 c2 then skip_space s2
            else
              match s2 with
              | String c3 s3 =>
                  if is_space3 c1 c2 c3 then skip_space s3 else s
              | EmptyString => s
              end
        | EmptyString => s
        end
  | EmptyString => s
  end.

(** [s.trim ()]: the white space at both ends goes. *)
Fixpoint trim_end (s : string) : string :=
  match s with
  | EmptyString => EmptyString
  | String c s' =>
      match skip_space s with
      | EmptyString => EmptyString
      | _ => String c (trim_end s')
      end
  end.

Definition trim (s : string) : string := trim_end (skip_space s).

(** *** [parseInt (s)] without a radix

    Leading white space is skipped, an optional sign is read, a [0x] or
    [0X] prefix selects base sixteen, and the longest run of digits is
    converted; no digit at all gives [NaN].  The result is a [number]:
    the double nearest to the integer the digits spell, ties to even,
    and [Infinity] beyond the largest double. *)
Definition digit_value (c : ascii) : option Z :=
  let n := Z.of_N (N_of_ascii c) in
  if (48 <=? n) && (n <=? 57) then Some (n - 48)
  else if (97 <=? n) && (n <=? 122) then Some (n - 87)
  else if (65 <=? n) && (n <=? 90) then Some (n - 55)
  else None.

Fixpoint digits (radix : Z) (acc : option Z) (s : string) : option Z :=
  match s with
  | EmptyString => acc
  | String c s' =>
      match digit_value c with
      | Some d =>
          if d <? radix
          then digits radix
                 (Some (match acc with Some a => a * radix + d | None => d end))
                 s'
          else acc
      | None => acc
      end
  end.

Definition strip_hex (s : string) : option string :=
  match s with
  | String "0" (String "x" r) => Some r
  | String "0" (String "X" r) => Some r
  | _ => None
  end.

(** The double nearest to a non-negative integer [m], as the integer it
    is; [None] when [m] rounds beyond the largest double. *)
Definition nearest_double (m : Z) : option Z :=
  if m <? 2 ^ 53 then Some m
  else
    let e := Z.log2 m - 52 in
    let q := Z.shiftr m e in
    let r := m - Z.shiftl q e in
    let half := Z.shiftl 1 (e - 1) in
    let q := if (half <? r) || ((r =? half) && Z.odd q) then q + 1 else q in
    let v := Z.shiftl q e in
    if v <? 2 ^ 1024 then Some v else None.

(** The result of [parseInt]: [NaN], a double that is an integer, or an
    infinity. *)
Inductive integer : Type :=
| NotANumber
| Int (z : Z)
| Infinite (negative : bool).

Definition parseInt (s : string) : integer :=
  let s1 := skip_space s in
  let '(neg, s2) :=
    match s1 with
    | String "-" r => (true, r)
    | String "+" r => (false, r)
    | _ => (false, s1)
    end in
  let magnitude :=
    match strip_hex s2 with
    | Some r => digits 16 None r
    | None => digits 10 None s2
    end in
  match magnitude with
  | Some m =>
      match nearest_double m with
      | Some v => Int (if neg then - v else v)
      | None => Infinite neg
      end
  | None => NotANumber
  end.

(** *** A number inside a template literal

    [Number::toString]: the shortest run of decimal digits that still
    names the double, the nearest to it if several do, written out in
    full below [10^21] and with an exponent from there on. *)
Definition rounds_to (v c : Z) : bool :=
  match nearest_double c with
  | Some v' => v' =? v
  | None => false
  end.

(** The integer with [k] significant digits that names the double [v] of
    [n] digits, if there is one. *)
Definition with_digits (v n k : Z) : option Z :=
  let p := 10 ^ (n - k) in
  let lo := v / p * p in
  let hi := lo + p in
  match rounds_to v lo, rounds_to v hi with
  | true, true =>
      Some (if v - lo <? hi - v then lo
            else if hi - v <? v - lo then hi
            else if Z.even (v / p) then lo else hi)
  | true, false => Some lo
  | false, true => Some hi
  | false, false => None
  end.

Fixpoint shortest_from (fuel : nat) (v n k : Z) : Z :=
  match fuel with
  | O => v
  | S fuel' =>
      match with_digits v n k with
      | Some c => c
      | None => shortest_from fuel' v n (k + 1)
      end
  end.

Definition decimal_length (v : Z) : Z := Z.of_nat (String.length (show v)).

(** Seventeen digits name every double. *)
Definition shortest (v : Z) : Z := shortest_from 17 v (decimal_length v) 1.

Fixpoint strip_zeros (s : string) : string :=
  match s with
  | EmptyString => EmptyString
  | String c s' =>
      match strip_zeros s' with
      | EmptyString => if Ascii.eqb c "0" then EmptyString else String c ""
      | rest => String c rest
      end
  end.

Definition show_double (v : Z) : string :=
  if v <? 2 ^ 53 then show v
  else
    let c := shortest v in
    if c <? 10 ^ 21 then show c
    else
      match strip_zeros (show c) with
      | String d EmptyString =>
          (String d "" ++ "e+" ++ show (decimal_length c - 1))%string
      | String d rest =>
          (String d "" ++ "." ++ rest ++ "e+"
           ++ show (decimal_length c - 1))%string
      | EmptyString => EmptyString
      end.

(** The result of [parseInt] inside a template literal. *)
Definition show_integer (i : integer) : string :=
  match i with
  | NotANumber => "NaN"
  | Int z => if z <? 0 then ("-" ++ show_double (- z))%string
             else show_double z
  | Infinite false => "Infinity"
  | Infinite true => "-Infinity"
  end.

End JS.

(** ** [whatsapp.types.ts] *)

Inductive WhatsAppErrorType : Type :=
| AUTH_ERROR
| RATE_LIMIT
| INVALID_RECIPIENT
| NETWORK_ERROR
| VALIDATION_ERROR
| QUOTA_EXCEEDED
| UNKNOWN_ERROR.

Inductive RecipientRole : Type :=
| accounts
| logistics
| boss1
| bossog.

Definition RecipientRole_eqb (a b : RecipientRole) : bool :=
  match a, b with
  | accounts, accounts | logistics, logistics
  | boss1, boss1 | bossog, bossog => true
  | _, _ => false
  end.

(** The fields every [WhatsAppServiceError] carries. *)
Module WhatsAppError.
Record t : Type := mk {
  name : string;
  message : string;
  type : WhatsAppErrorType;
  retryAfter : option JS.integer;
  httpStatus : option Z;
  dealId : option string;
  recipient : option string
}.
End WhatsAppError.

(** The error classes, as their constructors build them. *)
Definition WhatsAppServiceError (message : string) (type : WhatsAppErrorType)
    (retryAfter : option JS.integer) (httpStatus : option Z)
    (dealId recipient : option string) : WhatsAppError.t :=
  WhatsAppError.mk "WhatsAppServiceError" message type retryAfter httpStatus
    dealId recipient.

Definition WhatsAppAuthError (message : string) (dealId : option string)
    : WhatsAppError.t :=
  WhatsAppError.mk "WhatsAppAuthError" message AUTH_ERROR None (Some 401)
    dealId None.

Definition WhatsAppRateLimitError (retryAfter : JS.integer)
    (dealId recipient : option string) : WhatsAppError.t :=
  WhatsAppError.mk "WhatsAppRateLimitError"
    ("Rate limit exceeded, retry after " ++ JS.show_integer retryAfter ++ "s")%string
    RATE_LIMIT (Some retryAfter) (Some 429) dealId recipient.

Definition WhatsAppNetworkError (message : string) (dealId : option string)
    : WhatsAppError.t :=
  WhatsAppError.mk "WhatsAppNetworkError" message NETWORK_ERROR None None
    dealId None.

Definition WhatsAppValidationError (message : string)
    (dealId recipient : option string) : WhatsAppError.t :=
  WhatsAppError.mk "WhatsAppValidationError" message VALIDATION_ERROR None
    (Some 400) dealId recipient.

(** Whatever a [throw] or a rejected promise can carry in this subsystem:
    an instance of [WhatsAppServiceError] (or of a subclass), the breaker's
    [CircuitBreakerOpenError], or any other [Error], of which the code reads
    only [code] and [message]. *)
Inductive Thrown : Type :=
| ServiceError (e : WhatsAppError.t)
| CircuitBreakerOpenError (message : string) (nextAttemptTime : option Z)
| OtherError (code : option string) (message : string).

Inductive DeliveryTerms : Type := delivered | ex_warehouse.
Inductive MaterialSource : Type := new_material | from_inventory.

(** A [Date] object: a time value or an invalid date. *)
Inductive Date : Type :=
| InvalidDate
| Time (ms : Z).

Module DealData.
Record t : Type := mk {
  id : string;
  date : Date;
  saleParty : string;
  quantitySold : JS.number;
  saleRate : JS.number;
  deliveryTerms : DeliveryTerms;
  saleComments : option string;
  productCode : string;
  product : option string;
  grade : option string;
  company : option string;
  specificGrade : option string;
  materialSource : MaterialSource;
  purchaseParty : option string;
  quantityPurchased : option JS.number;
  purchaseRate : option JS.number;
  warehouseLocation : option string;
  purchaseComments : option string;
  finalComments : option string
}.
End DealData.

(** [Partial<DealData>]: every field may be missing. *)
Module PartialDealData.
Record t : Type := mk {
  id : option string;
  date : option Date;
  saleParty : option string;
  quantitySold : option JS.number;
  saleRate : option JS.number;
  deliveryTerms : option DeliveryTerms;
  saleComments : option string;
  productCode : option string;
  product : option string;
  grade : option string;
  company : option string;
  specificGrade : option string;
  materialSource : option MaterialSource;
  purchaseParty : option string;
  quantityPurchased : option JS.number;
  purchaseRate : option JS.number;
  warehouseLocation : option string;
  purchaseComments : option string;
  finalComments : option string
}.
End PartialDealData.

Module SendMessageResult.
Record t : Type := mk {
  success : bool;
  messageId : option string;
  externalMessageId : option string;
  error : option WhatsAppError.t;
  recipient : string;
  role : RecipientRole
}.
End SendMessageResult.

Module BulkSendResult.
Record t : Type := mk {
  dealId : string;
  results : list SendMessageResult.t;
  successCount : Z;
  failureCount : Z;
  errors : list WhatsAppError.t
}.
End BulkSendResult.

(** The body of a 2xx answer, as [WhatsAppResponse] declares it; of each
    entry of [messages] the code reads only [id], which a parsed body
    need not have. *)
Module WhatsAppResponse.
Record t : Type := mk {
  messages : list (option string)
}.
End WhatsAppResponse.

(** ** [rate-limiter.ts] *)

Module RateLimiter.

Record RateLimiterConfig : Type := mkConfig {
  maxRequestsPerMinute : Z;
  windowMs : Z;
  jitter : bool
}.

(** [Partial<RateLimiterConfig>], the constructor's argument. *)
Record PartialConfig : Type := mkPartial {
  maxRequestsPerMinute_opt : option Z;
  windowMs_opt : option Z;
  jitter_opt : option bool
}.

Definition or_default {A : Type} (o : option A) (d : A) : A :=
  match o with Some x => x | None => d end.

Inductive Level : Type := ok | warning | limited.

Record RateLimitStatus : Type := mkStatus {
  current : Level;
  remaining : Z;
  resetTime : Z;
  waitTime : option Z
}.

(** The object: the tracked window, oldest entry first, and the
    configuration. *)
Record t : Type := mk {
  requests : list Z;
  config : RateLimiterConfig
}.

(** The constructor: 80 requests per 60000 ms, jitter on, overridden by
    the fields of [config] that are present. *)
Definition create (config : PartialConfig) : t :=
  mk []
     (mkConfig (or_default (maxRequestsPerMinute_opt config) 80)
               (or_default (windowMs_opt config) 60000)
               (or_default (jitter_opt config) true)).

Definition empty_config : PartialConfig := mkPartial None None None.

Definition with_requests (l : t) (reqs : list Z) : t := mk reqs (config l).

(** [cleanOldRequests]: keep the entries newer than [now - windowMs]. *)
Definition cleanOldRequests (now : Z) (l : t) : t :=
  let cutoff := now - windowMs (config l) in
  with_requests l (filter (fun req => cutoff <? req) (requests l)).

(** [getStatus]: cleans the window, then reports.  The clock is read
    twice: by [cleanOldRequests] ([Date.now ()], the value [cleaned]) and
    then by [getStatus] itself ([new Date ()], the value [now]). *)
Definition getStatus (cleaned now : Z) (l : t) : RateLimitStatus * t :=
  let l := cleanOldRequests cleaned l in
  let remaining :=
    maxRequestsPerMinute (config l) - Z.of_nat (List.length (requests l)) in
  let resetTime := now + windowMs (config l) in
  if remaining <=? 0 then
    let waitTime :=
      match requests l with
      | oldestRequest :: _ => windowMs (config l) - (now - oldestRequest)
      | [] => windowMs (config l)
      end in
    (mkStatus limited 0 resetTime (Some (Z.max 0 waitTime)), l)
  else if remaining <=? 5 then
    (mkStatus warning remaining resetTime None, l)
  else
    (mkStatus ok remaining resetTime None, l).

(** [recordRequest]: append the current time, and cut the array back to
    its last [maxRequestsPerMinute] entries once it is more than twice
    that long. *)
Definition recordRequest (now : Z) (l : t) : t :=
  let reqs := requests l ++ [now] in
  if maxRequestsPerMinute (config l) * 2 <? Z.of_nat (List.length reqs)
  then with_requests l (JS.slice_from (- maxRequestsPerMinute (config l)) reqs)
  else with_requests l reqs.

(** [wait (ms)]: the delay handed to [setTimeout], for a draw [random] of
    [Math.random ()]. *)
Definition wait (l : t) (ms : Z) (random : Q) : Q :=
  let waitTime := inject_Z ms in
  let waitTime :=
    if jitter (config l) && (1000 <? ms)
    then (waitTime + random * Qmin (waitTime * (1 # 10)) (inject_Z 5000))%Q
    else waitTime in
  Qmax 0 waitTime.

(** How a call of [waitIfNeeded] went: it recorded the request and
    returned 0 at once, or it slept on [wait (waitTime)] and returned
    [waitTime]. *)
Inductive Passage : Type :=
| Immediate
| Delayed (waitTime : Z).

Definition returned (p : Passage) : Z :=
  match p with
  | Immediate => 0
  | Delayed w => w
  end.

(** The clock as one call of [waitIfNeeded] reads it: in
    [cleanOldRequests], then in [getStatus], then in [recordRequest] if
    the call gets there. *)
Record Reads : Type := mkReads {
  cleaned_at : Z;
  status_at : Z;
  recorded_at : Z
}.

(** The three reads fall in the same millisecond. *)
Definition at_once (now : Z) : Reads := mkReads now now now.

(** The clock does not run backwards. *)
Definition ordered (at_ : Reads) : Prop :=
  cleaned_at at_ <= status_at at_ <= recorded_at at_.

(** [waitIfNeeded]. *)
Definition waitIfNeeded (at_ : Reads) (l : t) : Passage * t :=
  let '(status, l) := getStatus (cleaned_at at_) (status_at at_) l in
  match current status with
  | limited =>
      let waitTime := or_default (waitTime status) 0 in
      (Delayed waitTime, l)
  | _ =>
      (Immediate, recordRequest (recorded_at at_) l)
  end.

(** A sequence of calls, one at each of the given readings of the
    clock. *)
Fixpoint calls (times : list Reads) (l : t) : list Passage * t :=
  match times with
  | [] => ([], l)
  | at_ :: rest =>
      let '(p, l1) := waitIfNeeded at_ l in
      let '(ps, l2) := calls rest l1 in
      (p :: ps, l2)
  end.

Definition is_immediate (p : Passage) : bool :=
  match p with Immediate => true | Delayed _ => false end.

(** The number of calls that were let through at once. *)
Definition permitted (ps : list Passage) : Z :=
  Z.of_nat (List.length (filter is_immediate ps)).

(** The number of tracked requests made at [lo] or later. *)
Definition since (lo : Z) (l : t) : Z :=
  Z.of_nat (List.length (filter (fun req => lo <=? req) (requests l))).

(** All the readings of the clock lie in a span shorter than the window
    that starts at [lo]. *)
Definition within_window (lo : Z) (l : t) (times : list Reads) : Prop :=
  forall at_,
    In at_ times ->
    ordered at_
    /\ lo <= cleaned_at at_
    /\ recorded_at at_ < lo + windowMs (config l).

(** The wait time [getStatus] computes at clock value [now] for a full
    window [l]: what is left of the window of its first entry, and never
    less than zero. *)
Definition computed_wait (now : Z) (l : t) : Z :=
  Z.max 0
    match requests l with
    | oldestRequest :: _ => windowMs (config l) - (now - oldestRequest)
    | [] => windowMs (config l)
    end.

End RateLimiter.

(** ** [circuit-breaker.ts] *)

Module CircuitBreaker.

Inductive State : Type := CLOSED | OPEN | HALF_OPEN.

Record CircuitBreakerConfig : Type := mkConfig {
  failureThreshold : Z;
  timeoutMs : Z;
  monitoringWindowMs : Z;
  minimumRequestThreshold : Z
}.

(** [Partial<CircuitBreakerConfig>], the constructor's argument. *)
Record PartialConfig : Type := mkPartial {
  failureThreshold_opt : option Z;
  timeoutMs_opt : option Z;
  monitoringWindowMs_opt : option Z;
  minimumRequestThreshold_opt : option Z
}.

Record t : Type := mk {
  state : State;
  failures : Z;
  successes : Z;
  requests : Z;
  lastFailureTime : Z;
  stateChangedAt : Z;
  config : CircuitBreakerConfig
}.

(** The constructor, run at clock value [now]: [CLOSED], counters at
    zero, ten failures to open, five minutes to a trial. *)
Definition create (now : Z) (config : PartialConfig) : t :=
  mk CLOSED 0 0 0 0 now
     (mkConfig
        (RateLimiter.or_default (failureThreshold_opt config) 10)
        (RateLimiter.or_default (timeoutMs_opt config) 300000)
        (RateLimiter.or_default (monitoringWindowMs_opt config) 60000)
        (RateLimiter.or_default (minimumRequestThreshold_opt config) 5)).

Definition empty_config : PartialConfig := mkPartial None None None None.

Definition transitionTo (now : Z) (newState : State) (b : t) : t :=
  mk newState (failures b) (successes b) (requests b) (lastFailureTime b)
     now (config b).

Definition resetCounters (b : t) : t :=
  mk (state b) 0 0 0 (lastFailureTime b) (stateChangedAt b) (config b).

Definition cleanOldMetrics (b : t) : t :=
  if 1000 <? requests b then resetCounters b else b.

Definition onSuccess (now : Z) (b : t) : t :=
  let b := mk (state b) (failures b) (successes b + 1) (requests b + 1)
              (lastFailureTime b) (stateChangedAt b) (config b) in
  let b :=
    match state b with
    | HALF_OPEN => resetCounters (transitionTo now CLOSED b)
    | _ => b
    end in
  cleanOldMetrics b.

Definition onFailure (now : Z) (b : t) : t :=
  let b := mk (state b) (failures b + 1) (successes b) (requests b + 1)
              now (stateChangedAt b) (config b) in
  let b :=
    match state b with
    | HALF_OPEN => transitionTo now OPEN b
    | CLOSED =>
        if failureThreshold (config b) <=? failures b
        then transitionTo now OPEN b
        else b
    | OPEN => b
    end in
  cleanOldMetrics b.

Definition shouldAttemptReset (now : Z) (b : t) : bool :=
  timeoutMs (config b) <=? now - lastFailureTime b.

Definition getNextAttemptTime (b : t) : Z :=
  lastFailureTime b + timeoutMs (config b).

(** The head of [execute], up to the call of [operation]: an open breaker
    either moves to [HALF_OPEN] or throws. *)
Definition execute_enter (now : Z) (b : t) : Thrown + t :=
  match state b with
  | OPEN =>
      if shouldAttemptReset now b
      then inr (transitionTo now HALF_OPEN b)
      else inl (CircuitBreakerOpenError
                  "Circuit breaker is OPEN - WhatsApp service unavailable"
                  (Some (getNextAttemptTime b)))
  | _ => inr b
  end.

(** The tail of [execute], once [operation ()] has settled. *)
Definition execute_settle {T : Type} (now : Z) (r : Thrown + T) (b : t)
    : t :=
  match r with
  | inr _ => onSuccess now b
  | inl _ => onFailure now b
  end.

Section Execute.
(** [execute (operation)].  The operation acts on an environment [Env]
    of its own, whose clock is [clock]; the breaker reads the clock on
    entry and again when the operation has settled. *)
Context {Env T : Type} (clock : Env -> Z).

Definition Operation : Type := Env -> (Thrown + T) * Env.

Definition execute (operation : Operation) (b : t) (env : Env)
    : (Thrown + T) * t * Env :=
  match execute_enter (clock env) b with
  | inl e => (inl e, b, env)
  | inr b1 =>
      let '(r, env1) := operation env in
      (r, execute_settle (clock env1) r b1, env1)
  end.

(** Calls of [execute] one after the other; the results are dropped. *)
Fixpoint execute_all (operations : list Operation) (b : t) (env : Env)
    : t * Env :=
  match operations with
  | [] => (b, env)
  | operation :: rest =>
      let '(_, b1, env1) := execute operation b env in
      execute_all rest b1 env1
  end.

Definition fails (operation : Operation) : Prop :=
  forall env, exists e, fst (operation env) = inl e.

Definition succeeds (operation : Operation) : Prop :=
  forall env, exists v, fst (operation env) = inr v.
End Execute.

(** An environment that is only a clock, and an operation on it that
    takes one millisecond and fails with a connection error. *)
Definition refused : Operation (Env := Z) (T := unit) :=
  fun now => (inl (OtherError (Some "ECONNREFUSED") "connect ECONNREFUSED"),
              now + 1).

End CircuitBreaker.

(** ** [message-templates.ts] *)

Module MessageTemplates.

(** [generateMessage (role, deal)].  The four templates put the fields of
    the deal through [Intl.NumberFormat] and [Intl.DateTimeFormat], whose
    output belongs to the host; the development is parametric in the
    rendered text.  A rendering is a function of the role and the deal
    only, and it may throw ([format] raises a [RangeError] on an invalid
    date). *)
Definition Renderer : Type := RecipientRole -> DealData.t -> Thrown + string.

(** [!x] for an optional string: missing or empty. *)
Definition no_string (o : option string) : bool :=
  match o with
  | Some s => negb (JS.truthy s)
  | None => true
  end.

(** [!x] for an optional object or enumeration value: missing. *)
Definition no_value {A : Type} (o : option A) : bool :=
  match o with
  | Some _ => false
  | None => true
  end.

(** [!x || x <= 0] for an optional number. *)
Definition not_positive (o : option JS.number) : bool :=
  match o with
  | Some x => JS.falsy x || JS.le0 x
  | None => true
  end.

(** [if (c) errors.push (msg)]. *)
Definition push_if (c : bool) (msg : string) (errors : list string)
    : list string :=
  if c then errors ++ [msg] else errors.

Definition validateDealForMessaging (deal : PartialDealData.t)
    : list string :=
  let errors := [] in
  let errors := push_if (no_string (PartialDealData.id deal))
                  "Deal ID is required" errors in
  let errors := push_if (no_value (PartialDealData.date deal))
                  "Deal date is required" errors in
  let errors := push_if (no_string (PartialDealData.saleParty deal))
                  "Sale party (customer) is required" errors in
  let errors := push_if (not_positive (PartialDealData.quantitySold deal))
                  "Quantity sold must be positive" errors in
  let errors := push_if (not_positive (PartialDealData.saleRate deal))
                  "Sale rate must be positive" errors in
  let errors := push_if (no_value (PartialDealData.deliveryTerms deal))
                  "Delivery terms are required" errors in
  let errors := push_if (no_string (PartialDealData.productCode deal))
                  "Product code is required" errors in
  let errors := push_if (no_value (PartialDealData.materialSource deal))
                  "Material source is required" errors in
  match PartialDealData.materialSource deal with
  | Some new_material =>
      let errors := push_if (no_string (PartialDealData.purchaseParty deal))
                      "Purchase party is required for new material" errors in
      let errors := push_if
                      (not_positive (PartialDealData.quantityPurchased deal))
                      "Purchase quantity is required for new material"
                      errors in
      let errors := push_if (not_positive (PartialDealData.purchaseRate deal))
                      "Purchase rate is required for new material" errors in
      errors
  | _ => errors
  end.

(** A [DealData] seen as the [Partial<DealData>] the validator takes. *)
Definition as_partial (deal : DealData.t) : PartialDealData.t :=
  PartialDealData.mk
    (Some (DealData.id deal)) (Some (DealData.date deal))
    (Some (DealData.saleParty deal)) (Some (DealData.quantitySold deal))
    (Some (DealData.saleRate deal)) (Some (DealData.deliveryTerms deal))
    (DealData.saleComments deal) (Some (DealData.productCode deal))
    (DealData.product deal) (DealData.grade deal) (DealData.company deal)
    (DealData.specificGrade deal) (Some (DealData.materialSource deal))
    (DealData.purchaseParty deal) (DealData.quantityPurchased deal)
    (DealData.purchaseRate deal) (DealData.warehouseLocation deal)
    (DealData.purchaseComments deal) (DealData.finalComments deal).

Record AllMessages : Type := mkAll {
  for_accounts : string;
  for_logistics : string;
  for_boss1 : string;
  for_bossog : string
}.

(** [generateAllMessages]: the four roles in the order of the object
    literal; the first rendering that throws ends it. *)
Definition generateAllMessages (generateMessage : Renderer)
    (deal : DealData.t) : Thrown + AllMessages :=
  match generateMessage accounts deal with
  | inl e => inl e
  | inr a =>
      match generateMessage logistics deal with
      | inl e => inl e
      | inr l =>
          match generateMessage boss1 deal with
          | inl e => inl e
          | inr b1 =>
              match generateMessage bossog deal with
              | inl e => inl e
              | inr bo => inr (mkAll a l b1 bo)
              end
          end
      end
  end.

Record Previews : Type := mkPreviews {
  preview_id : string;
  preview_customer : string;
  preview_messages : AllMessages;
  preview_lengths : Z * Z * Z * Z
}.

(** [getMessagePreviews]: validation first; a deal with validation errors
    throws before any message is rendered.  (The [amount] of the preview,
    a currency text of the host, is left out.) *)
Definition getMessagePreviews (generateMessage : Renderer)
    (deal : DealData.t) : Thrown + Previews :=
  let validationErrors := validateDealForMessaging (as_partial deal) in
  if 0 <? Z.of_nat (List.length validationErrors) then
    inl (OtherError None
           ("Cannot generate messages: "
            ++ String.concat ", " validationErrors)%string)
  else
    match generateAllMessages generateMessage deal with
    | inl e => inl e
    | inr messages =>
        inr (mkPreviews (DealData.id deal) (DealData.saleParty deal) messages
               (JS.length (for_accounts messages),
                JS.length (for_logistics messages),
                JS.length (for_boss1 messages),
                JS.length (for_bossog messages)))
    end.

(** A number that is missing or not positive. *)
Definition lacks_positive (o : option JS.number) : Prop :=
  match o with
  | None => True
  | Some JS.NaN => True
  | Some (JS.Num q) => (q <= 0)%Q
  end.

End MessageTemplates.

(** ** [whatsapp.config.ts]: the configuration object *)

(** A value per recipient role, in the order of the object literal. *)
Module PerRole.
Record t (A : Type) : Type := mk {
  of_accounts : A;
  of_logistics : A;
  of_boss1 : A;
  of_bossog : A
}.
Arguments mk {A}.
Arguments of_accounts {A}.
Arguments of_logistics {A}.
Arguments of_boss1 {A}.
Arguments of_bossog {A}.

Definition get {A : Type} (r : RecipientRole) (m : t A) : A :=
  match r with
  | accounts => of_accounts m
  | logistics => of_logistics m
  | boss1 => of_boss1 m
  | bossog => of_bossog m
  end.

Definition set {A : Type} (r : RecipientRole) (x : A) (m : t A) : t A :=
  match r with
  | accounts => mk x (of_logistics m) (of_boss1 m) (of_bossog m)
  | logistics => mk (of_accounts m) x (of_boss1 m) (of_bossog m)
  | boss1 => mk (of_accounts m) (of_logistics m) x (of_bossog m)
  | bossog => mk (of_accounts m) (of_logistics m) (of_boss1 m) x
  end.

(** The keys, as [Object.keys] lists them. *)
Definition roles : list RecipientRole := [accounts; logistics; boss1; bossog].

(** [Object.entries (m)]. *)
Definition entries {A : Type} (m : t A) : list (RecipientRole * A) :=
  map (fun r => (r, get r m)) roles.

Definition init {A : Type} (f : RecipientRole -> A) : t A :=
  mk (f accounts) (f logistics) (f boss1) (f bossog).
End PerRole.

Module WhatsAppConfig.
Record Features : Type := mkFeatures {
  messagingEnabled : bool;
  rateLimitEnabled : bool;
  retryEnabled : bool
}.

Record Settings : Type := mkSettings {
  maxRetries : Z;
  retryDelays : list Z;
  circuitBreakerThreshold : Z
}.

Record t : Type := mk {
  apiToken : string;
  apiUrl : string;
  phoneNumberId : string;
  recipients : PerRole.t string;
  features : Features;
  settings : Settings
}.
End WhatsAppConfig.

(** ** The downstream API, as the service sees it *)

Module Downstream.

Inductive Nullish : Type := undefined | null.

(** What [response.json ()] resolves to, as far as [sendMessage] reads
    it: [null]; a value whose [messages] is [undefined] or [null]; or a
    value that has [messages], each entry with the [id] it has.  (A
    [messages] that is not an array reads as one whose first entry has
    no [id].) *)
Inductive Body : Type :=
| NullBody
| NoMessages (messages : Nullish)
| Messages (response : WhatsAppResponse.t).

(** What the service reads of a [Response]. *)
Record Response : Type := mkResponse {
  status : Z;
  retryAfterHeader : option string;   (* headers.get ('Retry-After') *)
  text : string;                      (* await response.text () *)
  json : string + Body                (* await response.json (), or the
                                         message of the error it rejects
                                         with *)
}.

(** [response.ok]. *)
Definition ok (r : Response) : bool := (200 <=? status r) && (status r <=? 299).

(** How the promise of [fetch] settles.  [fetch] rejects with a
    [TypeError]: it has a [message] and no [code] of its own; the system
    error of a refused or timed-out connection, and its code, are its
    [cause], which the service does not read. *)
Inductive FetchOutcome : Type :=
| Rejects (message : string)
| Responds (r : Response).

(** One call of [makeApiCall] as the environment decides it: the two draws
    of [Math.random ()] in [simulateRandomError] when
    [WHATSAPP_SIMULATE_ERRORS] is ['true'], and the outcome of [fetch]. *)
Record t : Type := mk {
  simulate : option (Q * Q);
  answer : FetchOutcome
}.

(** A request handed to [fetch]. *)
Record Request : Type := mkRequest {
  url : string;
  authorization : string;
  to : string;
  body : string
}.

End Downstream.

(** ** [whatsapp.service.ts] *)

Module WhatsAppService.

(** The object: its configuration, its limiter and its breaker, and the
    requests it has handed to [fetch] so far (newest last). *)
Record t : Type := mk {
  config : WhatsAppConfig.t;
  rateLimiter : RateLimiter.t;
  circuitBreaker : CircuitBreaker.t;
  fetched : list Downstream.Request
}.

(** The constructor, with the limiter and the breaker it builds when none
    is passed. *)
Definition create (now : Z) (config : WhatsAppConfig.t) : t :=
  mk config (RateLimiter.create RateLimiter.empty_config)
     (CircuitBreaker.create now CircuitBreaker.empty_config) [].

Definition with_rateLimiter (s : t) (l : RateLimiter.t) : t :=
  mk (config s) l (circuitBreaker s) (fetched s).

Definition with_circuitBreaker (s : t) (b : CircuitBreaker.t) : t :=
  mk (config s) (rateLimiter s) b (fetched s).

Definition with_fetch (s : t) (q : Downstream.Request) : t :=
  mk (config s) (rateLimiter s) (circuitBreaker s) (fetched s ++ [q]).

(** *** [validateInputs] *)
Definition validateInputs (phoneNumber message : string) : Thrown + unit :=
  if negb (JS.truthy phoneNumber) then
    inl (ServiceError
           (WhatsAppValidationError "Phone number is required" None None))
  else if negb (JS.startsWith phoneNumber "+") then
    inl (ServiceError
           (WhatsAppValidationError
              "Phone number must start with country code (+)" None None))
  else if (JS.length phoneNumber <? 10) || (16 <? JS.length phoneNumber) then
    inl (ServiceError
           (WhatsAppValidationError "Invalid phone number length" None None))
  else if negb (JS.truthy message) then
    inl (ServiceError
           (WhatsAppValidationError "Message text is required" None None))
  else if 4096 <? JS.length message then
    inl (ServiceError
           (WhatsAppValidationError
              "Message text too long (max 4096 characters)" None None))
  else inr tt.

(** [parseInt (response.headers.get ('Retry-After') || '60')]: the header,
    or ['60'] when it is missing or empty, through [parseInt]. *)
Definition retry_after_seconds (response : Downstream.Response)
    : JS.integer :=
  JS.parseInt
    (match Downstream.retryAfterHeader response with
     | Some h => JS.or_else h "60"
     | None => "60"
     end).

(** *** [handleApiError]: never returns, always throws *)
Definition handleApiError (response : Downstream.Response) : Thrown :=
  let statusCode := Downstream.status response in
  let errorText := Downstream.text response in
  match statusCode with
  | 401 =>
      ServiceError (WhatsAppAuthError "Invalid or expired access token" None)
  | 429 =>
      let retryAfter := retry_after_seconds response in
      ServiceError (WhatsAppRateLimitError retryAfter None None)
  | 400 =>
      ServiceError
        (WhatsAppValidationError ("Bad request: " ++ errorText)%string
           None None)
  | 500 | 502 | 503 | 504 =>
      ServiceError
        (WhatsAppNetworkError
           ("Server error: " ++ JS.show statusCode ++ " " ++ errorText)%string
           None)
  | _ =>
      ServiceError
        (WhatsAppServiceError
           ("API error: " ++ JS.show statusCode ++ " " ++ errorText)%string
           UNKNOWN_ERROR None (Some statusCode) None None)
  end.

(** *** [handleError] *)
Definition is_unreachable (code : option string) : bool :=
  match code with
  | Some c => String.eqb c "ECONNREFUSED" || String.eqb c "ETIMEDOUT"
  | None => false
  end.

Definition handleError (error : Thrown) (dealId recipient : option string)
    : WhatsAppError.t :=
  match error with
  | ServiceError e => e
  | CircuitBreakerOpenError _ _ =>
      WhatsAppServiceError
        "Service temporarily unavailable (circuit breaker open)"
        NETWORK_ERROR None (Some 503) dealId recipient
  | OtherError code message =>
      if is_unreachable code
      then WhatsAppNetworkError "Cannot reach WhatsApp API" dealId
      else WhatsAppServiceError
             (JS.or_else message "Unknown WhatsApp error")
             UNKNOWN_ERROR None None dealId recipient
  end.

(** *** [simulateRandomError] *)
Definition simulateRandomError (random1 random2 : Q) : Thrown + unit :=
  if Qle_bool (1 # 10) random1 then inr tt
  else
    match Qfloor (random2 * 4) with
    | 0 => inl (ServiceError
                  (WhatsAppRateLimitError (JS.Int 60) None None))
    | 1 => inl (ServiceError
                  (WhatsAppNetworkError "Simulated network error" None))
    | 2 => inl (ServiceError
                  (WhatsAppAuthError "Simulated auth error" None))
    | 3 => inl (ServiceError
                  (WhatsAppValidationError "Simulated validation error"
                     None None))
    | _ => inl (OtherError None "randomError is not a function")
    end.

(** *** [makeApiCall]

    In two halves: up to the [await] on [fetch], and from the settlement
    of [fetch] on. *)
(** The guarded call of [simulateRandomError] that opens [makeApiCall]. *)
Definition simulated (d : Downstream.t) : Thrown + unit :=
  match Downstream.simulate d with
  | Some (random1, random2) => simulateRandomError random1 random2
  | None => inr tt
  end.

(** The request [makeApiCall] hands to [fetch]. *)
Definition request_of (cfg : WhatsAppConfig.t) (phoneNumber message : string)
    : Downstream.Request :=
  Downstream.mkRequest
    (WhatsAppConfig.apiUrl cfg ++ "/"
     ++ WhatsAppConfig.phoneNumberId cfg ++ "/messages")%string
    ("Bearer " ++ WhatsAppConfig.apiToken cfg)%string
    phoneNumber message.

Definition makeApiCall_request (phoneNumber message : string)
    (d : Downstream.t) (s : t) : (Thrown + unit) * t :=
  match simulated d with
  | inl e => (inl e, s)
  | inr _ =>
      (inr tt, with_fetch s (request_of (config s) phoneNumber message))
  end.

Definition makeApiCall_response (d : Downstream.t)
    : Thrown + Downstream.Body :=
  match Downstream.answer d with
  | Downstream.Rejects message => inl (OtherError None message)
  | Downstream.Responds response =>
      if negb (Downstream.ok response) then inl (handleApiError response)
      else
        match Downstream.json response with
        | inl message => inl (OtherError None message)
        | inr parsed => inr parsed
        end
  end.

(** [response.messages[0]] on what [makeApiCall] returned: a
    [TypeError], worded as V8 words it, when there is nothing to read
    [messages] or [0] of. *)
Definition read_messages (body : Downstream.Body)
    : Thrown + WhatsAppResponse.t :=
  match body with
  | Downstream.NullBody =>
      inl (OtherError None
             "Cannot read properties of null (reading 'messages')")
  | Downstream.NoMessages Downstream.undefined =>
      inl (OtherError None
             "Cannot read properties of undefined (reading '0')")
  | Downstream.NoMessages Downstream.null =>
      inl (OtherError None "Cannot read properties of null (reading '0')")
  | Downstream.Messages response => inr response
  end.

(** [response.messages[0]?.id]. *)
Definition first_id (response : WhatsAppResponse.t) : option string :=
  match WhatsAppResponse.messages response with
  | id :: _ => id
  | [] => None
  end.

(** What the [try] block of [sendMessage] has in hand once [makeApiCall]
    has settled: what [makeApiCall] threw, what reading the response
    threw, or the response. *)
Definition received (d : Downstream.t) : Thrown + WhatsAppResponse.t :=
  match makeApiCall_response d with
  | inl e => inl e
  | inr body => read_messages body
  end.

(** *** What a failed send is classified from

    The downstream answered with a status outside 2xx, [fetch] rejected,
    the breaker refused the call, or something else was thrown inside
    the [try], an [Error] with the [code] and the [message] it has;
    [failure_thrown] is the value that reaches the [catch] block of
    [sendMessage], and [classify] the error the block makes of it. *)
Inductive Failure : Type :=
| HttpStatus (response : Downstream.Response)
| FetchRejected (message : string)
| BreakerOpen (message : string) (nextAttemptTime : option Z)
| Raised (code : option string) (message : string).

Definition failure_thrown (f : Failure) : Thrown :=
  match f with
  | HttpStatus response => handleApiError response
  | FetchRejected message => OtherError None message
  | BreakerOpen message nextAttemptTime =>
      CircuitBreakerOpenError message nextAttemptTime
  | Raised code message => OtherError code message
  end.

Definition classify (f : Failure) (dealId recipient : option string)
    : WhatsAppError.t :=
  handleError (failure_thrown f) dealId recipient.

(** *** [sendMessage]

    An [async] function runs as a chain of synchronous segments, one per
    [await].  [sendMessage] has three: up to the [await] on the limiter
    ([sendMessage_start]), from there to the [await] on [fetch] inside
    [circuitBreaker.execute] ([sendMessage_dispatch]), and from the
    settlement of [fetch] to the [return] ([sendMessage_complete]).  Each
    takes the clock value it runs at.  The body is inside [try]; whatever
    it throws lands in the [catch] block ([sendMessage_catch]). *)

Record Call : Type := mkCall {
  phoneNumber : string;
  message : string;
  dealId : option string;
  role : option RecipientRole
}.

(** How the promise of [sendMessage] settles: rejected or fulfilled. *)
Definition Settlement : Type := (Thrown + SendMessageResult.t)%type.

(** [role || 'accounts']. *)
Definition role_or_accounts (c : Call) : RecipientRole :=
  match role c with Some r => r | None => accounts end.

Definition sendMessage_catch (c : Call) (error : Thrown) : Settlement :=
  let whatsappError :=
    handleError error (dealId c) (Some (phoneNumber c)) in
  inr (SendMessageResult.mk false None None (Some whatsappError)
         (phoneNumber c) (role_or_accounts c)).

Definition sendMessage_start (now : Z) (c : Call) (s : t)
    : (Settlement + RateLimiter.Passage) * t :=
  let attempt : (Thrown + RateLimiter.Passage) * t :=
    if negb (WhatsAppConfig.messagingEnabled
               (WhatsAppConfig.features (config s)))
    then (inl (ServiceError
                 (WhatsAppValidationError "WhatsApp messaging is disabled"
                    (dealId c) (Some (phoneNumber c)))), s)
    else
      match validateInputs (phoneNumber c) (message c) with
      | inl e => (inl e, s)
      | inr _ =>
          let '(waited, l) :=
            RateLimiter.waitIfNeeded (RateLimiter.at_once now)
              (rateLimiter s) in
          (inr waited, with_rateLimiter s l)
      end in
  match attempt with
  | (inl e, s) => (inl (sendMessage_catch c e), s)
  | (inr waited, s) => (inr waited, s)
  end.

Definition sendMessage_dispatch (now : Z) (c : Call) (d : Downstream.t)
    (s : t) : (Settlement + unit) * t :=
  match CircuitBreaker.execute_enter now (circuitBreaker s) with
  | inl e => (inl (sendMessage_catch c e), s)
  | inr b =>
      let s := with_circuitBreaker s b in
      match makeApiCall_request (phoneNumber c) (message c) d s with
      | (inl e, s) =>
          (inl (sendMessage_catch c e),
           with_circuitBreaker s
             (CircuitBreaker.onFailure now (circuitBreaker s)))
      | (inr _, s) => (inr tt, s)
      end
  end.

Definition sendMessage_complete (now : Z) (c : Call) (d : Downstream.t)
    (s : t) : Settlement * t :=
  let r := makeApiCall_response d in
  let s :=
    with_circuitBreaker s
      (CircuitBreaker.execute_settle now r (circuitBreaker s)) in
  match r with
  | inl e => (sendMessage_catch c e, s)
  | inr response =>
      (* [response.messages[0]?.id], first read for the log entry *)
      match read_messages response with
      | inl e => (sendMessage_catch c e, s)
      | inr response =>
          (inr (SendMessageResult.mk true
                  (Some ("whatsapp-" ++ JS.show now)%string)
                  (first_id response)
                  None (phoneNumber c) (role_or_accounts c)),
           s)
      end
  end.

(** The clock values of one call that nothing else interleaves with. *)
Record Clock : Type := mkClock {
  at_call : Z;
  after_limiter : Z;
  after_fetch : Z
}.

Definition sendMessage (clock : Clock) (c : Call) (d : Downstream.t) (s : t)
    : Settlement * t :=
  match sendMessage_start (at_call clock) c s with
  | (inl settled, s) => (settled, s)
  | (inr _, s) =>
      match sendMessage_dispatch (after_limiter clock) c d s with
      | (inl settled, s) => (settled, s)
      | (inr _, s) => sendMessage_complete (after_fetch clock) c d s
      end
  end.

(** The operation [sendMessage] hands to [circuitBreaker.execute]:
    [makeApiCall] on the service, the clock standing at [settled_at] when
    [fetch] has settled.  Its environment is the service and the clock. *)
Definition api_operation (c : Call) (d : Downstream.t) (settled_at : Z)
    : CircuitBreaker.Operation (Env := t * Z) (T := Downstream.Body) :=
  fun env =>
    match makeApiCall_request (phoneNumber c) (message c) d (fst env) with
    | (inl e, s) => (inl e, (s, snd env))
    | (inr _, s) => (makeApiCall_response d, (s, settled_at))
    end.

(** *** [sendDealNotifications]

    [Object.entries (recipients).map (async ...)] starts the four
    callbacks one after the other, each running up to its first [await];
    from then on the event loop resumes whichever callback has its awaited
    promise settled.  A callback is suspended on the limiter
    ([AtLimiter]), on [fetch] ([AtFetch]), or on the promise of
    [sendMessage], already settled ([Resolved]); or it has pushed its
    result ([Finished]).  The order of resumption is the event loop's: it
    is an input, the [Schedule]. *)

Inductive Task : Type :=
| AtLimiter (c : Call) (waited : RateLimiter.Passage)
| AtFetch (c : Call)
| Resolved (c : Call) (settled : Settlement)
| Finished.

(** What the four callbacks share: the service, and the two arrays of
    the enclosing call. *)
Record Shared : Type := mkShared {
  service : t;
  results : list SendMessageResult.t;
  errors : list WhatsAppError.t
}.

Definition with_service (sh : Shared) (s : t) : Shared :=
  mkShared s (results sh) (errors sh).

(** The [try] branch after [await this.sendMessage (...)]. *)
Definition callback_push (result : SendMessageResult.t) (sh : Shared)
    : Shared :=
  let results := results sh ++ [result] in
  let errors :=
    match SendMessageResult.success result, SendMessageResult.error result with
    | false, Some e => errors sh ++ [e]
    | _, _ => errors sh
    end in
  mkShared (service sh) results errors.

(** The [catch] branch of the callback. *)
Definition callback_catch (deal : DealData.t) (r : RecipientRole)
    (phone : string) (error : Thrown) (sh : Shared) : Shared :=
  let whatsappError :=
    handleError error (Some (DealData.id deal)) (Some phone) in
  let errors := errors sh ++ [whatsappError] in
  let results :=
    results sh
    ++ [SendMessageResult.mk false None None (Some whatsappError) phone r] in
  mkShared (service sh) results errors.

Section Notifications.
Variable generateMessage : MessageTemplates.Renderer.
Variable deal : DealData.t.

(** The callback up to its first [await]. *)
Definition callback_start (now : Z) (r : RecipientRole) (phone : string)
    (sh : Shared) : Task * Shared :=
  match generateMessage r deal with
  | inl e => (Finished, callback_catch deal r phone e sh)
  | inr message =>
      let c := mkCall phone message (Some (DealData.id deal)) (Some r) in
      match sendMessage_start now c (service sh) with
      | (inl settled, s) => (Resolved c settled, with_service sh s)
      | (inr waited, s) => (AtLimiter c waited, with_service sh s)
      end
  end.

(** The callback resumed at clock value [now]; [d] is what the
    downstream does with its request. *)
Definition callback_resume (now : Z) (r : RecipientRole)
    (d : Downstream.t) (task : Task) (sh : Shared) : Task * Shared :=
  match task with
  | AtLimiter c _ =>
      match sendMessage_dispatch now c d (service sh) with
      | (inl settled, s) => (Resolved c settled, with_service sh s)
      | (inr _, s) => (AtFetch c, with_service sh s)
      end
  | AtFetch c =>
      let '(settled, s) := sendMessage_complete now c d (service sh) in
      (Resolved c settled, with_service sh s)
  | Resolved c (inr result) => (Finished, callback_push result sh)
  | Resolved c (inl e) =>
      (Finished, callback_catch deal r (phoneNumber c) e sh)
  | Finished => (Finished, sh)
  end.

Record Run : Type := mkRun {
  shared : Shared;
  tasks : PerRole.t Task
}.

(** The [map]: the four callbacks are started in the order of the
    entries, at one clock value. *)
Definition start_all (now : Z) (s : t) : Run :=
  let recipients := WhatsAppConfig.recipients (config s) in
  let sh := mkShared s [] [] in
  let '(ta, sh) :=
    callback_start now accounts (PerRole.of_accounts recipients) sh in
  let '(tl, sh) :=
    callback_start now logistics (PerRole.of_logistics recipients) sh in
  let '(tb, sh) :=
    callback_start now boss1 (PerRole.of_boss1 recipients) sh in
  let '(to, sh) :=
    callback_start now bossog (PerRole.of_bossog recipients) sh in
  mkRun sh (PerRole.mk ta tl tb to).

(** One turn of the event loop: the callback of role [r] resumes. *)
Definition resume (downstream : RecipientRole -> Downstream.t)
    (run : Run) (turn : RecipientRole * Z) : Run :=
  let '(r, now) := turn in
  let '(task, sh) :=
    callback_resume now r (downstream r) (PerRole.get r (tasks run))
      (shared run) in
  mkRun sh (PerRole.set r task (tasks run)).

Definition Schedule : Type := list (RecipientRole * Z).

Definition run_schedule (downstream : RecipientRole -> Downstream.t)
    (schedule : Schedule) (run : Run) : Run :=
  fold_left (resume downstream) schedule run.

Definition is_finished (task : Task) : bool :=
  match task with Finished => true | _ => false end.

(** [Promise.allSettled (sendPromises)] has resolved. *)
Definition all_settled (run : Run) : bool :=
  forallb (fun r => is_finished (PerRole.get r (tasks run))) PerRole.roles.

(** What follows [await Promise.allSettled (...)]. *)
Definition summary (run : Run) : BulkSendResult.t :=
  let results := results (shared run) in
  let successCount :=
    Z.of_nat (List.length (filter SendMessageResult.success results)) in
  let failureCount :=
    Z.of_nat
      (List.length
         (filter (fun r => negb (SendMessageResult.success r)) results)) in
  BulkSendResult.mk (DealData.id deal) results successCount failureCount
    (errors (shared run)).

(** [sendDealNotifications (deal)], called at clock value [now] and
    carried on by [schedule]: the result and the service as it is left,
    or [None] while a callback is still suspended. *)
Definition sendDealNotifications (now : Z)
    (downstream : RecipientRole -> Downstream.t) (schedule : Schedule)
    (s : t) : option (BulkSendResult.t * t) :=
  let run := run_schedule downstream schedule (start_all now s) in
  if all_settled run
  then Some (summary run, service (shared run))
  else None.
End Notifications.

(** *** Vocabulary of the properties *)

(** The downstream lets the call through: no simulated error, and an
    answer in 2xx whose body parses and has [messages]. *)
Definition delivers (d : Downstream.t) : bool :=
  match simulated d, received d with
  | inr _, inr _ => true
  | _, _ => false
  end.

(** The number of turns the schedule gives role [r]. *)
Definition turns (r : RecipientRole) (schedule : Schedule) : nat :=
  List.length (filter (fun turn => RecipientRole_eqb (fst turn) r) schedule).

(** A schedule that resumes every callback until it has finished: a
    callback has at most three [await]s. *)
Definition fair (schedule : Schedule) : Prop :=
  forall r, (3 <= turns r schedule)%nat.

(** The [await]s a callback still has before it. *)
Definition rank (task : Task) : nat :=
  match task with
  | AtLimiter _ _ => 3
  | AtFetch _ => 2
  | Resolved _ _ => 1
  | Finished => 0
  end.

(** The results that name role [r]. *)
Definition results_of (r : RecipientRole)
    (results : list SendMessageResult.t) : list SendMessageResult.t :=
  filter (fun res => RecipientRole_eqb (SendMessageResult.role res) r)
    results.

(** The results that name another role than [r]. *)
Definition results_but (r : RecipientRole)
    (results : list SendMessageResult.t) : list SendMessageResult.t :=
  filter (fun res => negb (RecipientRole_eqb (SendMessageResult.role res) r))
    results.

(** The callback has not yet heard from the downstream. *)
Definition in_flight (task : Task) : bool :=
  match task with
  | AtLimiter _ _ | AtFetch _ => true
  | _ => false
  end.

(** The failures the breaker has yet to be told of: the callbacks still
    in flight whose call the downstream does not let through. *)
Definition failures_ahead (downstream : RecipientRole -> Downstream.t)
    (tasks : PerRole.t Task) : Z :=
  fold_right
    (fun r acc =>
       (if in_flight (PerRole.get r tasks) && negb (delivers (downstream r))
        then 1 else 0) + acc)
    0 PerRole.roles.

(** Role [r] is configured so that its send gets as far as the limiter:
    its message renders, and recipient and message pass
    [validateInputs]. *)
Definition sendable (generateMessage : MessageTemplates.Renderer)
    (deal : DealData.t) (s : t) (r : RecipientRole) : Prop :=
  exists message,
    generateMessage r deal = inr message
    /\ validateInputs (PerRole.get r (WhatsAppConfig.recipients (config s)))
         message = inr tt.

Definition enabled (s : t) : bool :=
  WhatsAppConfig.messagingEnabled (WhatsAppConfig.features (config s)).

(** The inputs [validateInputs] turns down: no recipient, no leading
    [+], fewer than 10 or more than 16 characters in the recipient (the
    [+] counted), no text, or more than 4096 characters of text. *)
Definition violates (phoneNumber message : string) : Prop :=
  phoneNumber = ""
  \/ JS.startsWith phoneNumber "+" = false
  \/ JS.length phoneNumber < 10
  \/ 16 < JS.length phoneNumber
  \/ message = ""
  \/ 4096 < JS.length message.

(** The result the [catch] block of [sendMessage] returns for error
    [e]. *)
Definition failed (c : Call) (e : WhatsAppError.t) : SendMessageResult.t :=
  SendMessageResult.mk false None None (Some e) (phoneNumber c)
    (role_or_accounts c).

(** The result [sendMessage] returns once the downstream has accepted the
    message, at clock value [now]. *)
Definition sent (now : Z) (c : Call) (response : WhatsAppResponse.t)
    : SendMessageResult.t :=
  SendMessageResult.mk true (Some ("whatsapp-" ++ JS.show now)%string)
    (first_id response) None (phoneNumber c) (role_or_accounts c).

(** How [sendMessage] settles once [fetch] has. *)
Definition settlement (now : Z) (c : Call) (d : Downstream.t) : Settlement :=
  match received d with
  | inl e => sendMessage_catch c e
  | inr response => inr (sent now c response)
  end.

(** Where a resumed callback gets to while the breaker lets calls
    through. *)
Definition next_task (now : Z) (d : Downstream.t) (task : Task) : Task :=
  match task with
  | AtLimiter c _ =>
      match simulated d with
      | inl e => Resolved c (sendMessage_catch c e)
      | inr _ => AtFetch c
      end
  | AtFetch c => Resolved c (settlement now c d)
  | Resolved _ _ => Finished
  | Finished => Finished
  end.

(** What a resumed callback appends to [results]. *)
Definition pushed (deal : DealData.t) (r : RecipientRole) (task : Task)
    : list SendMessageResult.t :=
  match task with
  | Resolved c (inr result) => [result]
  | Resolved c (inl e) =>
      [SendMessageResult.mk false None None
         (Some (handleError e (Some (DealData.id deal)) (Some (phoneNumber c))))
         (phoneNumber c) r]
  | _ => []
  end.

(** The callback of role [r] works for role [r]. *)
Definition for_role (r : RecipientRole) (task : Task) : Prop :=
  match task with
  | AtLimiter c _ | AtFetch c => role c = Some r
  | Resolved c (inr result) => SendMessageResult.role result = r
  | Resolved c (inl _) => True
  | Finished => True
  end.

(** Every callback works for its role, and [results] holds one result for
    each role whose callback has finished and none for the others. *)
Definition tracked (run : Run) : Prop :=
  forall r,
    for_role r (PerRole.get r (tasks run))
    /\ List.length (results_of r (results (shared run)))
       = if is_finished (PerRole.get r (tasks run)) then 1%nat else 0%nat.

(** The callback of role [r] is on its way to the result the downstream
    decides. *)
Definition on_course (downstream : RecipientRole -> Downstream.t)
    (r : RecipientRole) (task : Task) : Prop :=
  match task with
  | AtLimiter c _ => role c = Some r
  | AtFetch c => role c = Some r /\ exists u, simulated (downstream r) = inr u
  | Resolved c (inr result) =>
      SendMessageResult.role result = r
      /\ SendMessageResult.success result = delivers (downstream r)
  | Resolved c (inl _) => False
  | Finished => True
  end.

(** The breaker is closed and stays so under the failures still to come;
    every callback is on course; every result in [results] is a success
    exactly when the downstream of its role delivers. *)
Definition steady (downstream : RecipientRole -> Downstream.t) (run : Run)
    : Prop :=
  let b := circuitBreaker (service (shared run)) in
  CircuitBreaker.state b = CircuitBreaker.CLOSED
  /\ 0 <= CircuitBreaker.failures b
  /\ (0 < failures_ahead downstream (tasks run) ->
      CircuitBreaker.failures b + failures_ahead downstream (tasks run)
      < CircuitBreaker.failureThreshold (CircuitBreaker.config b))
  /\ (forall r, on_course downstream r (PerRole.get r (tasks run)))
  /\ (forall result,
        In result (results (shared run)) ->
        SendMessageResult.success result
        = delivers (downstream (SendMessageResult.role result))).

(** A call gets through: messaging is on, the inputs pass validation, the
    breaker lets the call in when the limiter has let it go, and the
    downstream delivers. *)
Definition goes_through (clock : Clock) (c : Call) (d : Downstream.t) (s : t)
    : Prop :=
  enabled s = true
  /\ ~ violates (phoneNumber c) (message c)
  /\ (exists b,
        CircuitBreaker.execute_enter (after_limiter clock) (circuitBreaker s)
        = inr b)
  /\ delivers d = true.

(** The callback of role [r] can only end in a failure, and every result
    for [r] in [results] is one. *)
Definition bound_to_fail (r : RecipientRole) (run : Run) : Prop :=
  match PerRole.get r (tasks run) with
  | Resolved _ (inr result) => SendMessageResult.success result = false
  | Resolved _ (inl _) => True
  | Finished => True
  | _ => False
  end
  /\ forall result,
       In result (results (shared run)) ->
       SendMessageResult.role result = r ->
       SendMessageResult.success result = false.

(** The breaker is [b] and no callback has got past it: none waits on
    [fetch], and every result so far is a failure. *)
Definition held_back (b : CircuitBreaker.t) (run : Run) : Prop :=
  circuitBreaker (service (shared run)) = b
  /\ (forall r,
        match PerRole.get r (tasks run) with
        | AtFetch _ => False
        | Resolved _ (inr result) => SendMessageResult.success result = false
        | _ => True
        end)
  /\ forall result,
       In result (results (shared run)) ->
       SendMessageResult.success result = false.

(** Every turn of the schedule comes before the breaker [b] is due for a
    trial. *)
Definition before_trial (b : CircuitBreaker.t) (schedule : Schedule) : Prop :=
  Forall
    (fun turn =>
       snd turn - CircuitBreaker.lastFailureTime b
       < CircuitBreaker.timeoutMs (CircuitBreaker.config b))
    schedule.

(** The number of roles whose call the downstream does not let through. *)
Definition misses (downstream : RecipientRole -> Downstream.t) : Z :=
  fold_right
    (fun r acc => (if delivers (downstream r) then 0 else 1) + acc)
    0 PerRole.roles.

(** The downstream that is [downstream] but for role [f], where it is
    [failing]. *)
Definition but_for (f : RecipientRole) (failing : Downstream.t)
    (downstream : RecipientRole -> Downstream.t)
    : RecipientRole -> Downstream.t :=
  fun r => if RecipientRole_eqb r f then failing else downstream r.

End WhatsAppService.

(** ** [deal.service.ts] *)

Module DealService.

(** The columns of the selected product that the conversion reads. *)
Record FormProduct : Type := mkProduct {
  Product : option string;
  grade : option string;
  company : option string;
  specific_grade : option string
}.

Record CreateDealRequest : Type := mkRequest {
  date : Date;
  saleParty : string;
  quantitySold : JS.number;
  saleRate : JS.number;
  deliveryTerms : DeliveryTerms;
  saleComments : string;
  productCode : string;
  selectedProduct : option FormProduct;
  materialSource : MaterialSource;
  purchaseParty : string;
  quantityPurchased : JS.number;
  purchaseRate : JS.number;
  warehouseLocation : string;
  purchaseComments : string;
  finalComments : string
}.

Record ErrorEntry : Type := mkEntry {
  entry_recipient : string;
  entry_role : string;
  entry_error : string
}.

Record WhatsAppResults : Type := mkResults {
  enabled : bool;
  results_success : bool;
  successCount : Z;
  failureCount : Z;
  errors : list ErrorEntry
}.

Record CreateDealResult : Type := mkResult {
  success : bool;
  dealId : string;
  deal : option DealData.t;          (* [None] is [{} as DealData] *)
  whatsappResults : option WhatsAppResults;
  error : option string
}.

(** [x ? y : undefined] on the material source. *)
Definition when_new {A : Type} (m : MaterialSource) (x : A) : option A :=
  match m with
  | new_material => Some x
  | from_inventory => None
  end.

(** [formData.selectedProduct?.field]. *)
Definition of_product (p : option FormProduct)
    (field : FormProduct -> option string) : option string :=
  match p with
  | Some p => field p
  | None => None
  end.

Definition convertFormDataToDealData (formData : CreateDealRequest)
    (dealId : string) : DealData.t :=
  DealData.mk dealId (date formData) (saleParty formData)
    (quantitySold formData) (saleRate formData) (deliveryTerms formData)
    (JS.or_undefined (saleComments formData))
    (productCode formData)
    (of_product (selectedProduct formData) Product)
    (of_product (selectedProduct formData) grade)
    (of_product (selectedProduct formData) company)
    (of_product (selectedProduct formData) specific_grade)
    (materialSource formData)
    (when_new (materialSource formData) (purchaseParty formData))
    (when_new (materialSource formData) (quantityPurchased formData))
    (when_new (materialSource formData) (purchaseRate formData))
    (JS.or_undefined (warehouseLocation formData))
    (JS.or_undefined (purchaseComments formData))
    (JS.or_undefined (finalComments formData)).

(** [e.message] of a thrown [Error]. *)
Definition message_of (e : Thrown) : string :=
  match e with
  | ServiceError e => WhatsAppError.message e
  | CircuitBreakerOpenError message _ => message
  | OtherError _ message => message
  end.

(** The notification pipeline as [createDeal] uses it:
    [getGlobalWhatsAppService ().sendDealNotifications (dealData)], which
    hands back a [BulkSendResult] or throws (the accessor throws on an
    invalid configuration). *)
Definition Pipeline : Type := DealData.t -> Thrown + BulkSendResult.t.

(** [createDeal].  [now] is [Date.now ()], [suffix] the six base-36
    characters drawn from [Math.random ()], [whatsAppEnabled] the value of
    [isWhatsAppEnabled ()].  The outer [try] holds no statement that
    throws outside the inner [try]; its [catch] is kept as written. *)
Definition createDeal (now : Z) (suffix : string) (whatsAppEnabled : bool)
    (notify : Pipeline) (dealRequest : CreateDealRequest)
    : CreateDealResult :=
  let body : Thrown + CreateDealResult :=
    let dealId := ("DEAL-" ++ JS.show now ++ "-" ++ suffix)%string in
    let dealData := convertFormDataToDealData dealRequest dealId in
    let whatsappResults :=
      if whatsAppEnabled then
        match notify dealData with
        | inr results =>
            mkResults true (0 <? BulkSendResult.successCount results)
              (BulkSendResult.successCount results)
              (BulkSendResult.failureCount results)
              (map (fun error =>
                      mkEntry
                        (match WhatsAppError.recipient error with
                         | Some r => JS.or_else r "unknown"
                         | None => "unknown"
                         end)
                        "unknown" (WhatsAppError.message error))
                   (BulkSendResult.errors results))
        | inl whatsappError =>
            mkResults true false 0 4
              [mkEntry "all" "all" (message_of whatsappError)]
        end
      else mkResults false false 0 0 [] in
    inr (mkResult true dealId (Some dealData) (Some whatsappResults) None) in
  match body with
  | inr result => result
  | inl error => mkResult false "" None None (Some (message_of error))
  end.

End DealService.

(** ** Sample values *)

Module Samples.

Definition config : WhatsAppConfig.t :=
  WhatsAppConfig.mk "EAAsampletoken0001" "https://graph.facebook.com/v17.0"
    "123456789012345"
    (PerRole.mk "+919876543210" "+919876543211" "+919876543212"
       "+919876543213")
    (WhatsAppConfig.mkFeatures true true true)
    (WhatsAppConfig.mkSettings 3 [1000; 5000; 15000] 10).

(** The service as its constructor leaves it at clock value 0. *)
Definition service : WhatsAppService.t := WhatsAppService.create 0 config.

(** A 2xx answer that carries a message identifier. *)
Definition accepted (id : string) : Downstream.t :=
  Downstream.mk None
    (Downstream.Responds
       (Downstream.mkResponse 200 None ""
          (inr (Downstream.Messages (WhatsAppResponse.mk [Some id]))))).

(** A 200 answer whose body is [body]. *)
Definition replied (body : string + Downstream.Body) : Downstream.t :=
  Downstream.mk None
    (Downstream.Responds (Downstream.mkResponse 200 None "" body)).

(** An answer with a status outside 2xx. *)
Definition answered (status : Z) : Downstream.t :=
  Downstream.mk None
    (Downstream.Responds
       (Downstream.mkResponse status None "error"
          (inl "Unexpected token"))).

Definition deal : DealData.t :=
  DealData.mk "DEAL-1" (Time 1700000000000) "Customer Ltd" (JS.Num 1000)
    (JS.Num 85) delivered None "PP-001" None None None None from_inventory
    None None None None None None.

(** A stand-in for the templates: a one-line text per role. *)
Definition one_line : MessageTemplates.Renderer :=
  fun r deal => inr ("Deal ID: " ++ DealData.id deal)%string.

(** A schedule that gives every role three turns, the roles taking turns
    in order, one millisecond apart, from clock value [start] on. *)
Definition round_robin (start : Z) : WhatsAppService.Schedule :=
  map (fun turn => (fst turn, start + snd turn))
    [(accounts, 1); (logistics, 2); (boss1, 3); (bossog, 4);
     (accounts, 5); (logistics, 6); (boss1, 7); (bossog, 8);
     (accounts, 9); (logistics, 10); (boss1, 11); (bossog, 12)].

(** [n] calls of [sendMessage] one after the other, three milliseconds
    each, from clock value [now] on; the service as the last one leaves
    it. *)
Fixpoint send_repeatedly (n : nat) (now : Z) (c : WhatsAppService.Call)
    (d : Downstream.t) (s : WhatsAppService.t) : WhatsAppService.t :=
  match n with
  | O => s
  | S n' =>
      send_repeatedly n' (now + 3) c d
        (snd (WhatsAppService.sendMessage
                (WhatsAppService.mkClock now (now + 1) (now + 2)) c d s))
  end.

(** The service after an outage: ten sends in a row answered with 503. *)
Definition after_outage : WhatsAppService.t :=
  send_repeatedly 10 0
    (WhatsAppService.mkCall "+919876543210" "Deal ID: DEAL-0" None None)
    (answered 503) service.

(** The configuration with the logistics recipient left empty. *)
Definition config_without_logistics : WhatsAppConfig.t :=
  WhatsAppConfig.mk "EAAsampletoken0001" "https://graph.facebook.com/v17.0"
    "123456789012345"
    (PerRole.mk "+919876543210" "" "+919876543212" "+919876543213")
    (WhatsAppConfig.mkFeatures true true true)
    (WhatsAppConfig.mkSettings 3 [1000; 5000; 15000] 10).

End Samples.

(** ** [rate-limiter.ts]: the helpers for tests *)

Module RateLimiterTools.
Import RateLimiter.

(** [reset]. *)
Definition reset (l : t) : t := with_requests l [].

(** The loop of [simulateRequests]: [n] more turns, the counter standing
    at [i]. *)
Fixpoint simulate_loop (now : Z) (i : Z) (n : nat) (reqs : list Z)
    : list Z :=
  match n with
  | O => reqs
  | S n' => simulate_loop now (i + 1) n' (reqs ++ [now - i * 1000])
  end.

(** [simulateRequests (count)], for a whole [count], at clock value
    [now]. *)
Definition simulateRequests (now : Z) (count : Z) (l : t) : t :=
  with_requests l (simulate_loop now 0 (Z.to_nat count) (requests l)).

End RateLimiterTools.

(** ** [circuit-breaker.ts]: manual control *)

Module CircuitBreakerTools.
Import CircuitBreaker.

(** [reset], at clock value [now]. *)
Definition reset (now : Z) (b : t) : t :=
  resetCounters (transitionTo now CLOSED b).

(** [forceOpen], at clock value [now]. *)
Definition forceOpen (now : Z) (b : t) : t := transitionTo now OPEN b.

Section Use.
Context {Env T : Type} (clock : Env -> Z).

(** What the holder of a breaker can do with it, one call after the
    other. *)
Inductive Action : Type :=
| Execute (operation : Operation (Env := Env) (T := T))
| Reset
| ForceOpen.

Definition act (a : Action) (b : t) (env : Env) : t * Env :=
  match a with
  | Execute operation =>
      let '(_, b1, env1) := execute clock operation b env in (b1, env1)
  | Reset => (reset (clock env) b, env)
  | ForceOpen => (forceOpen (clock env) b, env)
  end.

Fixpoint act_all (actions : list Action) (b : t) (env : Env) : t * Env :=
  match actions with
  | [] => (b, env)
  | a :: rest =>
      let '(b1, env1) := act a b env in
      act_all rest b1 env1
  end.

(** The operations settle as the flags say: [true] for one that
    resolves, [false] for one that rejects. *)
Definition outcomes (oks : list bool)
    (operations : list (Operation (Env := Env) (T := T))) : Prop :=
  Forall2 (fun (ok : bool) operation =>
             if ok then succeeds operation else fails operation)
          oks operations.
End Use.

(** The counters agree with each other and are within the bound that
    [cleanOldMetrics] keeps. *)
Definition consistent (b : t) : Prop :=
  0 <= failures b /\ 0 <= successes b
  /\ failures b + successes b = requests b
  /\ requests b <= 1000.

(** The number of rejections among the flags. *)
Definition rejections (oks : list bool) : Z :=
  Z.of_nat (List.length (filter negb oks)).

End CircuitBreakerTools.

(** ** [whatsapp.service.ts]: what a run leaves behind *)

Module Delivery.
Import WhatsAppService.

Definition is_inr {A B : Type} (x : A + B) : bool :=
  match x with inr _ => true | inl _ => false end.

(** The call gets as far as [fetch]: messaging is on, the inputs pass
    [validateInputs], the breaker lets the call in, and no simulated
    error is drawn. *)
Definition reaches_fetch (clock : Clock) (c : Call) (d : Downstream.t)
    (s : t) : bool :=
  enabled s
  && is_inr (validateInputs (phoneNumber c) (message c))
  && is_inr (CircuitBreaker.execute_enter (after_limiter clock)
               (circuitBreaker s))
  && is_inr (simulated d).

(** The errors of the failed results, in the order of the results. *)
Definition errors_of (results : list SendMessageResult.t)
    : list WhatsAppError.t :=
  flat_map
    (fun result =>
       match SendMessageResult.success result,
             SendMessageResult.error result with
       | false, Some e => [e]
       | _, _ => []
       end)
    results.

(** A result carries an error exactly when it is a failure. *)
Definition sound (result : SendMessageResult.t) : Prop :=
  match SendMessageResult.error result with
  | Some _ => SendMessageResult.success result = false
  | None => SendMessageResult.success result = true
  end.

Section Run.
Variable generateMessage : MessageTemplates.Renderer.
Variable deal : DealData.t.
(** The service as [sendDealNotifications] found it. *)
Variable s0 : t.

Definition recipient_of (r : RecipientRole) : string :=
  PerRole.get r (WhatsAppConfig.recipients (config s0)).

(** The call the callback of role [r] makes. *)
Definition call_for (r : RecipientRole) (c : Call) : Prop :=
  exists text,
    generateMessage r deal = inr text
    /\ c = mkCall (recipient_of r) text (Some (DealData.id deal)) (Some r).

(** The request that call hands to [fetch]. *)
Definition request_for (r : RecipientRole) (q : Downstream.Request) : Prop :=
  exists text,
    generateMessage r deal = inr text
    /\ q = request_of (config s0) (recipient_of r) text.

(** The result is one for role [r]. *)
Definition result_for (r : RecipientRole) (result : SendMessageResult.t)
    : Prop :=
  sound result
  /\ SendMessageResult.recipient result = recipient_of r
  /\ SendMessageResult.role result = r.

(** The callback of role [r] carries the call of role [r], and the
    result it holds, if any, is one for role [r]. *)
Definition genuine (r : RecipientRole) (task : Task) : Prop :=
  match task with
  | AtLimiter c _ | AtFetch c => call_for r c
  | Resolved c (inr result) => call_for r c /\ result_for r result
  | Resolved c (inl _) => call_for r c
  | Finished => True
  end.

(** The state of a run is in order: the configuration is untouched; every
    callback is genuine; every result is one for the role it names;
    [errors] lists the errors of the failed results; and what has been
    handed to [fetch] since the start is one request each for some roles,
    no role twice, whose callbacks are past the limiter. *)
Definition orderly (run : Run) : Prop :=
  config (service (shared run)) = config s0
  /\ (forall r, genuine r (PerRole.get r (tasks run)))
  /\ Forall (fun result => result_for (SendMessageResult.role result) result)
       (results (shared run))
  /\ errors (shared run) = errors_of (results (shared run))
  /\ exists roles_sent requests,
       NoDup roles_sent
       /\ Forall2 request_for roles_sent requests
       /\ fetched (service (shared run)) = fetched s0 ++ requests
       /\ forall r, In r roles_sent ->
                    (rank (PerRole.get r (tasks run)) <= 2)%nat.
End Run.

(** The configuration with other values for the two switches next to
    [messagingEnabled] and for the settings. *)
Definition retuned (rateLimitEnabled retryEnabled : bool)
    (settings : WhatsAppConfig.Settings) (cfg : WhatsAppConfig.t)
    : WhatsAppConfig.t :=
  WhatsAppConfig.mk (WhatsAppConfig.apiToken cfg) (WhatsAppConfig.apiUrl cfg)
    (WhatsAppConfig.phoneNumberId cfg) (WhatsAppConfig.recipients cfg)
    (WhatsAppConfig.mkFeatures
       (WhatsAppConfig.messagingEnabled (WhatsAppConfig.features cfg))
       rateLimitEnabled retryEnabled)
    settings.

Definition with_config (s : t) (cfg : WhatsAppConfig.t) : t :=
  mk cfg (rateLimiter s) (circuitBreaker s) (fetched s).

(** Nothing is under way: the service is [s], no callback waits on the
    limiter or on [fetch], and every result so far, pushed or about to
    be, is a failure. *)
Definition idle (s : t) (run : Run) : Prop :=
  service (shared run) = s
  /\ (forall r,
        match PerRole.get r (tasks run) with
        | AtLimiter _ _ | AtFetch _ => False
        | Resolved _ (inr result) => SendMessageResult.success result = false
        | _ => True
        end)
  /\ forall result,
       In result (results (shared run)) ->
       SendMessageResult.success result = false.

End Delivery.

(** ** [whatsapp.config.ts]

    [process.env] is a lookup [Env]; [new URL (url)] is the platform's
    parser, kept as the parameter [isValidUrl].  The settings are kept as
    [parseInt] leaves them, [NaN] included. *)

Module ConfigManager.

Definition Env : Type := string -> option string.

(** [process.env.NAME || fallback]. *)
Definition env_or (env : Env) (name fallback : string) : string :=
  match env name with
  | Some v => JS.or_else v fallback
  | None => fallback
  end.

Record Settings : Type := mkSettings {
  maxRetries : JS.integer;
  retryDelays : list JS.integer;
  circuitBreakerThreshold : JS.integer
}.

Record Config : Type := mk {
  apiToken : string;
  apiUrl : string;
  phoneNumberId : string;
  recipients : PerRole.t string;
  features : WhatsAppConfig.Features;
  settings : Settings
}.

(** [\d]: an ASCII digit. *)
Definition is_digit (c : ascii) : bool :=
  let n := N_of_ascii c in
  (N.leb 48 n && N.leb n 57)%bool.

Fixpoint all_digits (s : string) : bool :=
  match s with
  | EmptyString => true
  | String c s' => is_digit c && all_digits s'
  end.

(** [/^\d+$/.test (s)]. *)
Definition only_digits (s : string) : bool := JS.truthy s && all_digits s.

(** [validateToken]. *)
Definition validateToken (token : string) : bool :=
  (10 <? JS.length token)
  && (String.prefix "EAA" token || String.prefix "EAC" token).

(** [validatePhoneNumberId]: [/^\d{10,20}$/]. *)
Definition validatePhoneNumberId (phoneNumberId : string) : bool :=
  all_digits phoneNumberId
  && (10 <=? JS.length phoneNumberId) && (JS.length phoneNumberId <=? 20).

(** [s.replace (/[^\d+]/g, '')]: what is neither a digit nor [+] goes. *)
Fixpoint strip_separators (s : string) : string :=
  match s with
  | EmptyString => EmptyString
  | String c s' =>
      if is_digit c || Ascii.eqb c "+"
      then String c (strip_separators s')
      else strip_separators s'
  end.

(** [s.slice (1)] on a string of ASCII characters. *)
Definition slice_1 (s : string) : string :=
  match s with
  | EmptyString => EmptyString
  | String _ s' => s'
  end.

Record PhoneValidation : Type := mkValidation {
  valid : bool;
  formatted : option string;
  error : option string
}.

(** [validatePhoneNumber]. *)
Definition validatePhoneNumber (phoneNumber : string) : PhoneValidation :=
  if negb (JS.truthy phoneNumber) then
    mkValidation false None (Some "Phone number is required")
  else
    let cleaned := strip_separators phoneNumber in
    if negb (JS.startsWith cleaned "+") then
      mkValidation false None
        (Some "Phone number must start with country code (+)")
    else
      let digits := slice_1 cleaned in
      if (JS.length digits <? 10) || (15 <? JS.length digits) then
        mkValidation false None
          (Some "Phone number must be 10-15 digits after country code")
      else if negb (only_digits digits) then
        mkValidation false None
          (Some "Phone number can only contain digits after +")
      else mkValidation true (Some cleaned) None.

(** [validateRecipients]. *)
Definition validateRecipients (recipients : PerRole.t string)
    : PerRole.t PhoneValidation :=
  PerRole.init (fun r => validatePhoneNumber (PerRole.get r recipients)).

(** [s.split (',')]. *)
Fixpoint split_commas (s : string) : list string :=
  match s with
  | EmptyString => [EmptyString]
  | String c s' =>
      if Ascii.eqb c ","
      then EmptyString :: split_commas s'
      else
        match split_commas s' with
        | part :: parts => String c part :: parts
        | [] => [String c EmptyString]
        end
  end.

(** [isNaN (d) || d < 0]. *)
Definition is_bad_delay (d : JS.integer) : bool :=
  match d with
  | JS.NotANumber => true
  | JS.Int z => z <? 0
  | JS.Infinite negative => negative
  end.

Definition default_delays : list JS.integer :=
  [JS.Int 1000; JS.Int 5000; JS.Int 15000].

(** [parseRetryDelays]; nothing in its [try] block throws. *)
Definition parseRetryDelays (delaysString : option string)
    : list JS.integer :=
  match delaysString with
  | None => default_delays
  | Some str =>
      if negb (JS.truthy str) then default_delays
      else
        let delays := map (fun d => JS.parseInt (JS.trim d)) (split_commas str) in
        if existsb is_bad_delay delays then default_delays else delays
  end.

(** [loadConfigFromEnv]. *)
Definition loadConfigFromEnv (env : Env) : Config :=
  mk (env_or env "WHATSAPP_API_TOKEN" "")
     (env_or env "WHATSAPP_API_URL" "https://graph.facebook.com/v17.0")
     (env_or env "WHATSAPP_PHONE_NUMBER_ID" "")
     (PerRole.mk (env_or env "WHATSAPP_PHONE_ACCOUNTS" "")
        (env_or env "WHATSAPP_PHONE_LOGISTICS" "")
        (env_or env "WHATSAPP_PHONE_BOSS1" "")
        (env_or env "WHATSAPP_PHONE_BOSSOG" ""))
     (WhatsAppConfig.mkFeatures
        (match env "FEATURE_WHATSAPP_MESSAGING" with
         | Some v => String.eqb v "true"
         | None => false
         end)
        (match env "WHATSAPP_RATE_LIMIT_ENABLED" with
         | Some v => negb (String.eqb v "false")
         | None => true
         end)
        (match env "WHATSAPP_RETRY_ENABLED" with
         | Some v => negb (String.eqb v "false")
         | None => true
         end))
     (mkSettings
        (JS.parseInt (env_or env "WHATSAPP_MAX_RETRIES" "3"))
        (parseRetryDelays (env "WHATSAPP_RETRY_DELAYS"))
        (JS.parseInt (env_or env "WHATSAPP_CIRCUIT_BREAKER_THRESHOLD" "10"))).

(** [isEnabled]. *)
Definition isEnabled (env : Env) : bool :=
  match env "FEATURE_WHATSAPP_MESSAGING" with
  | Some v => String.eqb v "true"
  | None => false
  end.

(** [i < k] and [i > k] on what [parseInt] returned: false on [NaN]. *)
Definition below (i : JS.integer) (k : Z) : bool :=
  match i with
  | JS.NotANumber => false
  | JS.Int z => z <? k
  | JS.Infinite negative => negative
  end.

Definition above (i : JS.integer) (k : Z) : bool :=
  match i with
  | JS.NotANumber => false
  | JS.Int z => k <? z
  | JS.Infinite negative => negb negative
  end.

(** The keys of [recipients], and [role.toUpperCase ()]. *)
Definition role_name (r : RecipientRole) : string :=
  match r with
  | accounts => "accounts"
  | logistics => "logistics"
  | boss1 => "boss1"
  | bossog => "bossog"
  end.

Definition upper (c : ascii) : ascii :=
  let n := N_of_ascii c in
  if (N.leb 97 n && N.leb n 122)%bool then ascii_of_N (n - 32) else c.

Fixpoint toUpperCase (s : string) : string :=
  match s with
  | EmptyString => EmptyString
  | String c s' => String (upper c) (toUpperCase s')
  end.

(** One turn of the [forEach] over the validated recipients. *)
Definition check_recipient (config : Config) (errors : list string)
    (entry : RecipientRole * PhoneValidation) : list string :=
  let '(role, result) := entry in
  MessageTemplates.push_if
    (negb (valid result)
     && negb (String.eqb (PerRole.get role (recipients config)) ""))
    ("WHATSAPP_PHONE_" ++ toUpperCase (role_name role) ++ ": "
     ++ match error result with Some e => e | None => "undefined" end)%string
    errors.

(** The errors [validateConfigOrThrow] collects once messaging is found
    enabled. *)
Definition config_errors (isValidUrl : string -> bool) (config : Config)
    : list string :=
  let errors := [] in
  let errors :=
    if negb (JS.truthy (apiToken config))
    then errors ++ ["WHATSAPP_API_TOKEN is required"]
    else if negb (validateToken (apiToken config))
    then errors
         ++ ["WHATSAPP_API_TOKEN format is invalid (should start with EAA)"]
    else errors in
  let errors :=
    if negb (JS.truthy (phoneNumberId config))
    then errors ++ ["WHATSAPP_PHONE_NUMBER_ID is required"]
    else if negb (validatePhoneNumberId (phoneNumberId config))
    then errors
         ++ ["WHATSAPP_PHONE_NUMBER_ID format is invalid (should be numeric)"]
    else errors in
  let errors :=
    MessageTemplates.push_if (negb (isValidUrl (apiUrl config)))
      "WHATSAPP_API_URL is invalid" errors in
  let errors :=
    fold_left (check_recipient config)
      (PerRole.entries (validateRecipients (recipients config))) errors in
  let errors :=
    MessageTemplates.push_if
      (below (maxRetries (settings config)) 0
       || above (maxRetries (settings config)) 10)
      "WHATSAPP_MAX_RETRIES must be between 0 and 10" errors in
  let errors :=
    MessageTemplates.push_if
      (below (circuitBreakerThreshold (settings config)) 1)
      "WHATSAPP_CIRCUIT_BREAKER_THRESHOLD must be at least 1" errors in
  errors.

(** [validateConfigOrThrow]. *)
Definition validateConfigOrThrow (isValidUrl : string -> bool)
    (config : Config) : Thrown + unit :=
  if negb (WhatsAppConfig.messagingEnabled (features config)) then
    inl (ServiceError
           (WhatsAppValidationError
              "WhatsApp messaging is disabled (FEATURE_WHATSAPP_MESSAGING=false)"
              None None))
  else
    match config_errors isValidUrl config with
    | [] => inr tt
    | errors =>
        inl (ServiceError
               (WhatsAppValidationError
                  ("Configuration errors: "
                   ++ String.concat ", " errors)%string
                  None None))
    end.

(** [loadAndValidateConfig]. *)
Definition loadAndValidateConfig (isValidUrl : string -> bool) (env : Env)
    : Thrown + Config :=
  let config := loadConfigFromEnv env in
  match validateConfigOrThrow isValidUrl config with
  | inl e => inl e
  | inr _ => inr config
  end.

(** The settings pass the range checks; [NaN] passes them all, and
    [Infinity] passes as a threshold. *)
Definition settings_in_range (st : Settings) : Prop :=
  (maxRetries st = JS.NotANumber
   \/ exists z, maxRetries st = JS.Int z /\ 0 <= z <= 10)
  /\ (circuitBreakerThreshold st = JS.NotANumber
      \/ circuitBreakerThreshold st = JS.Infinite false
      \/ exists z, circuitBreakerThreshold st = JS.Int z /\ 1 <= z).

(** What [validateConfigOrThrow] lets through. *)
Definition acceptable (isValidUrl : string -> bool) (config : Config) : Prop :=
  WhatsAppConfig.messagingEnabled (features config) = true
  /\ validateToken (apiToken config) = true
  /\ validatePhoneNumberId (phoneNumberId config) = true
  /\ isValidUrl (apiUrl config) = true
  /\ (forall r,
        PerRole.get r (recipients config) = ""
        \/ valid (validatePhoneNumber (PerRole.get r (recipients config)))
           = true)
  /\ settings_in_range (settings config).

End ConfigManager.

(** ** [deal.service.ts]: validation, and the delivery service wired in *)

Module DealChecks.
Import DealService.

(** [validateDealData]. *)
Definition validateDealData (dealData : CreateDealRequest) : list string :=
  let errors := [] in
  let errors :=
    MessageTemplates.push_if (negb (JS.truthy (saleParty dealData)))
      "Sale party is required" errors in
  let errors :=
    MessageTemplates.push_if
      (JS.falsy (quantitySold dealData) || JS.le0 (quantitySold dealData))
      "Valid quantity sold is required" errors in
  let errors :=
    MessageTemplates.push_if
      (JS.falsy (saleRate dealData) || JS.le0 (saleRate dealData))
      "Valid sale rate is required" errors in
  let errors :=
    MessageTemplates.push_if
      (MessageTemplates.no_value (Some (deliveryTerms dealData)))
      "Delivery terms are required" errors in
  let errors :=
    MessageTemplates.push_if (negb (JS.truthy (productCode dealData)))
      "Product code is required" errors in
  let errors :=
    MessageTemplates.push_if
      (MessageTemplates.no_value (Some (materialSource dealData)))
      "Material source is required" errors in
  match materialSource dealData with
  | new_material =>
      let errors :=
        MessageTemplates.push_if (negb (JS.truthy (purchaseParty dealData)))
          "Purchase party is required for new material" errors in
      let errors :=
        MessageTemplates.push_if
          (JS.falsy (quantityPurchased dealData)
           || JS.le0 (quantityPurchased dealData))
          "Valid purchase quantity is required for new material" errors in
      let errors :=
        MessageTemplates.push_if
          (JS.falsy (purchaseRate dealData) || JS.le0 (purchaseRate dealData))
          "Valid purchase rate is required for new material" errors in
      errors
  | from_inventory => errors
  end.

(** [createDeal] with the delivery service [s] behind
    [getGlobalWhatsAppService ()]: [now] and [suffix] make the
    identifier, the notifications start at clock value [started] and are
    carried on by [schedule].  [None] while [createDeal] is still
    awaiting them. *)
Definition createDeal_through
    (generateMessage : MessageTemplates.Renderer) (now : Z) (suffix : string)
    (whatsAppEnabled : bool) (started : Z)
    (downstream : RecipientRole -> Downstream.t)
    (schedule : WhatsAppService.Schedule) (s : WhatsAppService.t)
    (dealRequest : CreateDealRequest) : option CreateDealResult :=
  if whatsAppEnabled then
    let dealId := ("DEAL-" ++ JS.show now ++ "-" ++ suffix)%string in
    match WhatsAppService.sendDealNotifications generateMessage
            (convertFormDataToDealData dealRequest dealId) started downstream
            schedule s with
    | Some (bulk, _) =>
        Some (createDeal now suffix true (fun _ => inr bulk) dealRequest)
    | None => None
    end
  else
    Some (createDeal now suffix false
            (fun _ => inl (OtherError None "")) dealRequest).

End DealChecks.

(** * Properties *)

(** ** The rate limiter *)

Module RateLimiterFacts.
Import RateLimiter.

Lemma config_getStatus cleaned now l :
  config (snd (getStatus cleaned now l)) = config l.
Proof.
  unfold getStatus.
  destruct (_ <=? 0); [reflexivity|].
  destruct (_ <=? 5); reflexivity.
Qed.

Lemma requests_getStatus cleaned now l :
  snd (getStatus cleaned now l) = cleanOldRequests cleaned l.
Proof.
  unfold getStatus.
  destruct (_ <=? 0); [reflexivity|].
  destruct (_ <=? 5); reflexivity.
Qed.

(** [getStatus] reports [limited] exactly when the cleaned window holds
    [maxRequestsPerMinute] entries or more. *)
Lemma limited_iff cleaned now l :
  current (fst (getStatus cleaned now l)) = limited <->
  maxRequestsPerMinute (config l)
  <= Z.of_nat (List.length (requests (cleanOldRequests cleaned l))).
Proof.
  unfold getStatus.
  change (config (cleanOldRequests cleaned l)) with (config l).
  set (n := Z.of_nat (List.length (requests (cleanOldRequests cleaned l)))).
  destruct (Z.leb_spec (maxRequestsPerMinute (config l) - n) 0) as [H|H];
    cbn [fst current].
  - split; [lia | reflexivity].
  - destruct (_ <=? 5); cbn [fst current]; split; (discriminate || lia).
Qed.

(** The wait time of a [limited] status is the one computed from the
    first entry of the cleaned window. *)
Lemma waitTime_limited cleaned now l :
  current (fst (getStatus cleaned now l)) = limited ->
  waitTime (fst (getStatus cleaned now l))
  = Some (computed_wait now (cleanOldRequests cleaned l)).
Proof.
  intros H. apply limited_iff in H. unfold getStatus, computed_wait.
  change (config (cleanOldRequests cleaned l)) with (config l).
  destruct (Z.leb_spec
              (maxRequestsPerMinute (config l)
               - Z.of_nat (List.length (requests (cleanOldRequests cleaned l))))
              0); [reflexivity | lia].
Qed.

Lemma waitIfNeeded_limited at_ l :
  current (fst (getStatus (cleaned_at at_) (status_at at_) l)) = limited ->
  waitIfNeeded at_ l
  = (Delayed (computed_wait (status_at at_)
                (cleanOldRequests (cleaned_at at_) l)),
     cleanOldRequests (cleaned_at at_) l).
Proof.
  intros H. pose proof (waitTime_limited _ _ _ H) as Hw.
  unfold waitIfNeeded.
  rewrite <- (requests_getStatus (cleaned_at at_) (status_at at_) l) in Hw |- *.
  destruct (getStatus (cleaned_at at_) (status_at at_) l) as [st l1];
    cbn in *.
  rewrite H, Hw. reflexivity.
Qed.

Lemma waitIfNeeded_free at_ l :
  current (fst (getStatus (cleaned_at at_) (status_at at_) l)) <> limited ->
  waitIfNeeded at_ l
  = (Immediate,
     recordRequest (recorded_at at_) (cleanOldRequests (cleaned_at at_) l)).
Proof.
  intros H. unfold waitIfNeeded.
  rewrite <- (requests_getStatus (cleaned_at at_) (status_at at_) l).
  destruct (getStatus (cleaned_at at_) (status_at at_) l) as [st l1];
    cbn in *.
  destruct (current st); congruence.
Qed.

Lemma filter_length_le {A} (p : A -> bool) (xs : list A) :
  (List.length (filter p xs) <= List.length xs)%nat.
Proof.
  induction xs as [|x xs IH]; cbn; [lia|].
  destruct (p x); cbn; lia.
Qed.

Lemma filter_filter_implied {A} (p q : A -> bool) (xs : list A) :
  (forall x, p x = true -> q x = true) ->
  filter p (filter q xs) = filter p xs.
Proof.
  intros H. induction xs as [|x xs IH]; cbn; [reflexivity|].
  destruct (q x) eqn:Hq; cbn.
  - rewrite IH. reflexivity.
  - destruct (p x) eqn:Hp; [|exact IH].
    apply H in Hp. congruence.
Qed.

(** Cleaning at a clock value of the span keeps every request made in
    the span. *)
Lemma since_clean lo now l :
  now < lo + windowMs (config l) ->
  since lo (cleanOldRequests now l) = since lo l.
Proof.
  intros H. unfold since, cleanOldRequests; cbn.
  rewrite filter_filter_implied; [reflexivity|].
  intros x Hx. apply Z.leb_le in Hx. apply Z.ltb_lt. lia.
Qed.

Lemma since_le_length lo l :
  since lo l <= Z.of_nat (List.length (requests l)).
Proof.
  unfold since. apply inj_le, filter_length_le.
Qed.

(** A request that is let through is appended, and the array is not cut. *)
Lemma recordRequest_append now l :
  Z.of_nat (List.length (requests l)) < maxRequestsPerMinute (config l) ->
  recordRequest now l = with_requests l (requests l ++ [now]).
Proof.
  intros H. unfold recordRequest.
  rewrite length_app, Nat2Z.inj_add; cbn.
  destruct (Z.ltb_spec (maxRequestsPerMinute (config l) * 2)
              (Z.of_nat (List.length (requests l)) + 1)); [lia|reflexivity].
Qed.

Lemma since_append lo now l :
  lo <= now ->
  since lo (with_requests l (requests l ++ [now])) = since lo l + 1.
Proof.
  intros H. unfold since; cbn.
  rewrite filter_app, length_app; cbn.
  destruct (Z.leb_spec lo now); [|lia].
  cbn. lia.
Qed.

Lemma config_waitIfNeeded at_ l :
  config (snd (waitIfNeeded at_ l)) = config l.
Proof.
  unfold waitIfNeeded.
  pose proof (config_getStatus (cleaned_at at_) (status_at at_) l) as H.
  destruct (getStatus (cleaned_at at_) (status_at at_) l) as [st l1];
    cbn in H.
  destruct (current st); cbn; try exact H.
  all: unfold recordRequest; destruct (_ <? _); cbn; exact H.
Qed.

(** The two ways a call goes: the cleaned window is full, the call is
    delayed by the computed wait time and the window stays as cleaning
    left it; or the cleaned window has room, the call is let through
    and its time is appended. *)
Lemma waitIfNeeded_cases at_ l :
  let c := cleanOldRequests (cleaned_at at_) l in
  (maxRequestsPerMinute (config l) <= Z.of_nat (List.length (requests c))
   /\ current (fst (getStatus (cleaned_at at_) (status_at at_) l)) = limited
   /\ waitIfNeeded at_ l = (Delayed (computed_wait (status_at at_) c), c))
  \/ (Z.of_nat (List.length (requests c)) < maxRequestsPerMinute (config l)
      /\ current (fst (getStatus (cleaned_at at_) (status_at at_) l))
         <> limited
      /\ waitIfNeeded at_ l
         = (Immediate, with_requests l (requests c ++ [recorded_at at_]))).
Proof.
  intros c.
  destruct (Z.le_gt_cases (maxRequestsPerMinute (config l))
              (Z.of_nat (List.length (requests c)))) as [H|H].
  - left. split; [exact H|].
    assert (Hl : current (fst (getStatus (cleaned_at at_) (status_at at_) l))
                 = limited)
      by (apply limited_iff; exact H).
    split; [exact Hl|]. apply waitIfNeeded_limited, Hl.
  - right. split; [exact H|].
    assert (Hl : current (fst (getStatus (cleaned_at at_) (status_at at_) l))
                 <> limited)
      by (rewrite limited_iff; fold c; lia).
    split; [exact Hl|].
    rewrite (waitIfNeeded_free _ _ Hl). fold c.
    rewrite recordRequest_append by exact H. reflexivity.
Qed.

(** One call inside the span: either it is let through, the span held
    fewer than the maximum before and holds one more now, or it is
    delayed and the window is as it was. *)
Lemma waitIfNeeded_since lo at_ l :
  lo <= recorded_at at_ ->
  cleaned_at at_ < lo + windowMs (config l) ->
  (fst (waitIfNeeded at_ l) = Immediate
   /\ since lo l < maxRequestsPerMinute (config l)
   /\ since lo (snd (waitIfNeeded at_ l)) = since lo l + 1)
  \/ (exists w, fst (waitIfNeeded at_ l) = Delayed w
                /\ since lo (snd (waitIfNeeded at_ l)) = since lo l).
Proof.
  intros Hlo Hhi.
  pose proof (since_le_length lo (cleanOldRequests (cleaned_at at_) l))
    as Hle.
  rewrite (since_clean _ _ _ Hhi) in Hle.
  destruct (waitIfNeeded_cases at_ l) as [(_ & _ & E)|(Hlen & _ & E)];
    rewrite E; cbn [fst snd].
  - right. eexists; split; [reflexivity|]. apply since_clean, Hhi.
  - left.
    change (with_requests l
              (requests (cleanOldRequests (cleaned_at at_) l)
               ++ [recorded_at at_]))
      with (with_requests (cleanOldRequests (cleaned_at at_) l)
              (requests (cleanOldRequests (cleaned_at at_) l)
               ++ [recorded_at at_])).
    rewrite since_append by exact Hlo.
    rewrite (since_clean _ _ _ Hhi). repeat split; lia.
Qed.

Lemma calls_cons at_ times l :
  calls (at_ :: times) l
  = (fst (waitIfNeeded at_ l) :: fst (calls times (snd (waitIfNeeded at_ l))),
     snd (calls times (snd (waitIfNeeded at_ l)))).
Proof.
  cbn. destruct (waitIfNeeded at_ l) as [p l1]; cbn.
  destruct (calls times l1); reflexivity.
Qed.

Lemma calls_app pre post l :
  calls (pre ++ post) l
  = (fst (calls pre l) ++ fst (calls post (snd (calls pre l))),
     snd (calls post (snd (calls pre l)))).
Proof.
  revert l. induction pre as [|at_ pre IH]; intros l.
  - cbn. destruct (calls post l); reflexivity.
  - rewrite <- app_comm_cons, !calls_cons, IH. reflexivity.
Qed.

Lemma calls_length times l :
  List.length (fst (calls times l)) = List.length times.
Proof.
  revert l. induction times as [|at_ times IH]; intros l; [reflexivity|].
  rewrite calls_cons; cbn. rewrite IH. reflexivity.
Qed.

Lemma config_calls times l : config (snd (calls times l)) = config l.
Proof.
  revert l. induction times as [|at_ times IH]; intros l; [reflexivity|].
  rewrite calls_cons; cbn. rewrite IH. apply config_waitIfNeeded.
Qed.

Lemma permitted_cons p ps :
  permitted (p :: ps) = (if is_immediate p then 1 else 0) + permitted ps.
Proof.
  unfold permitted; cbn. destruct (is_immediate p); cbn [List.length]; lia.
Qed.

Lemma permitted_app ps qs : permitted (ps ++ qs) = permitted ps + permitted qs.
Proof.
  unfold permitted. rewrite filter_app, length_app. lia.
Qed.

Lemma within_window_cons lo l at_ times :
  within_window lo l (at_ :: times) ->
  (ordered at_ /\ lo <= cleaned_at at_
   /\ recorded_at at_ < lo + windowMs (config l))
  /\ within_window lo (snd (waitIfNeeded at_ l)) times.
Proof.
  intros Hw. split; [apply Hw; left; reflexivity|].
  intros t Ht. rewrite config_waitIfNeeded. apply Hw; right; exact Ht.
Qed.

(** Over a sequence of calls inside the span, the requests tracked since
    its start grow by exactly the calls let through, and never beyond the
    maximum. *)
Lemma calls_since lo times :
  forall l,
    within_window lo l times ->
    since lo (snd (calls times l))
    = since lo l + permitted (fst (calls times l))
    /\ since lo l + permitted (fst (calls times l))
       <= Z.max (maxRequestsPerMinute (config l)) (since lo l).
Proof.
  induction times as [|at_ times IH]; intros l Hw.
  - cbn. unfold permitted; cbn. lia.
  - rewrite calls_cons; cbn [fst snd]. rewrite permitted_cons.
    destruct (within_window_cons _ _ _ _ Hw) as [(Hord & Hlo & Hhi) Hrest].
    unfold ordered in Hord.
    specialize (IH _ Hrest). rewrite config_waitIfNeeded in IH.
    destruct (waitIfNeeded_since lo at_ l)
      as [(Hp & Hlt & Hs) | (w & Hp & Hs)]; try lia;
      rewrite Hp; rewrite Hs in IH; cbn [is_immediate]; lia.
Qed.

(** A window all of whose entries were made in the span. *)
Lemma in_span_length lo l :
  Forall (fun req => lo <= req) (requests l) ->
  since lo l = Z.of_nat (List.length (requests l)).
Proof.
  intros H. unfold since. f_equal. f_equal.
  apply forallb_filter_id, forallb_forall.
  rewrite Forall_forall in H. intros x Hx. apply Z.leb_le, H, Hx.
Qed.

Lemma in_span_clean lo now l :
  now < lo + windowMs (config l) ->
  Forall (fun req => lo <= req) (requests l) ->
  cleanOldRequests now l = l.
Proof.
  intros Hhi H. unfold cleanOldRequests, with_requests.
  destruct l as [reqs cfg]; cbn in *. f_equal.
  apply forallb_filter_id, forallb_forall.
  rewrite Forall_forall in H. intros x Hx. apply Z.ltb_lt.
  specialize (H x Hx). lia.
Qed.

Lemma in_span_waitIfNeeded lo at_ l :
  lo <= recorded_at at_ ->
  Forall (fun req => lo <= req) (requests l) ->
  Forall (fun req => lo <= req) (requests (snd (waitIfNeeded at_ l))).
Proof.
  intros Hlo H.
  assert (Hc : Forall (fun req => lo <= req)
                 (requests (cleanOldRequests (cleaned_at at_) l))).
  { rewrite Forall_forall in *. intros x Hx.
    unfold cleanOldRequests in Hx; cbn in Hx.
    apply filter_In in Hx. apply H, Hx. }
  destruct (waitIfNeeded_cases at_ l) as [(_ & _ & E)|(_ & _ & E)];
    rewrite E; cbn [snd requests with_requests]; [exact Hc|].
  apply Forall_app. split; [exact Hc|]. constructor; [exact Hlo|constructor].
Qed.

Lemma in_span_calls lo times :
  forall l,
    within_window lo l times ->
    Forall (fun req => lo <= req) (requests l) ->
    Forall (fun req => lo <= req) (requests (snd (calls times l))).
Proof.
  induction times as [|at_ times IH]; intros l Hw H; [exact H|].
  rewrite calls_cons; cbn [snd].
  destruct (within_window_cons _ _ _ _ Hw) as [(Hord & Hlo & Hhi) Hrest].
  unfold ordered in Hord.
  apply IH; [exact Hrest|]. apply in_span_waitIfNeeded; [lia | exact H].
Qed.

(** Calls inside the span, on a window made inside it: as many are let
    through as the window has room for. *)
Lemma calls_in_span lo times :
  forall l,
    within_window lo l times ->
    Forall (fun req => lo <= req) (requests l) ->
    permitted (fst (calls times l))
    = Z.max 0
        (Z.min (Z.of_nat (List.length times))
           (maxRequestsPerMinute (config l)
            - Z.of_nat (List.length (requests l)))).
Proof.
  induction times as [|at_ times IH]; intros l Hw H.
  - cbn. unfold permitted; cbn. lia.
  - rewrite calls_cons; cbn [fst]. rewrite permitted_cons.
    destruct (within_window_cons _ _ _ _ Hw) as [(Hord & Hlo & Hhi) Hrest].
    unfold ordered in Hord.
    assert (Hin : Forall (fun req => lo <= req)
                    (requests (snd (waitIfNeeded at_ l))))
      by (apply in_span_waitIfNeeded; [lia | exact H]).
    rewrite (IH _ Hrest Hin), config_waitIfNeeded.
    assert (Hclean : cleanOldRequests (cleaned_at at_) l = l)
      by (apply (in_span_clean lo); [lia | exact H]).
    cbn [List.length].
    destruct (waitIfNeeded_cases at_ l) as [(Hfull & _ & E)|(Hroom & _ & E)];
      rewrite E; rewrite Hclean in *; cbn [fst snd is_immediate].
    + lia.
    + cbn [requests with_requests]. rewrite length_app. cbn [List.length].
      lia.
Qed.

(** The timer of [wait] never fires before [ms] has passed, and the
    jitter adds less than a tenth of [ms] and less than five seconds. *)
Lemma wait_bounds l ms random :
  0 <= ms -> (0 <= random)%Q -> (random < 1)%Q ->
  (inject_Z ms <= wait l ms random)%Q
  /\ (wait l ms random
      <= inject_Z ms + Qmin (inject_Z ms * (1 # 10)) (inject_Z 5000))%Q.
Proof.
  intros Hms H0 H1. unfold wait.
  assert (Hq : (0 <= inject_Z ms)%Q) by (unfold Qle; cbn; lia).
  set (x := inject_Z ms) in *.
  assert (Hm : (0 <= Qmin (x * (1 # 10)) (inject_Z 5000))%Q).
  { destruct (Q.min_spec (x * (1 # 10)) (inject_Z 5000)) as [[_ E]|[_ E]];
      rewrite E; [lra | discriminate]. }
  set (m := Qmin (x * (1 # 10)) (inject_Z 5000)) in *.
  assert (Hj : (0 <= random * m)%Q) by (apply Qmult_le_0_compat; assumption).
  assert (Hk : (random * m <= m)%Q).
  { setoid_replace m with (1 * m)%Q at 2 by ring.
    apply Qmult_le_compat_r; [apply Qlt_le_weak; exact H1 | exact Hm]. }
  clearbody m x.
  destruct (jitter (config l) && (1000 <? ms)).
  - destruct (Q.max_spec 0 (x + random * m)) as [[L E]|[L E]];
      rewrite E; split; lra.
  - destruct (Q.max_spec 0 x) as [[L E]|[L E]]; rewrite E; split; lra.
Qed.

(** The computed wait time of a window made inside the span, read inside
    the span, is positive. *)
Lemma computed_wait_in_span lo now l :
  lo <= now < lo + windowMs (config l) ->
  Forall (fun req => lo <= req) (requests l) ->
  0 < computed_wait now l.
Proof.
  intros Hnow H. unfold computed_wait.
  destruct (requests l) as [|oldest rest]; [lia|].
  inversion H; subst. lia.
Qed.

(** A call made in the span after [maxRequestsPerMinute] calls of the
    span have been let through finds the status [limited], whatever the
    window held before the span. *)
Lemma calls_beyond_limit lo l pre at_ :
  within_window lo l (pre ++ [at_]) ->
  maxRequestsPerMinute (config l) <= permitted (fst (calls pre l)) ->
  current (fst (getStatus (cleaned_at at_) (status_at at_)
                  (snd (calls pre l))))
  = limited.
Proof.
  intros Hw Hmax.
  assert (Hpre : within_window lo l pre).
  { intros t Ht. apply Hw, in_or_app. left; exact Ht. }
  assert (Hat : In at_ (pre ++ [at_]))
    by (apply in_or_app; right; left; reflexivity).
  destruct (Hw at_ Hat) as (Hord & Hlo & Hhi).
  unfold ordered in Hord.
  destruct (calls_since lo pre l Hpre) as [Hs _].
  set (before := snd (calls pre l)) in *.
  apply limited_iff.
  pose proof (since_le_length lo (cleanOldRequests (cleaned_at at_) before))
    as Hle.
  rewrite since_clean in Hle
    by (unfold before; rewrite config_calls; lia).
  assert (0 <= since lo l) by (unfold since; lia).
  unfold before at 1. rewrite config_calls. lia.
Qed.



(** A call that finds the window exhausted leaves it as cleaning left it:
    nothing is appended. *)
Lemma waitIfNeeded_limited_requests at_ l :
  current (fst (getStatus (cleaned_at at_) (status_at at_) l)) = limited ->
  requests (snd (waitIfNeeded at_ l))
  = filter (fun req => cleaned_at at_ - windowMs (config l) <? req)
      (requests l).
Proof.
  intros H. rewrite (waitIfNeeded_limited _ _ H). reflexivity.
Qed.

(** C3, on the code.  With the default configuration and a window that
    holds its eighty requests, made at the clock values 1 to 80, a call at
    clock value 100 sleeps for 59901 ms and leaves the window as it was:
    the request it delayed is not registered. *)
Theorem waitIfNeeded_exhausted_does_not_register :
  let l := with_requests (create empty_config) (map Z.of_nat (seq 1 80)) in
  current (fst (getStatus 100 100 l)) = limited
  /\ waitIfNeeded (at_once 100) l = (Delayed 59901, l)
  /\ ~ In 100 (requests (snd (waitIfNeeded (at_once 100) l))).
Proof.
  cbv zeta. split; [vm_compute; reflexivity|].
  split; [vm_compute; reflexivity|].
  vm_compute. intros H.
  repeat (destruct H as [H|H]; [discriminate H|]). exact H.
Qed.

End RateLimiterFacts.

(** ** The circuit breaker *)

Module CircuitBreakerFacts.
Import CircuitBreaker.

Lemma state_cleanOldMetrics b : state (cleanOldMetrics b) = state b.
Proof. unfold cleanOldMetrics. destruct (_ <? _); reflexivity. Qed.

Lemma config_cleanOldMetrics b : config (cleanOldMetrics b) = config b.
Proof. unfold cleanOldMetrics. destruct (_ <? _); reflexivity. Qed.

(** A failure below the threshold, in a closed breaker that has seen at
    most a thousand requests, is only counted. *)
Lemma onFailure_closed_below now b :
  state b = CLOSED ->
  failures b + 1 < failureThreshold (config b) ->
  requests b + 1 <= 1000 ->
  onFailure now b
  = mk CLOSED (failures b + 1) (successes b) (requests b + 1) now
       (stateChangedAt b) (config b).
Proof.
  intros Hs Hf Hr. unfold onFailure; cbn. rewrite Hs.
  destruct (Z.leb_spec (failureThreshold (config b)) (failures b + 1));
    [lia|].
  unfold cleanOldMetrics; cbn.
  destruct (Z.ltb_spec 1000 (requests b + 1)); [lia | reflexivity].
Qed.

(** The failure that reaches the threshold opens a closed breaker. *)
Lemma onFailure_closed_reaches now b :
  state b = CLOSED ->
  failureThreshold (config b) <= failures b + 1 ->
  state (onFailure now b) = OPEN.
Proof.
  intros Hs Hf. unfold onFailure; cbn. rewrite Hs.
  destruct (Z.leb_spec (failureThreshold (config b)) (failures b + 1));
    [|lia].
  rewrite state_cleanOldMetrics. reflexivity.
Qed.

Lemma onFailure_half_open now b :
  state b = HALF_OPEN -> state (onFailure now b) = OPEN.
Proof.
  intros Hs. unfold onFailure; cbn. rewrite Hs.
  rewrite state_cleanOldMetrics. reflexivity.
Qed.

Lemma onSuccess_half_open now b :
  state b = HALF_OPEN ->
  onSuccess now b
  = mk CLOSED 0 0 0 (lastFailureTime b) now (config b).
Proof. intros Hs. unfold onSuccess; cbn. rewrite Hs. reflexivity. Qed.

Lemma execute_enter_not_open now b :
  state b <> OPEN -> execute_enter now b = inr b.
Proof. unfold execute_enter. destruct (state b); congruence. Qed.

(** A failure that leaves a closed breaker below its threshold leaves it
    closed. *)
Lemma onFailure_closed_stays now b :
  state b = CLOSED ->
  0 <= failures b ->
  failures b + 1 < failureThreshold (config b) ->
  state (onFailure now b) = CLOSED
  /\ 0 <= failures (onFailure now b) <= failures b + 1
  /\ config (onFailure now b) = config b.
Proof.
  intros Hs H0 Hf. unfold onFailure; cbn. rewrite Hs.
  destruct (Z.leb_spec (failureThreshold (config b)) (failures b + 1));
    [lia|].
  unfold cleanOldMetrics; cbn.
  destruct (1000 <? requests b + 1); cbn; repeat split; lia.
Qed.

(** A success leaves a closed breaker closed and its failures no higher. *)
Lemma onSuccess_closed_stays now b :
  state b = CLOSED ->
  0 <= failures b ->
  state (onSuccess now b) = CLOSED
  /\ 0 <= failures (onSuccess now b) <= failures b
  /\ config (onSuccess now b) = config b.
Proof.
  intros Hs H0. unfold onSuccess; cbn. rewrite Hs.
  unfold cleanOldMetrics; cbn.
  destruct (1000 <? requests b + 1); cbn; repeat split; lia.
Qed.

Section Execute.
Context {Env T : Type} (clock : Env -> Z).

Lemma execute_closed_failure (operation : Operation (T := T)) b env :
  state b <> OPEN ->
  fails operation ->
  execute clock operation b env
  = (fst (operation env),
     onFailure (clock (snd (operation env))) b,
     snd (operation env)).
Proof.
  intros Hs Hf. unfold execute.
  rewrite (execute_enter_not_open _ _ Hs).
  destruct (Hf env) as [e He].
  destruct (operation env) as [r env1]; cbn in *. subst r. reflexivity.
Qed.

(** Consecutive failures in a closed breaker whose counters agree:
    the one that reaches the threshold opens it. *)
Lemma execute_all_failures (operations : list (Operation (T := T))) :
  forall b env,
    Forall fails operations ->
    state b = CLOSED ->
    requests b = failures b ->
    (0 < List.length operations)%nat ->
    failures b + Z.of_nat (List.length operations)
    = failureThreshold (config b) ->
    failureThreshold (config b) <= 1001 ->
    state (fst (execute_all clock operations b env)) = OPEN.
Proof.
  induction operations as [|operation rest IH];
    intros b env Hall Hs Hr Hlen Hsum Hmax; [cbn in Hlen; lia|].
  inversion Hall as [|? ? Hop Hrest]; subst.
  cbn [execute_all].
  rewrite execute_closed_failure by (congruence || assumption).
  set (now := clock (snd (operation env))).
  set (env1 := snd (operation env)).
  cbn [List.length] in Hsum.
  destruct rest as [|next rest'].
  - cbn. apply onFailure_closed_reaches; [exact Hs | cbn in Hsum; lia].
  - rewrite onFailure_closed_below
      by (try exact Hs; cbn [List.length] in Hsum; lia).
    apply IH; cbn [state failures requests config List.length] in *;
      try assumption; try reflexivity; lia.
Qed.

End Execute.

Lemma refused_fails : fails refused.
Proof. intros env. eexists. reflexivity. Qed.

Lemma Forall_repeat {A} (P : A -> Prop) (x : A) (n : nat) :
  P x -> Forall P (repeat x n).
Proof. intros H. induction n; cbn; constructor; assumption. Qed.



End CircuitBreakerFacts.

(** ** The delivery service *)

Module WhatsAppServiceFacts.
Import WhatsAppService.

Lemma handleApiError_unlisted response :
  ~ In (Downstream.status response) [401; 429; 400; 500; 502; 503; 504] ->
  handleApiError response
  = ServiceError
      (WhatsAppServiceError
         ("API error: " ++ JS.show (Downstream.status response) ++ " "
          ++ Downstream.text response)%string
         UNKNOWN_ERROR None (Some (Downstream.status response)) None None).
Proof.
  intros H. unfold handleApiError.
  destruct (Downstream.status response) as [|p|p] eqn:E; try reflexivity.
  assert (Hp : ~ In (Z.pos p) [401; 429; 400; 500; 502; 503; 504])
    by exact H.
  clear H E.
  repeat (destruct p as [p|p|]; try reflexivity).
  all: exfalso; apply Hp; cbn; tauto.
Qed.



(** *** Validation comes first *)

Lemma length_nonneg str : 0 <= JS.length str.
Proof.
  induction str as [|c str IH]; cbn; [lia|].
  unfold JS.utf16_units. repeat destruct (_ <? _); lia.
Qed.

(** Whatever [validateInputs] throws is a [WhatsAppValidationError]. *)
Lemma validateInputs_throws phone text e :
  validateInputs phone text = inl e ->
  exists m, e = ServiceError (WhatsAppValidationError m None None).
Proof.
  unfold validateInputs.
  repeat (destruct (_ : bool);
          [intros [= <-]; eexists; reflexivity|]).
  discriminate.
Qed.

Lemma validateInputs_violates phone text :
  violates phone text <-> exists e, validateInputs phone text = inl e.
Proof.
  unfold violates, validateInputs. split.
  - intros H.
    destruct (JS.truthy phone) eqn:Hp; cbn [negb]; [|eexists; reflexivity].
    destruct (JS.startsWith phone "+") eqn:Hs; cbn [negb];
      [|eexists; reflexivity].
    destruct (Z.ltb_spec (JS.length phone) 10); cbn [orb];
      [eexists; reflexivity|].
    destruct (Z.ltb_spec 16 (JS.length phone)); cbn [orb];
      [eexists; reflexivity|].
    destruct (JS.truthy text) eqn:Ht; cbn [negb]; [|eexists; reflexivity].
    destruct (Z.ltb_spec 4096 (JS.length text)); [eexists; reflexivity|].
    exfalso.
    destruct H as [->|[H|[H|[H|[->|H]]]]];
      try discriminate; try congruence; lia.
  - intros [e He].
    destruct phone as [|c phone]; [left; reflexivity|]. cbn [JS.truthy negb] in He.
    destruct (JS.startsWith (String c phone) "+") eqn:Hs; [|tauto].
    cbn [negb] in He.
    destruct (Z.ltb_spec (JS.length (String c phone)) 10); [tauto|].
    destruct (Z.ltb_spec 16 (JS.length (String c phone))); [tauto|].
    cbn [orb] in He.
    destruct text as [|c' text]; [tauto|]. cbn [JS.truthy negb] in He.
    destruct (Z.ltb_spec 4096 (JS.length (String c' text))); [tauto|].
    discriminate.
Qed.

Lemma type_validation m dealId recipient :
  WhatsAppError.type (WhatsAppValidationError m dealId recipient)
  = VALIDATION_ERROR.
Proof. reflexivity. Qed.

(** A call that is turned down before the limiter settles at once, with a
    validation error, and leaves the service as it was. *)
Lemma sendMessage_start_settled now c s settled s1 :
  sendMessage_start now c s = (inl settled, s1) ->
  s1 = s
  /\ exists e, settled = inr (failed c e)
               /\ WhatsAppError.type e = VALIDATION_ERROR
               /\ (enabled s = false \/ violates (phoneNumber c) (message c)).
Proof.
  unfold sendMessage_start. fold (enabled s).
  destruct (enabled s) eqn:He; cbn [negb].
  - destruct (validateInputs (phoneNumber c) (message c)) as [e|[]] eqn:Hv.
    + intros [= <- <-]. split; [reflexivity|].
      destruct (validateInputs_throws _ _ _ Hv) as [m ->].
      eexists; split; [reflexivity|]. split; [reflexivity|].
      right. apply validateInputs_violates. eexists; exact Hv.
    + destruct (RateLimiter.waitIfNeeded (RateLimiter.at_once now) (rateLimiter s)).
      discriminate.
  - intros [= <- <-]. split; [reflexivity|].
    eexists; split; [reflexivity|]. split; [reflexivity|]. left; reflexivity.
Qed.

Lemma sendMessage_start_violates now c s :
  violates (phoneNumber c) (message c) ->
  exists e, sendMessage_start now c s = (inl (inr (failed c e)), s)
            /\ WhatsAppError.type e = VALIDATION_ERROR.
Proof.
  intros Hv. apply validateInputs_violates in Hv. destruct Hv as [e He].
  unfold sendMessage_start.
  destruct (negb _).
  - eexists; split; reflexivity.
  - rewrite He. destruct (validateInputs_throws _ _ _ He) as [m ->].
    eexists; split; reflexivity.
Qed.

(** C6, as the code has it.  A call of [sendMessage] whose recipient is
    empty, lacks the leading [+] or has fewer than 10 or more than 16
    characters, or whose text is empty or longer than 4096 characters,
    returns a failure with a validation error whatever the clock and the
    downstream, and leaves the service as it was: nothing is handed to
    [fetch], and neither the limiter nor the breaker is touched.  (That
    the characters after the [+] are digits is not checked.) *)
Theorem sendMessage_validates_before_network :
  forall (clock : Clock) (c : Call) (d : Downstream.t) (s : t),
    violates (phoneNumber c) (message c) ->
    exists e,
      sendMessage clock c d s = (inr (failed c e), s)
      /\ WhatsAppError.type e = VALIDATION_ERROR
      /\ fetched (snd (sendMessage clock c d s)) = fetched s.
Proof.
  intros clock c d s Hv.
  destruct (sendMessage_start_violates (at_call clock) c s Hv)
    as (e & Hstart & Htype).
  exists e. unfold sendMessage. rewrite Hstart.
  split; [reflexivity | split; [exact Htype | reflexivity]].
Qed.

Lemma sendMessage_validates_before_network_witness :
  violates "919876543210" "Deal registered"
  /\ exists e,
       sendMessage (mkClock 0 1 2)
         (mkCall "919876543210" "Deal registered" None None)
         (Samples.accepted "wamid.1") Samples.service
       = (inr (failed (mkCall "919876543210" "Deal registered" None None) e),
          Samples.service)
       /\ WhatsAppError.type e = VALIDATION_ERROR
       /\ fetched
            (snd (sendMessage (mkClock 0 1 2)
                    (mkCall "919876543210" "Deal registered" None None)
                    (Samples.accepted "wamid.1") Samples.service))
          = fetched Samples.service.
Proof.
  assert (H : violates "919876543210" "Deal registered")
    by (right; left; reflexivity).
  split; [exact H|].
  exact (sendMessage_validates_before_network (mkClock 0 1 2)
           (mkCall "919876543210" "Deal registered" None None)
           (Samples.accepted "wamid.1") Samples.service H).
Defined.

(** C6, counterexample.  A recipient whose [+] is followed by letters is
    not a [+] followed by 10 to 15 digits, yet the call goes through to
    the downstream. *)
Lemma sendMessage_accepts_letters :
  let c := mkCall "+12345abcde" "Deal registered" None None in
  let out := sendMessage (mkClock 0 1 2) c (Samples.accepted "wamid.1")
               Samples.service in
  fst out
  = inr (SendMessageResult.mk true (Some "whatsapp-2") (Some "wamid.1") None
           "+12345abcde" accounts)
  /\ fetched (snd out)
     = [request_of Samples.config "+12345abcde" "Deal registered"].
Proof. cbv zeta. split; vm_compute; reflexivity. Qed.

(** *** The segments of [sendMessage] *)

Lemma RecipientRole_eqb_spec a b : reflect (a = b) (RecipientRole_eqb a b).
Proof. destruct a, b; constructor; congruence. Qed.

Lemma RecipientRole_eqb_refl a : RecipientRole_eqb a a = true.
Proof. destruct a; reflexivity. Qed.

Lemma get_set_same {A} r (x : A) m : PerRole.get r (PerRole.set r x m) = x.
Proof. destruct r; reflexivity. Qed.

Lemma get_set_other {A} r r' (x : A) m :
  r <> r' -> PerRole.get r' (PerRole.set r x m) = PerRole.get r' m.
Proof. destruct r, r'; congruence || reflexivity. Qed.

Lemma sendMessage_catch_failed c e :
  sendMessage_catch c e
  = inr (failed c (handleError e (dealId c) (Some (phoneNumber c)))).
Proof. reflexivity. Qed.

(** The last segment settles as [settlement] says, whatever the service,
    and tells the breaker. *)
Lemma sendMessage_complete_eq now c d s :
  sendMessage_complete now c d s
  = (settlement now c d,
     with_circuitBreaker s
       (CircuitBreaker.execute_settle now (makeApiCall_response d)
          (circuitBreaker s))).
Proof.
  unfold sendMessage_complete, settlement, received.
  destruct (makeApiCall_response d) as [e|body]; [reflexivity|].
  destruct (read_messages body); reflexivity.
Qed.

Lemma settlement_fulfilled now c d :
  exists result,
    settlement now c d = inr result
    /\ SendMessageResult.role result = role_or_accounts c
    /\ SendMessageResult.recipient result = phoneNumber c
    /\ SendMessageResult.success result
       = match received d with inr _ => true | inl _ => false end.
Proof.
  unfold settlement. destruct (received d).
  - eexists; repeat split; reflexivity.
  - eexists; repeat split; reflexivity.
Qed.

(** The middle segment, when the breaker lets the call through. *)
Lemma sendMessage_dispatch_entered now c d s b :
  CircuitBreaker.execute_enter now (circuitBreaker s) = inr b ->
  sendMessage_dispatch now c d s
  = match simulated d with
    | inl e =>
        (inl (sendMessage_catch c e),
         with_circuitBreaker s (CircuitBreaker.onFailure now b))
    | inr _ =>
        (inr tt,
         with_fetch (with_circuitBreaker s b)
           (request_of (config s) (phoneNumber c) (message c)))
    end.
Proof.
  intros H. unfold sendMessage_dispatch, makeApiCall_request. rewrite H.
  destruct (simulated d); reflexivity.
Qed.

(** The middle segment, when the breaker refuses the call. *)
Lemma sendMessage_dispatch_refused now c d s e :
  CircuitBreaker.execute_enter now (circuitBreaker s) = inl e ->
  sendMessage_dispatch now c d s = (inl (sendMessage_catch c e), s).
Proof. intros H. unfold sendMessage_dispatch. rewrite H. reflexivity. Qed.

Lemma sendMessage_dispatch_settled now c d s settled s1 :
  sendMessage_dispatch now c d s = (inl settled, s1) ->
  exists e, settled = sendMessage_catch c e.
Proof.
  destruct (CircuitBreaker.execute_enter now (circuitBreaker s)) as [e|b] eqn:H.
  - erewrite sendMessage_dispatch_refused by exact H.
    intros [= <- <-]. eexists; reflexivity.
  - erewrite sendMessage_dispatch_entered by exact H.
    destruct (simulated d); [|discriminate].
    intros [= <- <-]. eexists; reflexivity.
Qed.

(** The two segments after the limiter are [circuitBreaker.execute] run on
    [makeApiCall], its outcome put through the [return] or the [catch] of
    [sendMessage]. *)
Lemma sendMessage_through_execute clock c d s :
  (match sendMessage_dispatch (after_limiter clock) c d s with
   | (inl settled, s1) => (settled, s1)
   | (inr _, s1) => sendMessage_complete (after_fetch clock) c d s1
   end)
  = (let '(r, b, env) :=
       CircuitBreaker.execute snd (api_operation c d (after_fetch clock))
         (circuitBreaker s) (s, after_limiter clock) in
     (match r with
      | inl e => sendMessage_catch c e
      | inr body =>
          match read_messages body with
          | inl e => sendMessage_catch c e
          | inr response => inr (sent (after_fetch clock) c response)
          end
      end,
      with_circuitBreaker (fst env) b)).
Proof.
  unfold CircuitBreaker.execute. cbn [snd fst].
  destruct (CircuitBreaker.execute_enter (after_limiter clock)
              (circuitBreaker s)) as [e|b] eqn:Hb.
  - erewrite sendMessage_dispatch_refused by exact Hb.
    destruct s; reflexivity.
  - erewrite sendMessage_dispatch_entered by exact Hb.
    unfold api_operation, makeApiCall_request. cbn [fst snd].
    destruct (simulated d) as [e|u].
    + reflexivity.
    + rewrite sendMessage_complete_eq. unfold settlement, received.
      destruct (makeApiCall_response d); reflexivity.
Qed.

(** *** One turn of a callback *)

Lemma callback_resume_results deal now r d task sh :
  results (snd (callback_resume deal now r d task sh))
  = results sh ++ pushed deal r task.
Proof.
  destruct task as [c w|c|c [e|result]|]; cbn [callback_resume pushed].
  - destruct (sendMessage_dispatch now c d (service sh)) as [[settled|[]] s1];
      cbn; rewrite app_nil_r; reflexivity.
  - destruct (sendMessage_complete now c d (service sh)) as [settled s1];
      cbn; rewrite app_nil_r; reflexivity.
  - reflexivity.
  - reflexivity.
  - cbn. rewrite app_nil_r. reflexivity.
Qed.

Lemma callback_resume_finished deal now r d task sh :
  is_finished (fst (callback_resume deal now r d task sh))
  = negb (in_flight task).
Proof.
  destruct task as [c w|c|c [e|result]|]; cbn [callback_resume in_flight negb];
    try reflexivity.
  - destruct (sendMessage_dispatch now c d (service sh)) as [[settled|[]] s1];
      reflexivity.
  - destruct (sendMessage_complete now c d (service sh)) as [settled s1];
      reflexivity.
Qed.

Lemma callback_resume_rank deal now r d task sh :
  (rank (fst (callback_resume deal now r d task sh)) <= pred (rank task))%nat.
Proof.
  destruct task as [c w|c|c [e|result]|]; cbn [callback_resume];
    try (cbn; lia).
  - destruct (sendMessage_dispatch now c d (service sh)) as [[settled|[]] s1];
      cbn; lia.
  - destruct (sendMessage_complete now c d (service sh)) as [settled s1];
      cbn; lia.
Qed.

Lemma callback_resume_for_role deal now r d task sh :
  for_role r task ->
  for_role r (fst (callback_resume deal now r d task sh)).
Proof.
  destruct task as [c w|c|c [e|result]|]; cbn [callback_resume for_role];
    try (intros; exact I).
  - intros Hr.
    destruct (sendMessage_dispatch now c d (service sh)) as [[settled|[]] s1]
      eqn:Hd; cbn [fst for_role]; [|exact Hr].
    destruct (sendMessage_dispatch_settled _ _ _ _ _ _ Hd) as [e ->].
    cbn. unfold role_or_accounts. rewrite Hr. reflexivity.
  - intros Hr. rewrite sendMessage_complete_eq. cbn [fst for_role].
    destruct (settlement_fulfilled now c d) as (result & -> & Hrole & _).
    rewrite Hrole. unfold role_or_accounts. rewrite Hr. reflexivity.
Qed.

Lemma pushed_role deal r task result :
  for_role r task ->
  In result (pushed deal r task) ->
  SendMessageResult.role result = r.
Proof.
  destruct task as [c w|c|c [e|res]|]; cbn; try tauto.
  - intros _ [<-|[]]. reflexivity.
  - intros Hr [<-|[]]. exact Hr.
Qed.

Lemma pushed_length deal r task :
  List.length (pushed deal r task)
  = if in_flight task || is_finished task then 0%nat else 1%nat.
Proof. destruct task as [c w|c|c [e|res]|]; reflexivity. Qed.

(** *** A run under a schedule *)

Lemma resume_eq deal downstream run r now :
  resume deal downstream run (r, now)
  = mkRun
      (snd (callback_resume deal now r (downstream r)
              (PerRole.get r (tasks run)) (shared run)))
      (PerRole.set r
         (fst (callback_resume deal now r (downstream r)
                 (PerRole.get r (tasks run)) (shared run)))
         (tasks run)).
Proof.
  unfold resume.
  destruct (callback_resume deal now r (downstream r)
              (PerRole.get r (tasks run)) (shared run)).
  reflexivity.
Qed.

Lemma run_schedule_cons deal downstream turn schedule run :
  run_schedule deal downstream (turn :: schedule) run
  = run_schedule deal downstream schedule (resume deal downstream run turn).
Proof. reflexivity. Qed.

(** A property that every turn keeps holds at the end of every schedule. *)
Lemma run_schedule_invariant deal downstream (P : Run -> Prop) :
  (forall run turn, P run -> P (resume deal downstream run turn)) ->
  forall schedule run,
    P run -> P (run_schedule deal downstream schedule run).
Proof.
  intros Hstep schedule.
  induction schedule as [|turn schedule IH]; intros run H; [exact H|].
  rewrite run_schedule_cons. apply IH, Hstep, H.
Qed.

Lemma turns_cons r r0 now schedule :
  turns r ((r0, now) :: schedule)
  = ((if RecipientRole_eqb r0 r then 1 else 0) + turns r schedule)%nat.
Proof.
  unfold turns; cbn. destruct (RecipientRole_eqb r0 r); reflexivity.
Qed.

(** Every turn of a role brings its callback one [await] closer to the
    end. *)
Lemma run_schedule_rank deal downstream schedule :
  forall run r,
    (rank (PerRole.get r (tasks (run_schedule deal downstream schedule run)))
     <= rank (PerRole.get r (tasks run)) - turns r schedule)%nat.
Proof.
  induction schedule as [|[r0 now] schedule IH]; intros run r.
  - cbn. lia.
  - rewrite run_schedule_cons, turns_cons.
    specialize (IH (resume deal downstream run (r0, now)) r).
    rewrite resume_eq in IH at 2. cbn [tasks] in IH.
    destruct (RecipientRole_eqb_spec r0 r) as [->|Hne].
    + rewrite get_set_same in IH.
      pose proof (callback_resume_rank deal now r (downstream r)
                    (PerRole.get r (tasks run)) (shared run)).
      lia.
    + rewrite get_set_other in IH by exact Hne. lia.
Qed.

Lemma rank_le_3 task : (rank task <= 3)%nat.
Proof. destruct task; cbn; lia. Qed.

Lemma rank_0_finished task : rank task = 0%nat -> is_finished task = true.
Proof. destruct task; cbn; congruence. Qed.

(** Under a fair schedule every callback finishes. *)
Lemma fair_all_settled deal downstream schedule run :
  fair schedule ->
  all_settled (run_schedule deal downstream schedule run) = true.
Proof.
  intros Hfair. unfold all_settled, PerRole.roles. cbn [forallb].
  assert (H : forall r,
             is_finished
               (PerRole.get r
                  (tasks (run_schedule deal downstream schedule run)))
             = true).
  { intros r. apply rank_0_finished.
    pose proof (run_schedule_rank deal downstream schedule run r).
    pose proof (rank_le_3 (PerRole.get r (tasks run))).
    specialize (Hfair r). lia. }
  rewrite !H. reflexivity.
Qed.

Lemma results_of_app r xs ys :
  results_of r (xs ++ ys) = results_of r xs ++ results_of r ys.
Proof. apply filter_app. Qed.

Lemma results_of_same r xs :
  (forall x, In x xs -> SendMessageResult.role x = r) ->
  results_of r xs = xs.
Proof.
  intros H. unfold results_of.
  induction xs as [|x xs IH]; [reflexivity|]. cbn.
  rewrite (H x) by (left; reflexivity). rewrite RecipientRole_eqb_refl.
  rewrite IH; [reflexivity|]. intros y Hy. apply H. right; exact Hy.
Qed.

Lemma results_of_other r r' xs :
  r <> r' ->
  (forall x, In x xs -> SendMessageResult.role x = r) ->
  results_of r' xs = [].
Proof.
  intros Hne H. unfold results_of.
  induction xs as [|x xs IH]; [reflexivity|]. cbn.
  rewrite (H x) by (left; reflexivity).
  destruct (RecipientRole_eqb_spec r r'); [contradiction|].
  apply IH. intros y Hy. apply H. right; exact Hy.
Qed.

(** A turn keeps the bookkeeping of roles and results. *)
Lemma tracked_resume deal downstream run turn :
  tracked run -> tracked (resume deal downstream run turn).
Proof.
  intros H r'. destruct turn as [r now]. rewrite resume_eq.
  cbn [tasks shared]. rewrite callback_resume_results, results_of_app.
  rewrite length_app.
  destruct (H r) as [Hrole Hcount].
  pose proof (pushed_role deal r (PerRole.get r (tasks run))) as Hpushed.
  destruct (RecipientRole_eqb_spec r r') as [<-|Hne].
  - rewrite get_set_same. split; [apply callback_resume_for_role, Hrole|].
    rewrite callback_resume_finished, Hcount.
    rewrite (results_of_same r (pushed deal r (PerRole.get r (tasks run))))
      by (intros x Hx; apply Hpushed; assumption).
    rewrite pushed_length.
    destruct (PerRole.get r (tasks run)) as [c w|c|c [e|res]|]; reflexivity.
  - rewrite get_set_other by exact Hne.
    destruct (H r') as [Hrole' Hcount'].
    split; [exact Hrole'|].
    rewrite (results_of_other r r' (pushed deal r (PerRole.get r (tasks run)))
               Hne)
      by (intros x Hx; apply Hpushed; assumption).
    cbn [List.length]. rewrite Nat.add_0_r. exact Hcount'.
Qed.

(** The callback up to its first [await]: it works for its role, and
    it has pushed a result, for its role, exactly if it has already
    finished. *)
Lemma callback_start_spec generateMessage deal now r phone sh :
  let out := callback_start generateMessage deal now r phone sh in
  for_role r (fst out)
  /\ exists extra,
       results (snd out) = results sh ++ extra
       /\ (forall x, In x extra -> SendMessageResult.role x = r)
       /\ List.length extra
          = if is_finished (fst out) then 1%nat else 0%nat.
Proof.
  unfold callback_start.
  destruct (generateMessage r deal) as [e|text].
  - cbn. split; [exact I|]. eexists; split; [reflexivity|].
    split; [|reflexivity]. intros x [<-|[]]. reflexivity.
  - destruct (sendMessage_start now
                (mkCall phone text (Some (DealData.id deal)) (Some r))
                (service sh)) as [[settled|w] s1] eqn:Hs; cbn.
    + apply sendMessage_start_settled in Hs. destruct Hs as (_ & e & -> & _).
      split; [reflexivity|].
      exists []. rewrite app_nil_r. repeat split. intros x [].
    + split; [reflexivity|].
      exists []. rewrite app_nil_r. repeat split. intros x [].
Qed.

Lemma tracked_start generateMessage deal now s :
  tracked (start_all generateMessage deal now s).
Proof.
  unfold start_all.
  set (recipients := WhatsAppConfig.recipients (config s)).
  pose proof (callback_start_spec generateMessage deal now accounts
                (PerRole.of_accounts recipients) (mkShared s [] [])) as H1.
  destruct (callback_start generateMessage deal now accounts
              (PerRole.of_accounts recipients) (mkShared s [] []))
    as [ta sh1].
  pose proof (callback_start_spec generateMessage deal now logistics
                (PerRole.of_logistics recipients) sh1) as H2.
  destruct (callback_start generateMessage deal now logistics
              (PerRole.of_logistics recipients) sh1) as [tl sh2].
  pose proof (callback_start_spec generateMessage deal now boss1
                (PerRole.of_boss1 recipients) sh2) as H3.
  destruct (callback_start generateMessage deal now boss1
              (PerRole.of_boss1 recipients) sh2) as [tb sh3].
  pose proof (callback_start_spec generateMessage deal now bossog
                (PerRole.of_bossog recipients) sh3) as H4.
  destruct (callback_start generateMessage deal now bossog
              (PerRole.of_bossog recipients) sh3) as [to sh4].
  cbn [fst snd] in H1, H2, H3, H4.
  destruct H1 as (R1 & x1 & E1 & O1 & L1).
  destruct H2 as (R2 & x2 & E2 & O2 & L2).
  destruct H3 as (R3 & x3 & E3 & O3 & L3).
  destruct H4 as (R4 & x4 & E4 & O4 & L4).
  cbn [results] in E1.
  intros r. cbn [tasks shared].
  rewrite E4, E3, E2, E1. cbn [app].
  rewrite !results_of_app, !length_app.
  destruct r; cbn [PerRole.get PerRole.of_accounts PerRole.of_logistics
                     PerRole.of_boss1 PerRole.of_bossog];
    (split; [assumption|]).
  - rewrite (results_of_same accounts x1 O1).
    rewrite (results_of_other logistics accounts x2) by (congruence || exact O2).
    rewrite (results_of_other boss1 accounts x3) by (congruence || exact O3).
    rewrite (results_of_other bossog accounts x4) by (congruence || exact O4).
    cbn [List.length]. lia.
  - rewrite (results_of_other accounts logistics x1) by (congruence || exact O1).
    rewrite (results_of_same logistics x2 O2).
    rewrite (results_of_other boss1 logistics x3) by (congruence || exact O3).
    rewrite (results_of_other bossog logistics x4) by (congruence || exact O4).
    cbn [List.length]. lia.
  - rewrite (results_of_other accounts boss1 x1) by (congruence || exact O1).
    rewrite (results_of_other logistics boss1 x2) by (congruence || exact O2).
    rewrite (results_of_same boss1 x3 O3).
    rewrite (results_of_other bossog boss1 x4) by (congruence || exact O4).
    cbn [List.length]. lia.
  - rewrite (results_of_other accounts bossog x1) by (congruence || exact O1).
    rewrite (results_of_other logistics bossog x2) by (congruence || exact O2).
    rewrite (results_of_other boss1 bossog x3) by (congruence || exact O3).
    rewrite (results_of_same bossog x4 O4).
    cbn [List.length]. lia.
Qed.

(** *** [sendMessage] always returns *)

Lemma sendMessage_start_passed now c s w s1 :
  sendMessage_start now c s = (inr w, s1) ->
  enabled s = true
  /\ ~ violates (phoneNumber c) (message c)
  /\ s1 = with_rateLimiter s
            (snd (RateLimiter.waitIfNeeded (RateLimiter.at_once now) (rateLimiter s)))
  /\ w = fst (RateLimiter.waitIfNeeded (RateLimiter.at_once now) (rateLimiter s)).
Proof.
  unfold sendMessage_start. fold (enabled s).
  destruct (enabled s); cbn [negb]; [|discriminate].
  destruct (validateInputs (phoneNumber c) (message c)) as [e|[]] eqn:Hv;
    [discriminate|].
  destruct (RateLimiter.waitIfNeeded (RateLimiter.at_once now) (rateLimiter s)) as [w' l].
  intros [= <- <-]. repeat split.
  intros Hviol. apply validateInputs_violates in Hviol.
  destruct Hviol as [e He]. congruence.
Qed.

Lemma received_response d response :
  received d = inr response <->
  exists r,
    Downstream.answer d = Downstream.Responds r
    /\ Downstream.ok r = true
    /\ Downstream.json r = inr (Downstream.Messages response).
Proof.
  unfold received, makeApiCall_response.
  destruct (Downstream.answer d) as [message|r].
  { split; [discriminate|]. intros (r & Hr & _). discriminate. }
  destruct (Downstream.ok r) eqn:Hok; cbn [negb].
  2:{ split; [discriminate|]. intros (r' & [= <-] & Hok' & _). congruence. }
  destruct (Downstream.json r) as [message|body] eqn:Hjson.
  { split; [discriminate|]. intros (r' & [= <-] & _ & Hj). congruence. }
  split.
  - destruct body as [|[|]|response']; cbn; try discriminate.
    intros [= ->]. exists r. repeat split; assumption.
  - intros (r' & [= <-] & _ & Hj). rewrite Hjson in Hj.
    injection Hj as ->. reflexivity.
Qed.

Lemma delivers_true d :
  delivers d = true <->
  (exists u, simulated d = inr u)
  /\ exists response, received d = inr response.
Proof.
  unfold delivers.
  destruct (simulated d) as [e|u], (received d) as [e'|response];
    split; try discriminate.
  - intros [[u H] _]; discriminate.
  - intros [[u H] _]; discriminate.
  - intros [_ [r H]]; discriminate.
  - intros _. split; eexists; reflexivity.
  - reflexivity.
Qed.

(** What is thrown inside the [try] of a call that the breaker has let in
    and whose [fetch] has been answered or rejected. *)
Lemma received_thrown d :
  match Downstream.answer d with
  | Downstream.Rejects message =>
      received d = inl (failure_thrown (FetchRejected message))
  | Downstream.Responds r =>
      if Downstream.ok r then
        match Downstream.json r with
        | inl message => received d = inl (failure_thrown (Raised None message))
        | inr body => received d = read_messages body
        end
      else received d = inl (failure_thrown (HttpStatus r))
  end.
Proof.
  unfold received, makeApiCall_response.
  destruct (Downstream.answer d) as [message|r]; [reflexivity|].
  destruct (Downstream.ok r); cbn [negb]; [|reflexivity].
  destruct (Downstream.json r); reflexivity.
Qed.

(** [sendMessage], one call on its own, as one decision: the value its
    promise is fulfilled with. *)
Lemma sendMessage_decides clock c d s :
  fst (sendMessage clock c d s)
  = if negb (enabled s) then
      sendMessage_catch c
        (ServiceError
           (WhatsAppValidationError "WhatsApp messaging is disabled"
              (dealId c) (Some (phoneNumber c))))
    else
      match validateInputs (phoneNumber c) (message c) with
      | inl e => sendMessage_catch c e
      | inr _ =>
          match CircuitBreaker.execute_enter (after_limiter clock)
                  (circuitBreaker s) with
          | inl e => sendMessage_catch c e
          | inr _ =>
              match simulated d with
              | inl e => sendMessage_catch c e
              | inr _ => settlement (after_fetch clock) c d
              end
          end
      end.
Proof.
  unfold sendMessage, sendMessage_start. fold (enabled s).
  destruct (enabled s); cbn [negb]; [|reflexivity].
  destruct (validateInputs (phoneNumber c) (message c)) as [e|u];
    [reflexivity|].
  destruct (RateLimiter.waitIfNeeded (RateLimiter.at_once (at_call clock))
              (rateLimiter s)) as [w l].
  destruct (CircuitBreaker.execute_enter (after_limiter clock)
              (circuitBreaker s)) as [e|b] eqn:Hb.
  - erewrite sendMessage_dispatch_refused by exact Hb. reflexivity.
  - erewrite sendMessage_dispatch_entered by exact Hb.
    destruct (simulated d); [reflexivity|].
    rewrite sendMessage_complete_eq. reflexivity.
Qed.

Lemma sendMessage_returns clock c d s :
  exists result,
    fst (sendMessage clock c d s) = inr result
    /\ SendMessageResult.recipient result = phoneNumber c
    /\ SendMessageResult.role result = role_or_accounts c
    /\ (SendMessageResult.success result = true <-> goes_through clock c d s)
    /\ (SendMessageResult.success result = true ->
        exists response,
          received d = inr response
          /\ result = sent (after_fetch clock) c response).
Proof.
  rewrite sendMessage_decides. unfold goes_through.
  destruct (enabled s) eqn:Hon; cbn [negb].
  2:{ eexists; split; [reflexivity|]. repeat split; try discriminate.
      intros (He & _). discriminate. }
  destruct (validateInputs (phoneNumber c) (message c)) as [e|u] eqn:Hv.
  { eexists; split; [reflexivity|]. repeat split; try discriminate.
    intros (_ & Hvalid & _). exfalso. apply Hvalid.
    apply validateInputs_violates. eexists; exact Hv. }
  assert (Hvalid : ~ violates (phoneNumber c) (message c)).
  { intros Hviol. apply validateInputs_violates in Hviol.
    destruct Hviol as [e He]. congruence. }
  destruct (CircuitBreaker.execute_enter (after_limiter clock)
              (circuitBreaker s)) as [e|b] eqn:Hb.
  { eexists; split; [reflexivity|]. repeat split; try discriminate.
    intros (_ & _ & [b Hb'] & _). discriminate. }
  destruct (simulated d) as [e|u'] eqn:Hsim.
  { eexists; split; [reflexivity|]. repeat split; try discriminate.
    intros (_ & _ & _ & Hd). apply delivers_true in Hd.
    destruct Hd as [[u' Hu] _]. congruence. }
  unfold settlement.
  destruct (received d) as [e|response] eqn:Hr.
  { eexists; split; [reflexivity|]. repeat split; try discriminate.
    intros (_ & _ & _ & Hd). apply delivers_true in Hd.
    destruct Hd as [_ [r Hr']]. congruence. }
  eexists; split; [reflexivity|]. repeat split; try discriminate;
    try assumption.
  - eexists; reflexivity.
  - apply delivers_true. split; eexists; eassumption.
  - intros _. eexists; split; reflexivity.
Qed.

Lemma results_partition xs :
  List.length xs
  = (List.length (results_of accounts xs)
     + List.length (results_of logistics xs)
     + List.length (results_of boss1 xs)
     + List.length (results_of bossog xs))%nat.
Proof.
  induction xs as [|x xs IH]; [reflexivity|].
  unfold results_of in *. cbn [filter List.length].
  destruct (SendMessageResult.role x); cbn [RecipientRole_eqb List.length]; lia.
Qed.

Lemma filter_split_length {A} (p : A -> bool) xs :
  (List.length (filter p xs) + List.length (filter (fun x => negb (p x)) xs)
   = List.length xs)%nat.
Proof.
  induction xs as [|x xs IH]; [reflexivity|]. cbn.
  destruct (p x); cbn; lia.
Qed.

(** *** Runs in which the breaker stays closed *)

Lemma callback_resume_closed deal now r d task sh :
  CircuitBreaker.state (circuitBreaker (service sh)) = CircuitBreaker.CLOSED ->
  fst (callback_resume deal now r d task sh) = next_task now d task
  /\ circuitBreaker (service (snd (callback_resume deal now r d task sh)))
     = match task with
       | AtLimiter _ _ =>
           match simulated d with
           | inl _ => CircuitBreaker.onFailure now (circuitBreaker (service sh))
           | inr _ => circuitBreaker (service sh)
           end
       | AtFetch _ =>
           CircuitBreaker.execute_settle now (makeApiCall_response d)
             (circuitBreaker (service sh))
       | _ => circuitBreaker (service sh)
       end.
Proof.
  intros Hc.
  destruct task as [c w|c|c [e|result]|]; cbn [callback_resume next_task].
  - erewrite sendMessage_dispatch_entered
      by (apply CircuitBreakerFacts.execute_enter_not_open; congruence).
    destruct (simulated d); split; reflexivity.
  - rewrite sendMessage_complete_eq. split; reflexivity.
  - split; reflexivity.
  - split; reflexivity.
  - split; reflexivity.
Qed.

Lemma failures_ahead_set downstream r task tasks :
  failures_ahead downstream (PerRole.set r task tasks)
  = failures_ahead downstream tasks
    - (if in_flight (PerRole.get r tasks) && negb (delivers (downstream r))
       then 1 else 0)
    + (if in_flight task && negb (delivers (downstream r)) then 1 else 0).
Proof.
  unfold failures_ahead, PerRole.roles. cbn [fold_right].
  destruct r; cbn [PerRole.get PerRole.set PerRole.of_accounts
                     PerRole.of_logistics PerRole.of_boss1 PerRole.of_bossog];
    lia.
Qed.

Lemma failures_ahead_nonneg downstream tasks :
  0 <= failures_ahead downstream tasks.
Proof.
  unfold failures_ahead, PerRole.roles. cbn [fold_right].
  repeat match goal with |- context [if ?c then 1 else 0] => destruct c end;
    lia.
Qed.

Lemma on_course_next downstream now r task :
  on_course downstream r task ->
  on_course downstream r (next_task now (downstream r) task).
Proof.
  destruct task as [c w|c|c [e|result]|]; cbn [on_course next_task];
    try tauto.
  - intros Hr. destruct (simulated (downstream r)) as [e|u] eqn:Hs.
    + rewrite sendMessage_catch_failed. cbn [on_course].
      unfold failed, role_or_accounts, delivers.
      cbn [SendMessageResult.role SendMessageResult.success].
      rewrite Hr, Hs. split; reflexivity.
    + cbn [on_course]. split; [exact Hr | exists u; exact Hs].
  - intros [Hr [u Hs]]. unfold settlement, delivers. rewrite Hs.
    destruct (received (downstream r));
      [rewrite sendMessage_catch_failed|]; cbn [on_course];
      unfold failed, sent, role_or_accounts;
      cbn [SendMessageResult.role SendMessageResult.success];
      rewrite Hr; split; reflexivity.
Qed.

Lemma failures_ahead_ge downstream r tasks :
  (if in_flight (PerRole.get r tasks) && negb (delivers (downstream r))
   then 1 else 0)
  <= failures_ahead downstream tasks.
Proof.
  pose proof (failures_ahead_set downstream r Finished tasks) as H.
  pose proof (failures_ahead_nonneg downstream (PerRole.set r Finished tasks)).
  cbn [in_flight andb] in H. lia.
Qed.

(** A turn of a callback that is on course keeps the breaker closed and
    below its threshold for the failures still to come. *)
Lemma breaker_stays_closed downstream now r run :
  steady downstream run ->
  let b := circuitBreaker (service (shared run)) in
  let task := PerRole.get r (tasks run) in
  let b' :=
    match task with
    | AtLimiter _ _ =>
        match simulated (downstream r) with
        | inl _ => CircuitBreaker.onFailure now b
        | inr _ => b
        end
    | AtFetch _ =>
        CircuitBreaker.execute_settle now
          (makeApiCall_response (downstream r)) b
    | _ => b
    end in
  let ahead' :=
    failures_ahead downstream
      (PerRole.set r (next_task now (downstream r) task) (tasks run)) in
  CircuitBreaker.state b' = CircuitBreaker.CLOSED
  /\ 0 <= CircuitBreaker.failures b'
  /\ (0 < ahead' ->
      CircuitBreaker.failures b' + ahead'
      < CircuitBreaker.failureThreshold (CircuitBreaker.config b')).
Proof.
  intros (Hc & Hf & Hahead & Hcourse & _) b task b' ahead'.
  fold b in Hc, Hf, Hahead.
  pose proof (Hcourse r) as Hr. fold task in Hr.
  pose proof (failures_ahead_ge downstream r (tasks run)) as Hge.
  fold task in Hge.
  unfold ahead'. rewrite failures_ahead_set. fold task.
  assert (Hfail :
            in_flight task = true ->
            delivers (downstream r) = false ->
            in_flight (next_task now (downstream r) task) = false ->
            let bf := CircuitBreaker.onFailure now b in
            CircuitBreaker.state bf = CircuitBreaker.CLOSED
            /\ 0 <= CircuitBreaker.failures bf
            /\ (0 < failures_ahead downstream (tasks run)
                    - (if in_flight task && negb (delivers (downstream r))
                       then 1 else 0)
                    + (if in_flight (next_task now (downstream r) task)
                          && negb (delivers (downstream r))
                       then 1 else 0) ->
                CircuitBreaker.failures bf
                + (failures_ahead downstream (tasks run)
                   - (if in_flight task && negb (delivers (downstream r))
                      then 1 else 0)
                   + (if in_flight (next_task now (downstream r) task)
                         && negb (delivers (downstream r))
                      then 1 else 0))
                < CircuitBreaker.failureThreshold (CircuitBreaker.config bf))).
  { intros Hin Hdel Hout bf. rewrite Hin, Hdel, Hout in *.
    cbn [andb negb] in *.
    assert (Hroom : CircuitBreaker.failures b + 1
                    < CircuitBreaker.failureThreshold (CircuitBreaker.config b))
      by lia.
    destruct (CircuitBreakerFacts.onFailure_closed_stays now b Hc Hf Hroom)
      as (Hs' & Hf' & Hcfg).
    fold bf in Hs', Hf', Hcfg. rewrite Hcfg.
    repeat split; try assumption; lia. }
  assert (Hsame :
            forall bs,
              CircuitBreaker.state bs = CircuitBreaker.CLOSED ->
              0 <= CircuitBreaker.failures bs <= CircuitBreaker.failures b ->
              CircuitBreaker.config bs = CircuitBreaker.config b ->
              (if in_flight task && negb (delivers (downstream r))
               then 1 else 0)
              = (if in_flight (next_task now (downstream r) task)
                    && negb (delivers (downstream r))
                 then 1 else 0) ->
              CircuitBreaker.state bs = CircuitBreaker.CLOSED
              /\ 0 <= CircuitBreaker.failures bs
              /\ (0 < failures_ahead downstream (tasks run)
                      - (if in_flight task && negb (delivers (downstream r))
                         then 1 else 0)
                      + (if in_flight (next_task now (downstream r) task)
                            && negb (delivers (downstream r))
                         then 1 else 0) ->
                  CircuitBreaker.failures bs
                  + (failures_ahead downstream (tasks run)
                     - (if in_flight task && negb (delivers (downstream r))
                        then 1 else 0)
                     + (if in_flight (next_task now (downstream r) task)
                           && negb (delivers (downstream r))
                        then 1 else 0))
                  < CircuitBreaker.failureThreshold
                      (CircuitBreaker.config bs))).
  { intros bs Hs' Hf' Hcfg Hw. rewrite Hcfg, <- Hw.
    repeat split; try assumption; lia. }
  unfold b'. clear b' ahead'.
  destruct task as [c w|c|c [e|result]|] eqn:Htask; cbn [on_course] in Hr.
  - cbn [next_task] in *.
    destruct (simulated (downstream r)) as [e|u] eqn:Hs.
    + apply Hfail; try reflexivity. unfold delivers. rewrite Hs. reflexivity.
    + apply Hsame; try assumption; try reflexivity; lia.
  - cbn [next_task] in *. destruct Hr as [_ [u Hs]].
    destruct (makeApiCall_response (downstream r)) as [e|response] eqn:Hresp;
      cbn [CircuitBreaker.execute_settle].
    + apply Hfail; try reflexivity.
      unfold delivers, received. rewrite Hs, Hresp. reflexivity.
    + destruct (CircuitBreakerFacts.onSuccess_closed_stays now b Hc Hf)
        as (Hs' & Hf' & Hcfg).
      destruct (delivers (downstream r)) eqn:Hdel.
      * apply Hsame; try assumption. reflexivity.
      * (* the body has no [messages]: the breaker has counted a success
           and the result is a failure *)
        unfold settlement, received. rewrite Hresp.
        unfold delivers, received in Hdel. rewrite Hs, Hresp in Hdel.
        destruct (read_messages response) as [e|parsed]; [|discriminate].
        rewrite sendMessage_catch_failed. cbn [in_flight andb negb] in *.
        rewrite Hcfg. repeat split; try assumption; lia.
  - destruct Hr.
  - apply Hsame; try assumption; try reflexivity; lia.
  - apply Hsame; try assumption; try reflexivity; lia.
Qed.

Lemma on_course_for_role downstream r task :
  on_course downstream r task -> for_role r task.
Proof.
  destruct task as [c w|c|c [e|result]|]; cbn; tauto.
Qed.

(** A turn keeps a steady run steady. *)
Lemma steady_resume deal downstream run turn :
  steady downstream run -> steady downstream (resume deal downstream run turn).
Proof.
  intros H. destruct turn as [r now].
  pose proof H as (Hc & Hf & Hahead & Hcourse & Hres).
  pose proof (breaker_stays_closed downstream now r run H) as Hb.
  cbv zeta in Hb.
  destruct (callback_resume_closed deal now r (downstream r)
              (PerRole.get r (tasks run)) (shared run) Hc) as [Hnext Hbk].
  rewrite resume_eq. unfold steady. cbn [shared tasks].
  rewrite Hnext, Hbk.
  destruct Hb as (B1 & B2 & B3).
  split; [exact B1|]. split; [exact B2|]. split; [exact B3|]. split.
  - intros r'. destruct (RecipientRole_eqb_spec r r') as [<-|Hne].
    + rewrite get_set_same. apply on_course_next, Hcourse.
    + rewrite get_set_other by exact Hne. apply Hcourse.
  - intros result Hin. rewrite callback_resume_results in Hin.
    apply in_app_or in Hin. destruct Hin as [Hin|Hin]; [apply Hres, Hin|].
    specialize (Hcourse r).
    destruct (PerRole.get r (tasks run)) as [c w|c|c [e|res]|];
      cbn [pushed on_course] in *; try contradiction.
    destruct Hin as [<-|[]]. destruct Hcourse as [-> ->]. reflexivity.
Qed.

(** The callback of a sendable role, started on an enabled service, waits
    on the limiter; only the limiter has changed. *)
Lemma callback_start_sendable generateMessage deal now r phone sh text :
  enabled (service sh) = true ->
  generateMessage r deal = inr text ->
  validateInputs phone text = inr tt ->
  callback_start generateMessage deal now r phone sh
  = (AtLimiter (mkCall phone text (Some (DealData.id deal)) (Some r))
       (fst (RateLimiter.waitIfNeeded (RateLimiter.at_once now) (rateLimiter (service sh)))),
     with_service sh
       (with_rateLimiter (service sh)
          (snd (RateLimiter.waitIfNeeded (RateLimiter.at_once now) (rateLimiter (service sh)))))).
Proof.
  intros Hon Hgen Hvalid. unfold callback_start, sendMessage_start.
  rewrite Hgen. fold (enabled (service sh)). rewrite Hon.
  cbn [negb phoneNumber message]. rewrite Hvalid.
  destruct (RateLimiter.waitIfNeeded (RateLimiter.at_once now) (rateLimiter (service sh))).
  reflexivity.
Qed.

(** With messaging on and the four roles sendable, the four callbacks
    all wait on the limiter once started; nothing has been pushed and the
    breaker has not been touched. *)
Lemma start_all_sendable generateMessage deal now s :
  enabled s = true ->
  (forall r, sendable generateMessage deal s r) ->
  let run := start_all generateMessage deal now s in
  (forall r, exists c w,
      PerRole.get r (tasks run) = AtLimiter c w /\ role c = Some r)
  /\ results (shared run) = []
  /\ circuitBreaker (service (shared run)) = circuitBreaker s.
Proof.
  intros Hon Hsend.
  destruct (Hsend accounts) as (ta & Ga & Va).
  destruct (Hsend logistics) as (tl & Gl & Vl).
  destruct (Hsend boss1) as (tb & Gb & Vb).
  destruct (Hsend bossog) as (to & Go & Vo).
  cbn [PerRole.get] in Va, Vl, Vb, Vo.
  unfold start_all.
  rewrite (callback_start_sendable generateMessage deal now accounts _ _ ta)
    by assumption.
  rewrite (callback_start_sendable generateMessage deal now logistics _ _ tl)
    by assumption.
  rewrite (callback_start_sendable generateMessage deal now boss1 _ _ tb)
    by assumption.
  rewrite (callback_start_sendable generateMessage deal now bossog _ _ to)
    by assumption.
  cbv zeta. cbn [tasks shared results service with_service
                   with_rateLimiter circuitBreaker].
  split; [|split; reflexivity].
  intros r. destruct r; cbn [PerRole.get PerRole.of_accounts
                               PerRole.of_logistics PerRole.of_boss1
                               PerRole.of_bossog];
    eexists; eexists; split; reflexivity.
Qed.

Lemma failures_ahead_in_flight downstream tasks :
  (forall r, in_flight (PerRole.get r tasks) = true) ->
  failures_ahead downstream tasks = misses downstream.
Proof.
  intros H. unfold failures_ahead, misses, PerRole.roles. cbn [fold_right].
  rewrite !H. cbn [andb].
  repeat match goal with
         | |- context [delivers ?d] => destruct (delivers d)
         end; reflexivity.
Qed.

(** With messaging on, the four roles sendable, the breaker closed and
    room under its threshold for the calls the downstream will not let
    through, the run is steady from the start. *)
Lemma steady_start generateMessage deal now downstream s :
  enabled s = true ->
  (forall r, sendable generateMessage deal s r) ->
  CircuitBreaker.state (circuitBreaker s) = CircuitBreaker.CLOSED ->
  0 <= CircuitBreaker.failures (circuitBreaker s) ->
  (0 < misses downstream ->
   CircuitBreaker.failures (circuitBreaker s) + misses downstream
   < CircuitBreaker.failureThreshold
       (CircuitBreaker.config (circuitBreaker s))) ->
  steady downstream (start_all generateMessage deal now s).
Proof.
  intros Hon Hsend Hc Hf Hroom.
  destruct (start_all_sendable generateMessage deal now s Hon Hsend)
    as (Htasks & Hres & Hb).
  unfold steady. rewrite Hb, Hres.
  rewrite failures_ahead_in_flight
    by (intros r; destruct (Htasks r) as (c & w & -> & _); reflexivity).
  repeat split; try assumption.
  - intros r. destruct (Htasks r) as (c & w & -> & Hr). exact Hr.
  - intros result [].
Qed.

(** *** Counting the results *)

Lemma all_settled_finished run :
  all_settled run = true ->
  forall r, is_finished (PerRole.get r (tasks run)) = true.
Proof.
  unfold all_settled, PerRole.roles. cbn [forallb].
  rewrite !andb_true_iff. intros (Ha & Hl & Hb & Ho & _) r.
  destruct r; assumption.
Qed.

Lemma filter_swap {A} (p q : A -> bool) xs :
  filter p (filter q xs) = filter q (filter p xs).
Proof.
  induction xs as [|x xs IH]; [reflexivity|]. cbn.
  destruct (p x) eqn:Hp, (q x) eqn:Hq; cbn; rewrite ?Hp, ?Hq, IH; reflexivity.
Qed.

Lemma length_1 {A} (xs : list A) :
  List.length xs = 1%nat -> exists x, xs = [x].
Proof.
  destruct xs as [|x [|y xs]]; cbn; try discriminate.
  intros _. exists x. reflexivity.
Qed.

(** Of the one result of role [r], the successes number one or none, as
    the downstream of [r] delivers or not. *)
Lemma successes_of_role downstream r xs :
  List.length (results_of r xs) = 1%nat ->
  (forall x, In x xs ->
     SendMessageResult.success x
     = delivers (downstream (SendMessageResult.role x))) ->
  List.length (results_of r (filter SendMessageResult.success xs))
  = if delivers (downstream r) then 1%nat else 0%nat.
Proof.
  intros Hone Hres. unfold results_of in *. rewrite filter_swap.
  destruct (length_1 _ Hone) as [x Hx].
  assert (Hin : In x (filter
                        (fun res =>
                           RecipientRole_eqb (SendMessageResult.role res) r)
                        xs))
    by (rewrite Hx; left; reflexivity).
  apply filter_In in Hin. destruct Hin as [Hin Hrole].
  destruct (RecipientRole_eqb_spec (SendMessageResult.role x) r) as [Hr|];
    [|discriminate].
  rewrite Hx. cbn [filter]. rewrite (Hres x Hin), Hr.
  destruct (delivers (downstream r)); reflexivity.
Qed.

Lemma misses_bounds downstream :
  (if delivers (downstream accounts) then 1 else 0)
  + (if delivers (downstream logistics) then 1 else 0)
  + (if delivers (downstream boss1) then 1 else 0)
  + (if delivers (downstream bossog) then 1 else 0)
  = 4 - misses downstream.
Proof.
  unfold misses, PerRole.roles. cbn [fold_right].
  destruct (delivers (downstream accounts)),
    (delivers (downstream logistics)), (delivers (downstream boss1)),
    (delivers (downstream bossog)); reflexivity.
Qed.

(** One result per role, each a success exactly when its downstream
    delivers: the successes number four less the misses, the failures the
    misses. *)
Lemma steady_counts downstream xs :
  (forall r, List.length (results_of r xs) = 1%nat) ->
  (forall x, In x xs ->
     SendMessageResult.success x
     = delivers (downstream (SendMessageResult.role x))) ->
  Z.of_nat (List.length (filter SendMessageResult.success xs))
  = 4 - misses downstream
  /\ Z.of_nat
       (List.length
          (filter (fun x => negb (SendMessageResult.success x)) xs))
     = misses downstream.
Proof.
  intros Hone Hres.
  assert (Hlen : List.length xs = 4%nat)
    by (rewrite (results_partition xs), !Hone; reflexivity).
  assert (Hsucc : Z.of_nat (List.length (filter SendMessageResult.success xs))
                  = 4 - misses downstream).
  { rewrite (results_partition (filter SendMessageResult.success xs)).
    rewrite !(successes_of_role downstream) by (apply Hone || exact Hres).
    rewrite <- misses_bounds.
    destruct (delivers (downstream accounts)),
      (delivers (downstream logistics)), (delivers (downstream boss1)),
      (delivers (downstream bossog)); reflexivity. }
  split; [exact Hsucc|].
  pose proof (filter_split_length SendMessageResult.success xs). lia.
Qed.

(** Where a steady run under a fair schedule ends: one result per role,
    each a success exactly when its downstream delivers. *)
Lemma steady_outcome generateMessage deal now downstream schedule s :
  steady downstream (start_all generateMessage deal now s) ->
  fair schedule ->
  exists bulk s',
    sendDealNotifications generateMessage deal now downstream schedule s
    = Some (bulk, s')
    /\ BulkSendResult.results bulk
       = results (shared (run_schedule deal downstream schedule
                            (start_all generateMessage deal now s)))
    /\ (forall r,
          List.length (results_of r (BulkSendResult.results bulk)) = 1%nat)
    /\ BulkSendResult.successCount bulk = 4 - misses downstream
    /\ BulkSendResult.failureCount bulk = misses downstream.
Proof.
  intros Hsteady Hfair. unfold sendDealNotifications.
  set (run := run_schedule deal downstream schedule
                (start_all generateMessage deal now s)).
  assert (Hdone : all_settled run = true) by (apply fair_all_settled, Hfair).
  rewrite Hdone. eexists; eexists; split; [reflexivity|].
  assert (Htracked : tracked run).
  { apply run_schedule_invariant;
      [intros; apply tracked_resume; assumption | apply tracked_start]. }
  assert (Hst : steady downstream run).
  { apply run_schedule_invariant;
      [intros; apply steady_resume; assumption | exact Hsteady]. }
  assert (Hone : forall r,
             List.length (results_of r (results (shared run))) = 1%nat).
  { intros r. destruct (Htracked r) as [_ Hcount].
    rewrite (all_settled_finished run Hdone r) in Hcount. exact Hcount. }
  destruct Hst as (_ & _ & _ & _ & Hres).
  destruct (steady_counts downstream (results (shared run)) Hone Hres)
    as [Hs Hf].
  unfold summary. cbn [BulkSendResult.results BulkSendResult.successCount
                         BulkSendResult.failureCount].
  repeat split; assumption.
Qed.

(** *** One role's downstream does not reach the other roles *)

Lemma results_but_app r xs ys :
  results_but r (xs ++ ys) = results_but r xs ++ results_but r ys.
Proof. apply filter_app. Qed.

Lemma results_but_same r xs :
  (forall x, In x xs -> SendMessageResult.role x = r) ->
  results_but r xs = [].
Proof.
  intros H. unfold results_but.
  induction xs as [|x xs IH]; [reflexivity|]. cbn.
  rewrite (H x) by (left; reflexivity). rewrite RecipientRole_eqb_refl.
  cbn [negb]. apply IH. intros y Hy. apply H. right; exact Hy.
Qed.

Lemma results_but_length r xs :
  (List.length (results_of r xs) + List.length (results_but r xs)
   = List.length xs)%nat.
Proof. apply filter_split_length. Qed.

(** Two steady runs whose downstreams differ at role [f] only, and whose
    callbacks and results agree off [f], still agree off [f] after a
    turn. *)
Lemma agree_resume deal d1 d0 f run1 run0 turn :
  (forall r, r <> f -> d1 r = d0 r) ->
  steady d1 run1 -> steady d0 run0 ->
  (forall r, r <> f ->
     PerRole.get r (tasks run1) = PerRole.get r (tasks run0)) ->
  results_but f (results (shared run1))
  = results_but f (results (shared run0)) ->
  (forall r, r <> f ->
     PerRole.get r (tasks (resume deal d1 run1 turn))
     = PerRole.get r (tasks (resume deal d0 run0 turn)))
  /\ results_but f (results (shared (resume deal d1 run1 turn)))
     = results_but f (results (shared (resume deal d0 run0 turn))).
Proof.
  intros Hd H1 H0 Htasks Hres. destruct turn as [r now].
  pose proof H1 as (Hc1 & _ & _ & Hcourse1 & _).
  pose proof H0 as (Hc0 & _ & _ & Hcourse0 & _).
  rewrite !resume_eq. cbn [tasks shared].
  rewrite !callback_resume_results, !results_but_app, Hres.
  destruct (callback_resume_closed deal now r (d1 r)
              (PerRole.get r (tasks run1)) (shared run1) Hc1) as [-> _].
  destruct (callback_resume_closed deal now r (d0 r)
              (PerRole.get r (tasks run0)) (shared run0) Hc0) as [-> _].
  split.
  - intros r' Hr'. destruct (RecipientRole_eqb_spec r r') as [<-|Hne].
    + rewrite !get_set_same, (Hd r Hr'), (Htasks r Hr'). reflexivity.
    + rewrite !get_set_other by exact Hne. apply Htasks, Hr'.
  - f_equal. destruct (RecipientRole_eqb_spec r f) as [->|Hne].
    + rewrite (results_but_same f (pushed deal f (PerRole.get f (tasks run1))))
        by (intros x Hx; eapply pushed_role; [|exact Hx];
            apply (on_course_for_role d1 f), Hcourse1).
      rewrite (results_but_same f (pushed deal f (PerRole.get f (tasks run0))))
        by (intros x Hx; eapply pushed_role; [|exact Hx];
            apply (on_course_for_role d0 f), Hcourse0).
      reflexivity.
    + rewrite (Htasks r Hne). reflexivity.
Qed.

Lemma agree_schedule deal d1 d0 f schedule :
  (forall r, r <> f -> d1 r = d0 r) ->
  forall run1 run0,
    steady d1 run1 -> steady d0 run0 ->
    (forall r, r <> f ->
       PerRole.get r (tasks run1) = PerRole.get r (tasks run0)) ->
    results_but f (results (shared run1))
    = results_but f (results (shared run0)) ->
    results_but f (results (shared (run_schedule deal d1 schedule run1)))
    = results_but f (results (shared (run_schedule deal d0 schedule run0))).
Proof.
  intros Hd. induction schedule as [|turn schedule IH];
    intros run1 run0 H1 H0 Htasks Hres; [exact Hres|].
  rewrite !run_schedule_cons.
  destruct (agree_resume deal d1 d0 f run1 run0 turn Hd H1 H0 Htasks Hres)
    as [Htasks' Hres'].
  apply IH; try assumption; apply steady_resume; assumption.
Qed.

Lemma misses_none downstream :
  (forall r, delivers (downstream r) = true) -> misses downstream = 0.
Proof.
  intros H. unfold misses, PerRole.roles. cbn [fold_right].
  rewrite !H. reflexivity.
Qed.

Lemma misses_one f failing downstream :
  (forall r, delivers (downstream r) = true) ->
  delivers failing = false ->
  misses (but_for f failing downstream) = 1.
Proof.
  intros H Hf. unfold misses, but_for, PerRole.roles. cbn [fold_right].
  destruct f; cbn [RecipientRole_eqb]; rewrite ?H, ?Hf; reflexivity.
Qed.

Lemma but_for_other f failing downstream r :
  r <> f -> but_for f failing downstream r = downstream r.
Proof.
  intros H. unfold but_for.
  destruct (RecipientRole_eqb_spec r f); [contradiction | reflexivity].
Qed.

(** *** A role without a recipient *)

(** The callback of a role whose recipient is empty, up to its first
    [await]: it has failed, in rendering or in validation. *)
Lemma callback_start_empty generateMessage deal now r sh :
  let out := callback_start generateMessage deal now r "" sh in
  match fst out with
  | Resolved _ (inr result) => SendMessageResult.success result = false
  | Resolved _ (inl _) => True
  | Finished => True
  | _ => False
  end
  /\ forall x,
       In x (results (snd out)) ->
       In x (results sh) \/ SendMessageResult.success x = false.
Proof.
  unfold callback_start.
  destruct (generateMessage r deal) as [e|text]; cbn [fst snd].
  - split; [exact I|]. intros x Hx. cbn in Hx.
    apply in_app_or in Hx. destruct Hx as [Hx|[<-|[]]]; [left; exact Hx|].
    right; reflexivity.
  - destruct (sendMessage_start_violates now
                (mkCall "" text (Some (DealData.id deal)) (Some r))
                (service sh)) as (e & -> & _); [left; reflexivity|].
    cbn. split; [reflexivity|]. intros x Hx. left; exact Hx.
Qed.

Lemma callback_start_other generateMessage deal now r r' phone sh x :
  r' <> r ->
  In x (results (snd (callback_start generateMessage deal now r' phone sh))) ->
  SendMessageResult.role x = r ->
  In x (results sh).
Proof.
  intros Hne Hx Hr.
  destruct (callback_start_spec generateMessage deal now r' phone sh)
    as (_ & extra & E & O & _).
  rewrite E in Hx. apply in_app_or in Hx. destruct Hx as [Hx|Hx]; [exact Hx|].
  apply O in Hx. congruence.
Qed.

Lemma start_all_empty generateMessage deal now s r :
  PerRole.get r (WhatsAppConfig.recipients (config s)) = "" ->
  bound_to_fail r (start_all generateMessage deal now s).
Proof.
  intros Hempty. unfold start_all, bound_to_fail.
  set (recipients := WhatsAppConfig.recipients (config s)) in *.
  pose proof (callback_start_empty generateMessage deal now r) as Hown.
  pose proof (fun r' => callback_start_other generateMessage deal now r r')
    as Hoth.
  cbv zeta in Hown.
  destruct r; cbn [PerRole.get] in Hempty; rewrite Hempty.
  - set (o1 := callback_start generateMessage deal now accounts ""
                 (mkShared s [] [])).
    specialize (Hown (mkShared s [] [])). fold o1 in Hown.
    destruct o1 as [ta sh1]. cbn [fst snd] in Hown.
    pose proof (Hoth logistics (PerRole.of_logistics recipients) sh1) as H2.
    destruct (callback_start generateMessage deal now logistics
                (PerRole.of_logistics recipients) sh1) as [tl sh2].
    pose proof (Hoth boss1 (PerRole.of_boss1 recipients) sh2) as H3.
    destruct (callback_start generateMessage deal now boss1
                (PerRole.of_boss1 recipients) sh2) as [tb sh3].
    pose proof (Hoth bossog (PerRole.of_bossog recipients) sh3) as H4.
    destruct (callback_start generateMessage deal now bossog
                (PerRole.of_bossog recipients) sh3) as [to sh4].
    cbn [fst snd tasks shared PerRole.get PerRole.of_accounts] in *.
    destruct Hown as [Ht Hres]. split; [exact Ht|].
    intros x Hx Hr.
    apply H4 in Hx; [|discriminate|exact Hr].
    apply H3 in Hx; [|discriminate|exact Hr].
    apply H2 in Hx; [|discriminate|exact Hr].
    destruct (Hres x Hx) as [[]|Hf]. exact Hf.
  - pose proof (Hoth accounts (PerRole.of_accounts recipients)
                  (mkShared s [] [])) as H1.
    destruct (callback_start generateMessage deal now accounts
                (PerRole.of_accounts recipients) (mkShared s [] []))
      as [ta sh1].
    specialize (Hown sh1).
    destruct (callback_start generateMessage deal now logistics "" sh1)
      as [tl sh2].
    pose proof (Hoth boss1 (PerRole.of_boss1 recipients) sh2) as H3.
    destruct (callback_start generateMessage deal now boss1
                (PerRole.of_boss1 recipients) sh2) as [tb sh3].
    pose proof (Hoth bossog (PerRole.of_bossog recipients) sh3) as H4.
    destruct (callback_start generateMessage deal now bossog
                (PerRole.of_bossog recipients) sh3) as [to sh4].
    cbn [fst snd tasks shared PerRole.get PerRole.of_logistics] in *.
    destruct Hown as [Ht Hres]. split; [exact Ht|].
    intros x Hx Hr.
    apply H4 in Hx; [|discriminate|exact Hr].
    apply H3 in Hx; [|discriminate|exact Hr].
    destruct (Hres x Hx) as [Hin|Hf]; [|exact Hf].
    apply H1 in Hin; [|discriminate|exact Hr]. destruct Hin.
  - pose proof (Hoth accounts (PerRole.of_accounts recipients)
                  (mkShared s [] [])) as H1.
    destruct (callback_start generateMessage deal now accounts
                (PerRole.of_accounts recipients) (mkShared s [] []))
      as [ta sh1].
    pose proof (Hoth logistics (PerRole.of_logistics recipients) sh1) as H2.
    destruct (callback_start generateMessage deal now logistics
                (PerRole.of_logistics recipients) sh1) as [tl sh2].
    specialize (Hown sh2).
    destruct (callback_start generateMessage deal now boss1 "" sh2)
      as [tb sh3].
    pose proof (Hoth bossog (PerRole.of_bossog recipients) sh3) as H4.
    destruct (callback_start generateMessage deal now bossog
                (PerRole.of_bossog recipients) sh3) as [to sh4].
    cbn [fst snd tasks shared PerRole.get PerRole.of_boss1] in *.
    destruct Hown as [Ht Hres]. split; [exact Ht|].
    intros x Hx Hr.
    apply H4 in Hx; [|discriminate|exact Hr].
    destruct (Hres x Hx) as [Hin|Hf]; [|exact Hf].
    apply H2 in Hin; [|discriminate|exact Hr].
    apply H1 in Hin; [|discriminate|exact Hr]. destruct Hin.
  - pose proof (Hoth accounts (PerRole.of_accounts recipients)
                  (mkShared s [] [])) as H1.
    destruct (callback_start generateMessage deal now accounts
                (PerRole.of_accounts recipients) (mkShared s [] []))
      as [ta sh1].
    pose proof (Hoth logistics (PerRole.of_logistics recipients) sh1) as H2.
    destruct (callback_start generateMessage deal now logistics
                (PerRole.of_logistics recipients) sh1) as [tl sh2].
    pose proof (Hoth boss1 (PerRole.of_boss1 recipients) sh2) as H3.
    destruct (callback_start generateMessage deal now boss1
                (PerRole.of_boss1 recipients) sh2) as [tb sh3].
    specialize (Hown sh3).
    destruct (callback_start generateMessage deal now bossog "" sh3)
      as [to sh4].
    cbn [fst snd tasks shared PerRole.get PerRole.of_bossog] in *.
    destruct Hown as [Ht Hres]. split; [exact Ht|].
    intros x Hx Hr.
    destruct (Hres x Hx) as [Hin|Hf]; [|exact Hf].
    apply H3 in Hin; [|discriminate|exact Hr].
    apply H2 in Hin; [|discriminate|exact Hr].
    apply H1 in Hin; [|discriminate|exact Hr]. destruct Hin.
Qed.

(** *** An open breaker *)

Lemma callback_start_held generateMessage deal now r phone sh :
  let out := callback_start generateMessage deal now r phone sh in
  circuitBreaker (service (snd out)) = circuitBreaker (service sh)
  /\ match fst out with
     | AtFetch _ => False
     | Resolved _ (inr result) => SendMessageResult.success result = false
     | _ => True
     end
  /\ forall x,
       In x (results (snd out)) ->
       In x (results sh) \/ SendMessageResult.success x = false.
Proof.
  unfold callback_start.
  destruct (generateMessage r deal) as [e|text]; cbn [fst snd].
  - split; [reflexivity|]. split; [exact I|]. intros x Hx. cbn in Hx.
    apply in_app_or in Hx. destruct Hx as [Hx|[<-|[]]]; [left; exact Hx|].
    right; reflexivity.
  - destruct (sendMessage_start now
                (mkCall phone text (Some (DealData.id deal)) (Some r))
                (service sh)) as [[settled|w] s1] eqn:Hs; cbn [fst snd].
    + apply sendMessage_start_settled in Hs.
      destruct Hs as (-> & e & -> & _).
      split; [reflexivity|]. split; [reflexivity|].
      intros x Hx. left; exact Hx.
    + apply sendMessage_start_passed in Hs. destruct Hs as (_ & _ & -> & _).
      split; [reflexivity|]. split; [exact I|].
      intros x Hx. left; exact Hx.
Qed.

Lemma held_back_start generateMessage deal now s :
  held_back (circuitBreaker s) (start_all generateMessage deal now s).
Proof.
  unfold start_all, held_back.
  set (recipients := WhatsAppConfig.recipients (config s)).
  pose proof (callback_start_held generateMessage deal now accounts
                (PerRole.of_accounts recipients) (mkShared s [] [])) as H1.
  destruct (callback_start generateMessage deal now accounts
              (PerRole.of_accounts recipients) (mkShared s [] []))
    as [ta sh1].
  pose proof (callback_start_held generateMessage deal now logistics
                (PerRole.of_logistics recipients) sh1) as H2.
  destruct (callback_start generateMessage deal now logistics
              (PerRole.of_logistics recipients) sh1) as [tl sh2].
  pose proof (callback_start_held generateMessage deal now boss1
                (PerRole.of_boss1 recipients) sh2) as H3.
  destruct (callback_start generateMessage deal now boss1
              (PerRole.of_boss1 recipients) sh2) as [tb sh3].
  pose proof (callback_start_held generateMessage deal now bossog
                (PerRole.of_bossog recipients) sh3) as H4.
  destruct (callback_start generateMessage deal now bossog
              (PerRole.of_bossog recipients) sh3) as [to sh4].
  cbn [fst snd service results tasks shared] in *.
  destruct H1 as (B1 & T1 & R1), H2 as (B2 & T2 & R2),
    H3 as (B3 & T3 & R3), H4 as (B4 & T4 & R4).
  split; [congruence|]. split.
  - intros r. destruct r; assumption.
  - intros x Hx.
    destruct (R4 x Hx) as [Hx3|]; [|assumption].
    destruct (R3 x Hx3) as [Hx2|]; [|assumption].
    destruct (R2 x Hx2) as [Hx1|]; [|assumption].
    destruct (R1 x Hx1) as [[]|]; assumption.
Qed.

(** A turn that comes before the trial is due leaves an open breaker as it
    is and lets no callback past it. *)
Lemma held_back_resume deal downstream b run turn :
  CircuitBreaker.state b = CircuitBreaker.OPEN ->
  snd turn - CircuitBreaker.lastFailureTime b
  < CircuitBreaker.timeoutMs (CircuitBreaker.config b) ->
  held_back b run ->
  held_back b (resume deal downstream run turn).
Proof.
  intros Hopen Hearly (Hb & Htasks & Hres). destruct turn as [r now].
  cbn [snd] in Hearly.
  assert (Hrefuse : exists e,
             CircuitBreaker.execute_enter now
               (circuitBreaker (service (shared run))) = inl e).
  { rewrite Hb. unfold CircuitBreaker.execute_enter. rewrite Hopen.
    unfold CircuitBreaker.shouldAttemptReset.
    destruct (Z.leb_spec (CircuitBreaker.timeoutMs (CircuitBreaker.config b))
                (now - CircuitBreaker.lastFailureTime b)); [lia|].
    eexists; reflexivity. }
  destruct Hrefuse as [e He].
  unfold held_back. rewrite resume_eq. cbn [tasks shared].
  rewrite callback_resume_results.
  pose proof (Htasks r) as Hr.
  assert (Hgoal :
            circuitBreaker
              (service (snd (callback_resume deal now r (downstream r)
                               (PerRole.get r (tasks run)) (shared run))))
            = b
            /\ match fst (callback_resume deal now r (downstream r)
                            (PerRole.get r (tasks run)) (shared run)) with
               | AtFetch _ => False
               | Resolved _ (inr result) =>
                   SendMessageResult.success result = false
               | _ => True
               end
            /\ forall x,
                 In x (pushed deal r (PerRole.get r (tasks run))) ->
                 SendMessageResult.success x = false).
  { destruct (PerRole.get r (tasks run)) as [c w|c|c [e'|result]|];
      try contradiction; cbn [callback_resume pushed].
    - erewrite sendMessage_dispatch_refused by exact He.
      cbn. repeat split; [exact Hb | intros x []].
    - cbn. repeat split; [exact Hb|]. intros x [<-|[]]. reflexivity.
    - cbn. repeat split; [exact Hb|]. intros x [<-|[]]. exact Hr.
    - cbn. repeat split; [exact Hb | intros x []]. }
  destruct Hgoal as (G1 & G2 & G3).
  split; [exact G1|]. split.
  - intros r'. destruct (RecipientRole_eqb_spec r r') as [<-|Hne].
    + rewrite get_set_same. exact G2.
    + rewrite get_set_other by exact Hne. apply Htasks.
  - intros x Hx. apply in_app_or in Hx.
    destruct Hx as [Hx|Hx]; [apply Hres | apply G3]; exact Hx.
Qed.

Lemma held_back_schedule deal downstream b schedule :
  CircuitBreaker.state b = CircuitBreaker.OPEN ->
  before_trial b schedule ->
  forall run,
    held_back b run ->
    held_back b (run_schedule deal downstream schedule run).
Proof.
  intros Hopen Hearly.
  induction Hearly as [|turn schedule Hturn _ IH]; intros run H; [exact H|].
  rewrite run_schedule_cons. apply IH, held_back_resume; assumption.
Qed.

Lemma filter_none {A} (p : A -> bool) xs :
  (forall x, In x xs -> p x = false) -> filter p xs = [].
Proof.
  intros H. induction xs as [|x xs IH]; [reflexivity|]. cbn.
  rewrite (H x) by (left; reflexivity).
  apply IH. intros y Hy. apply H. right; exact Hy.
Qed.

(** While the breaker is open and no trial is due, every send of
    [sendDealNotifications] fails, whatever the templates, the deal and
    the downstream; the breaker is left as it was. *)
Lemma open_breaker_fails_all generateMessage deal now downstream schedule s :
  CircuitBreaker.state (circuitBreaker s) = CircuitBreaker.OPEN ->
  before_trial (circuitBreaker s) schedule ->
  fair schedule ->
  exists bulk s',
    sendDealNotifications generateMessage deal now downstream schedule s
    = Some (bulk, s')
    /\ BulkSendResult.successCount bulk = 0
    /\ BulkSendResult.failureCount bulk = 4
    /\ circuitBreaker s' = circuitBreaker s.
Proof.
  intros Hopen Hearly Hfair. unfold sendDealNotifications.
  set (run := run_schedule deal downstream schedule
                (start_all generateMessage deal now s)).
  assert (Hdone : all_settled run = true) by (apply fair_all_settled, Hfair).
  rewrite Hdone. eexists; eexists; split; [reflexivity|].
  assert (Htracked : tracked run).
  { apply run_schedule_invariant;
      [intros; apply tracked_resume; assumption | apply tracked_start]. }
  assert (Hheld : held_back (circuitBreaker s) run).
  { apply held_back_schedule; try assumption. apply held_back_start. }
  destruct Hheld as (Hb & _ & Hres).
  assert (Hlen : List.length (results (shared run)) = 4%nat).
  { rewrite (results_partition (results (shared run))).
    assert (Hone : forall r,
               List.length (results_of r (results (shared run))) = 1%nat).
    { intros r. destruct (Htracked r) as [_ Hcount].
      rewrite (all_settled_finished run Hdone r) in Hcount. exact Hcount. }
    rewrite !Hone. reflexivity. }
  pose proof (filter_split_length SendMessageResult.success
                (results (shared run))) as Hsplit.
  unfold summary. cbn [BulkSendResult.successCount
                         BulkSendResult.failureCount fst snd].
  rewrite (filter_none SendMessageResult.success (results (shared run)) Hres)
    in *.
  cbn [List.length] in *. repeat split; [lia | exact Hb].
Qed.

(** *** The counts of [sendDealNotifications] *)

(** C5, as the code has it.  With messaging on, the four recipients and
    their rendered messages passing [validateInputs], and the breaker
    closed: if the downstream delivers for every role, then under every
    fair schedule [sendDealNotifications] returns [successCount = 4] and
    [failureCount = 0]; and if, the breaker having room for one more
    failure below its threshold, the downstream of one role is replaced by
    one that does not deliver, the call returns [successCount = 3] and
    [failureCount = 1], and the results of the three other roles are, in
    content and in order, those of the run without the failure. *)
Theorem sendDealNotifications_counts :
  forall (generateMessage : MessageTemplates.Renderer) (deal : DealData.t)
         (now : Z) (downstream : RecipientRole -> Downstream.t)
         (schedule : Schedule) (s : t),
    enabled s = true ->
    (forall r, sendable generateMessage deal s r) ->
    CircuitBreaker.state (circuitBreaker s) = CircuitBreaker.CLOSED ->
    0 <= CircuitBreaker.failures (circuitBreaker s) ->
    fair schedule ->
    (forall r, delivers (downstream r) = true) ->
    exists bulk s',
      sendDealNotifications generateMessage deal now downstream schedule s
      = Some (bulk, s')
      /\ BulkSendResult.successCount bulk = 4
      /\ BulkSendResult.failureCount bulk = 0
      /\ forall (f : RecipientRole) (failing : Downstream.t),
           delivers failing = false ->
           CircuitBreaker.failures (circuitBreaker s) + 1
           < CircuitBreaker.failureThreshold
               (CircuitBreaker.config (circuitBreaker s)) ->
           exists bulk1 s1,
             sendDealNotifications generateMessage deal now
               (but_for f failing downstream) schedule s
             = Some (bulk1, s1)
             /\ BulkSendResult.successCount bulk1 = 3
             /\ BulkSendResult.failureCount bulk1 = 1
             /\ List.length (results_but f (BulkSendResult.results bulk1))
                = 3%nat
             /\ results_but f (BulkSendResult.results bulk1)
                = results_but f (BulkSendResult.results bulk).
Proof.
  intros generateMessage deal now downstream schedule s
         Hon Hsend Hc Hf Hfair Hall.
  pose proof (misses_none downstream Hall) as Hm0.
  assert (Hst0 : steady downstream (start_all generateMessage deal now s))
    by (apply steady_start; try assumption; lia).
  destruct (steady_outcome generateMessage deal now downstream schedule s
              Hst0 Hfair) as (bulk & s' & Hrun & Hres & Hone & Hsc & Hfc).
  exists bulk, s'. rewrite Hm0 in Hsc, Hfc.
  split; [exact Hrun|]. split; [exact Hsc|]. split; [exact Hfc|].
  intros f failing Hfail Hroom.
  pose proof (misses_one f failing downstream Hall Hfail) as Hm1.
  assert (Hst1 : steady (but_for f failing downstream)
                   (start_all generateMessage deal now s))
    by (apply steady_start; try assumption; rewrite Hm1; lia).
  destruct (steady_outcome generateMessage deal now
              (but_for f failing downstream) schedule s Hst1 Hfair)
    as (bulk1 & s1 & Hrun1 & Hres1 & Hone1 & Hsc1 & Hfc1).
  exists bulk1, s1. rewrite Hm1 in Hsc1, Hfc1.
  split; [exact Hrun1|]. split; [exact Hsc1|]. split; [exact Hfc1|]. split.
  - pose proof (results_but_length f (BulkSendResult.results bulk1)) as Hl.
    pose proof (results_partition (BulkSendResult.results bulk1)) as Hp.
    rewrite !Hone1 in Hp. rewrite Hone1 in Hl. lia.
  - rewrite Hres1, Hres.
    apply agree_schedule; try assumption; try reflexivity.
    intros r Hr. apply but_for_other, Hr.
Qed.

Lemma sample_sendable s :
  WhatsAppConfig.recipients (config s)
  = WhatsAppConfig.recipients Samples.config ->
  forall r, sendable Samples.one_line Samples.deal s r.
Proof.
  intros H r. unfold sendable. rewrite H.
  destruct r; eexists; split; reflexivity.
Qed.

Lemma round_robin_fair start : fair (Samples.round_robin start).
Proof. intros r. destruct r; cbn; lia. Qed.

Lemma sendDealNotifications_counts_witness :
  enabled Samples.service = true
  /\ (forall r, sendable Samples.one_line Samples.deal Samples.service r)
  /\ CircuitBreaker.state (circuitBreaker Samples.service)
     = CircuitBreaker.CLOSED
  /\ 0 <= CircuitBreaker.failures (circuitBreaker Samples.service)
  /\ fair (Samples.round_robin 0)
  /\ (forall r : RecipientRole, delivers (Samples.accepted "wamid.1") = true)
  /\ exists bulk s',
       sendDealNotifications Samples.one_line Samples.deal 0
         (fun _ => Samples.accepted "wamid.1") (Samples.round_robin 0)
         Samples.service
       = Some (bulk, s')
       /\ BulkSendResult.successCount bulk = 4
       /\ BulkSendResult.failureCount bulk = 0.
Proof.
  assert (H1 : enabled Samples.service = true) by reflexivity.
  assert (H2 : forall r,
             sendable Samples.one_line Samples.deal Samples.service r)
    by (apply sample_sendable; reflexivity).
  assert (H3 : CircuitBreaker.state (circuitBreaker Samples.service)
               = CircuitBreaker.CLOSED) by reflexivity.
  assert (H4 : 0 <= CircuitBreaker.failures (circuitBreaker Samples.service))
    by (cbn; lia).
  assert (H5 : fair (Samples.round_robin 0)) by apply round_robin_fair.
  assert (H6 : forall r : RecipientRole,
             delivers (Samples.accepted "wamid.1") = true)
    by (intros r; reflexivity).
  repeat (split; [assumption|]).
  destruct (sendDealNotifications_counts Samples.one_line Samples.deal 0
              (fun _ => Samples.accepted "wamid.1") (Samples.round_robin 0)
              Samples.service H1 H2 H3 H4 H5 H6)
    as (bulk & s' & Hrun & Hs & Hf & _).
  exists bulk, s'. repeat split; assumption.
Defined.

(** C5, counterexample.  After an outage (ten sends answered with 503)
    the breaker is open; a deal submitted one second later, with the four
    recipients configured and a downstream that would accept every
    message, gets [successCount = 0] and [failureCount = 4], and nothing
    is handed to [fetch]. *)
Lemma sendDealNotifications_after_outage :
  enabled Samples.after_outage = true
  /\ (forall r, sendable Samples.one_line Samples.deal Samples.after_outage r)
  /\ (forall r : RecipientRole, delivers (Samples.accepted "wamid.1") = true)
  /\ fair (Samples.round_robin 1000)
  /\ option_map
       (fun out =>
          (BulkSendResult.successCount (fst out),
           BulkSendResult.failureCount (fst out),
           List.length (fetched (snd out))))
       (sendDealNotifications Samples.one_line Samples.deal 1000
          (fun _ => Samples.accepted "wamid.1") (Samples.round_robin 1000)
          Samples.after_outage)
     = Some (0, 4, List.length (fetched Samples.after_outage)).
Proof.
  split; [reflexivity|].
  split; [apply sample_sendable; reflexivity|].
  split; [intros r; reflexivity|].
  split; [apply round_robin_fair|].
  vm_compute. reflexivity.
Qed.

Lemma bound_to_fail_resume deal downstream r run turn :
  tracked run ->
  bound_to_fail r run ->
  bound_to_fail r (resume deal downstream run turn).
Proof.
  intros Htracked [Htask Hres]. destruct turn as [r0 now].
  unfold bound_to_fail. rewrite resume_eq. cbn [tasks shared].
  rewrite callback_resume_results.
  destruct (RecipientRole_eqb_spec r0 r) as [->|Hne].
  - rewrite get_set_same.
    destruct (PerRole.get r (tasks run)) as [c w|c|c [e|result]|];
      try contradiction; cbn [callback_resume fst pushed].
    + split; [exact I|]. intros x Hx Hr.
      apply in_app_or in Hx. destruct Hx as [Hx|[<-|[]]];
        [apply Hres; assumption | reflexivity].
    + split; [exact I|]. intros x Hx Hr.
      apply in_app_or in Hx. destruct Hx as [Hx|[<-|[]]];
        [apply Hres; assumption | exact Htask].
    + split; [exact I|]. intros x Hx Hr. rewrite app_nil_r in Hx.
      apply Hres; assumption.
  - rewrite get_set_other by exact Hne. split; [exact Htask|].
    intros x Hx Hr. apply in_app_or in Hx. destruct Hx as [Hx|Hx];
      [apply Hres; assumption|].
    destruct (Htracked r0) as [Hrole _].
    apply (pushed_role deal r0 _ x Hrole) in Hx. congruence.
Qed.

Lemma filter_length_pos {A} (p : A -> bool) x xs :
  In x xs -> p x = true -> (1 <= List.length (filter p xs))%nat.
Proof.
  intros Hin Hp.
  assert (H : In x (filter p xs)) by (apply filter_In; split; assumption).
  destruct (filter p xs); [destruct H | cbn; lia].
Qed.

(** C7, on the code.  Whatever the templates, the deal, the downstream,
    the schedule and the state of the service: a role whose recipient is
    empty in the configuration is not skipped.  [sendDealNotifications]
    returns one result for it, a failure, and counts it in
    [failureCount]. *)
Theorem empty_recipient_is_counted_as_failure :
  forall (generateMessage : MessageTemplates.Renderer) (deal : DealData.t)
         (now : Z) (downstream : RecipientRole -> Downstream.t)
         (schedule : Schedule) (s : t) (r : RecipientRole),
    PerRole.get r (WhatsAppConfig.recipients (config s)) = "" ->
    fair schedule ->
    exists bulk s',
      sendDealNotifications generateMessage deal now downstream schedule s
      = Some (bulk, s')
      /\ (exists result,
            results_of r (BulkSendResult.results bulk) = [result]
            /\ SendMessageResult.success result = false)
      /\ 1 <= BulkSendResult.failureCount bulk.
Proof.
  intros generateMessage deal now downstream schedule s r Hempty Hfair.
  unfold sendDealNotifications.
  set (run := run_schedule deal downstream schedule
                (start_all generateMessage deal now s)).
  assert (Hdone : all_settled run = true) by (apply fair_all_settled, Hfair).
  rewrite Hdone. eexists; eexists; split; [reflexivity|].
  assert (Hboth : tracked run /\ bound_to_fail r run).
  { apply (run_schedule_invariant deal downstream
             (fun run => tracked run /\ bound_to_fail r run)).
    - intros run0 turn [Ht Hb]. split;
        [apply tracked_resume | apply bound_to_fail_resume]; assumption.
    - split; [apply tracked_start | apply start_all_empty, Hempty]. }
  destruct Hboth as [Htracked [_ Hfails]].
  destruct (Htracked r) as [_ Hcount].
  rewrite (all_settled_finished run Hdone r) in Hcount.
  destruct (length_1 _ Hcount) as [result Hresult].
  assert (Hin : In result (results_of r (results (shared run))))
    by (rewrite Hresult; left; reflexivity).
  apply filter_In in Hin. destruct Hin as [Hin Hrole].
  destruct (RecipientRole_eqb_spec (SendMessageResult.role result) r)
    as [Hr|]; [|discriminate].
  pose proof (Hfails result Hin Hr) as Hfail.
  unfold summary. cbn [BulkSendResult.results BulkSendResult.failureCount].
  split.
  - exists result. split; [exact Hresult | exact Hfail].
  - assert (Hneg : negb (SendMessageResult.success result) = true)
      by (rewrite Hfail; reflexivity).
    pose proof (filter_length_pos
                  (fun x => negb (SendMessageResult.success x))
                  result (results (shared run)) Hin Hneg) as Hpos.
    lia.
Qed.

Lemma empty_recipient_is_counted_as_failure_witness :
  PerRole.get logistics
    (WhatsAppConfig.recipients
       (config (create 0 Samples.config_without_logistics))) = ""
  /\ fair (Samples.round_robin 0)
  /\ exists bulk s',
       sendDealNotifications Samples.one_line Samples.deal 0
         (fun _ => Samples.accepted "wamid.1") (Samples.round_robin 0)
         (create 0 Samples.config_without_logistics)
       = Some (bulk, s')
       /\ (exists result,
             results_of logistics (BulkSendResult.results bulk) = [result]
             /\ SendMessageResult.success result = false)
       /\ 1 <= BulkSendResult.failureCount bulk.
Proof.
  assert (H1 : PerRole.get logistics
                 (WhatsAppConfig.recipients
                    (config (create 0 Samples.config_without_logistics)))
               = "") by reflexivity.
  assert (H2 : fair (Samples.round_robin 0)) by apply round_robin_fair.
  split; [exact H1|]. split; [exact H2|].
  exact (empty_recipient_is_counted_as_failure Samples.one_line Samples.deal
           0 (fun _ => Samples.accepted "wamid.1") (Samples.round_robin 0)
           (create 0 Samples.config_without_logistics) logistics H1 H2).
Defined.

(** The same on sample values: with the logistics recipient left empty
    and a downstream that accepts every message, three successes, one
    failure, and the validation error [Phone number is required]. *)
Lemma empty_recipient_sample :
  option_map
    (fun out =>
       (BulkSendResult.successCount (fst out),
        BulkSendResult.failureCount (fst out),
        map (fun e => (WhatsAppError.type e, WhatsAppError.message e))
          (BulkSendResult.errors (fst out)),
        map SendMessageResult.success
          (results_of logistics (BulkSendResult.results (fst out)))))
    (sendDealNotifications Samples.one_line Samples.deal 0
       (fun _ => Samples.accepted "wamid.1") (Samples.round_robin 0)
       (create 0 Samples.config_without_logistics))
  = Some (3, 1, [(VALIDATION_ERROR, "Phone number is required")], [false]).
Proof. vm_compute. reflexivity. Qed.

(** *** Every send returns, every role is answered once *)



End WhatsAppServiceFacts.


(** ** Validation of a deal for messaging *)

Module MessageTemplatesFacts.
Import MessageTemplates.

Lemma not_positive_iff o : not_positive o = true <-> lacks_positive o.
Proof.
  destruct o as [[|q]|]; cbn; try tauto.
  rewrite orb_true_iff, Qeq_bool_iff, Qle_bool_iff. split.
  - intros [H|H]; [rewrite H; apply Qle_refl | exact H].
  - intros H. right; exact H.
Qed.

Lemma push_if_keeps c m errors x : In x errors -> In x (push_if c m errors).
Proof.
  intros H. unfold push_if. destruct c; [|exact H].
  apply in_or_app. left; exact H.
Qed.

Lemma push_if_pushes m errors : In m (push_if true m errors).
Proof. cbn. apply in_or_app. right; left; reflexivity. Qed.

(** C9.  A partial deal whose material source is [new-material] and whose
    purchase rate is missing, [NaN], zero or negative: the list
    [validateDealForMessaging] returns holds the error that names the
    purchase rate, and [getMessagePreviews] on such a deal throws the list
    of errors whatever the templates would render, no message having been
    generated. *)
Theorem new_material_without_purchase_rate_is_rejected :
  forall deal : PartialDealData.t,
    PartialDealData.materialSource deal = Some new_material ->
    lacks_positive (PartialDealData.purchaseRate deal) ->
    In "Purchase rate is required for new material"
       (validateDealForMessaging deal)
    /\ forall (generateMessage : Renderer) (full : DealData.t),
         as_partial full = deal ->
         getMessagePreviews generateMessage full
         = inl (OtherError None
                  ("Cannot generate messages: "
                   ++ String.concat ", " (validateDealForMessaging deal))%string).
Proof.
  intros deal Hsrc Hrate.
  assert (Hin : In "Purchase rate is required for new material"
                   (validateDealForMessaging deal)).
  { unfold validateDealForMessaging. rewrite Hsrc.
    apply not_positive_iff in Hrate. rewrite Hrate.
    apply push_if_pushes. }
  split; [exact Hin|].
  intros generateMessage full <-. unfold getMessagePreviews.
  destruct (validateDealForMessaging (as_partial full)) as [|e errors];
    [destruct Hin | reflexivity].
Qed.

Lemma new_material_without_purchase_rate_is_rejected_witness :
  let deal :=
    PartialDealData.mk (Some "DEAL-1") (Some (Time 0)) (Some "Customer Ltd")
      (Some (JS.Num 1000)) (Some (JS.Num 85)) (Some delivered) None
      (Some "PP-001") None None None None (Some new_material)
      (Some "Supplier Industries") (Some (JS.Num 1000)) None None None None in
  PartialDealData.materialSource deal = Some new_material
  /\ lacks_positive (PartialDealData.purchaseRate deal)
  /\ In "Purchase rate is required for new material"
        (validateDealForMessaging deal).
Proof.
  cbv zeta.
  split; [reflexivity|]. split; [exact I|].
  refine (proj1 (new_material_without_purchase_rate_is_rejected _ _ _));
    [reflexivity | exact I].
Defined.

End MessageTemplatesFacts.

(** ** Deal creation *)

Module DealServiceFacts.
Import DealService.

(** The breakdown [createDeal] makes of a [BulkSendResult]. *)
Lemma createDeal_breakdown now suffix notify dealRequest bulk :
  notify (convertFormDataToDealData dealRequest
            ("DEAL-" ++ JS.show now ++ "-" ++ suffix)%string) = inr bulk ->
  whatsappResults (createDeal now suffix true notify dealRequest)
  = Some (mkResults true (0 <? BulkSendResult.successCount bulk)
            (BulkSendResult.successCount bulk)
            (BulkSendResult.failureCount bulk)
            (map (fun error =>
                    mkEntry
                      (match WhatsAppError.recipient error with
                       | Some r => JS.or_else r "unknown"
                       | None => "unknown"
                       end)
                      "unknown" (WhatsAppError.message error))
                 (BulkSendResult.errors bulk))).
Proof. intros H. unfold createDeal. rewrite H. reflexivity. Qed.

(** C8.  Whatever the request, the clock, the random suffix and the
    feature toggle, and whether the notification pipeline hands back a
    result or throws, [createDeal] returns [success = true], a deal
    identifier that starts with [DEAL-] and so is not empty, the converted
    deal, no error, and a [whatsappResults] breakdown: the counts and the
    per-failure entries of the pipeline's result when there is one, four
    failures and one entry with the thrown message when the pipeline threw,
    and the disabled record when the toggle is off. *)
Theorem createDeal_always_succeeds :
  forall (now : Z) (suffix : string) (whatsAppEnabled : bool)
         (notify : Pipeline) (dealRequest : CreateDealRequest),
    let result := createDeal now suffix whatsAppEnabled notify dealRequest in
    let id := ("DEAL-" ++ JS.show now ++ "-" ++ suffix)%string in
    success result = true
    /\ dealId result = id
    /\ dealId result <> ""
    /\ deal result = Some (convertFormDataToDealData dealRequest id)
    /\ error result = None
    /\ exists breakdown,
         whatsappResults result = Some breakdown
         /\ enabled breakdown = whatsAppEnabled
         /\ (whatsAppEnabled = false ->
             breakdown = mkResults false false 0 0 [])
         /\ (forall bulk,
               whatsAppEnabled = true ->
               notify (convertFormDataToDealData dealRequest id) = inr bulk ->
               successCount breakdown = BulkSendResult.successCount bulk
               /\ failureCount breakdown = BulkSendResult.failureCount bulk
               /\ List.length (errors breakdown)
                  = List.length (BulkSendResult.errors bulk)
               /\ map entry_error (errors breakdown)
                  = map WhatsAppError.message (BulkSendResult.errors bulk))
         /\ (forall thrown,
               whatsAppEnabled = true ->
               notify (convertFormDataToDealData dealRequest id) = inl thrown ->
               breakdown
               = mkResults true false 0 4
                   [mkEntry "all" "all" (message_of thrown)]).
Proof.
  intros now suffix whatsAppEnabled notify dealRequest result id.
  unfold result, createDeal. fold id. cbn [success dealId deal error].
  repeat (split; [first [reflexivity | discriminate]|]).
  destruct whatsAppEnabled.
  - destruct (notify (convertFormDataToDealData dealRequest id))
      as [thrown|bulk] eqn:Hn.
    + eexists; split; [reflexivity|]. split; [reflexivity|].
      split; [discriminate|]. split; [discriminate|].
      intros thrown' _ [= <-]. reflexivity.
    + eexists; split; [reflexivity|]. split; [reflexivity|].
      split; [discriminate|]. split; [|discriminate].
      intros bulk' _ [= <-]. cbn [successCount failureCount errors].
      rewrite length_map, map_map. cbn [entry_error].
      repeat split; reflexivity.
  - eexists; split; [reflexivity|]. split; [reflexivity|].
    split; [reflexivity|]. split; intros ? H; discriminate H.
Qed.

End DealServiceFacts.

(** ** More on the rate limiter *)

Module RateLimiterMoreFacts.
Import RateLimiter RateLimiterTools RateLimiterFacts.

Lemma cleaned_in_window now l req :
  In req (requests (cleanOldRequests now l)) ->
  now - windowMs (config l) < req.
Proof.
  unfold cleanOldRequests; cbn. intros H. apply filter_In in H.
  destruct H as [_ H]. apply Z.ltb_lt in H. exact H.
Qed.

Lemma cleaned_length now l :
  (List.length (requests (cleanOldRequests now l))
   <= List.length (requests l))%nat.
Proof. unfold cleanOldRequests; cbn. apply filter_length_le. Qed.





(** The wait time is zero when the oldest entry is a millisecond from
    leaving the window at the first read and the clock has moved on by
    the second. *)
Lemma limited_with_zero_wait :
  let l := with_requests (create (mkPartial (Some 1) None None)) [1] in
  getStatus 60000 60001 l = (mkStatus limited 0 120001 (Some 0), l).
Proof. reflexivity. Qed.

Lemma waitIfNeeded_bounded at_ l :
  Z.of_nat (List.length (requests l)) <= maxRequestsPerMinute (config l) ->
  Z.of_nat (List.length (requests (snd (waitIfNeeded at_ l))))
  <= maxRequestsPerMinute (config l).
Proof.
  intros H. pose proof (cleaned_length (cleaned_at at_) l) as Hc.
  destruct (waitIfNeeded_cases at_ l) as [(_ & _ & E)|(Hlt & _ & E)];
    rewrite E; cbn [snd].
  - lia.
  - cbn [requests with_requests]. rewrite length_app; cbn [List.length]. lia.
Qed.

(** X3.  A window that holds no more than [maxRequestsPerMinute] entries
    holds no more than that after any sequence of calls of
    [waitIfNeeded], whatever the clock reads. *)
Theorem window_stays_bounded :
  forall (times : list Reads) (l : t),
    Z.of_nat (List.length (requests l)) <= maxRequestsPerMinute (config l) ->
    Z.of_nat (List.length (requests (snd (calls times l))))
    <= maxRequestsPerMinute (config l).
Proof.
  induction times as [|at_ times IH]; intros l H; [exact H|].
  rewrite calls_cons; cbn [snd].
  rewrite <- (config_waitIfNeeded at_ l).
  apply IH. rewrite config_waitIfNeeded.
  apply waitIfNeeded_bounded, H.
Qed.

Lemma window_stays_bounded_witness :
  Z.of_nat (List.length
              (requests
                 (snd (calls [at_once 0; mkReads 10 11 11; at_once 20;
                              at_once 70000]
                         (create (mkPartial (Some 2) None None))))))
  <= 2.
Proof.
  apply (window_stays_bounded
           [at_once 0; mkReads 10 11 11; at_once 20; at_once 70000]
           (create (mkPartial (Some 2) None None))).
  cbn. lia.
Defined.

(** X4.  A caller that was delayed and calls again once the reported wait
    time has passed since the status was read is let through, when the
    limit is positive and the window held no more than the limit. *)
Theorem delayed_call_passes_after_wait :
  forall (at_ again : Reads) (l : t) (w : Z) (l1 : t),
    0 < maxRequestsPerMinute (config l) ->
    Z.of_nat (List.length (requests l)) <= maxRequestsPerMinute (config l) ->
    waitIfNeeded at_ l = (Delayed w, l1) ->
    status_at at_ + w <= cleaned_at again ->
    fst (waitIfNeeded again l1) = Immediate.
Proof.
  intros at_ again l w l1 Hmax Hlen Hcall Hlater.
  pose proof (cleaned_length (cleaned_at at_) l) as Hc.
  destruct (waitIfNeeded_cases at_ l) as [(Hfull & _ & E)|(_ & _ & E)];
    rewrite E in Hcall; [|discriminate].
  set (c := cleanOldRequests (cleaned_at at_) l) in *.
  unfold computed_wait in Hcall.
  change (config c) with (config l) in Hcall.
  destruct (requests c) as [|oldest rest] eqn:Hreqs; [cbn in Hfull; lia|].
  assert (Hw : Z.max 0 (windowMs (config l) - (status_at at_ - oldest)) = w)
    by congruence.
  assert (Hl1 : c = l1) by congruence.
  subst l1. clear Hcall E.
  assert (Hw' : oldest + windowMs (config l) <= cleaned_at again) by lia.
  destruct (waitIfNeeded_cases again c) as [(Hfull' & _ & _)|(_ & _ & E')];
    [|rewrite E'; reflexivity].
  exfalso.
  change (config c) with (config l) in Hfull'.
  assert (Hshort :
    (List.length (requests (cleanOldRequests (cleaned_at again) c))
     <= List.length rest)%nat).
  { unfold cleanOldRequests at 1. cbn [requests with_requests].
    rewrite Hreqs. change (config c) with (config l). cbn [filter].
    destruct (Z.ltb_spec (cleaned_at again - windowMs (config l)) oldest);
      [lia|].
    apply filter_length_le. }
  cbn [List.length] in Hc, Hfull. lia.
Qed.

Lemma delayed_call_passes_after_wait_witness :
  fst (waitIfNeeded (at_once (1001 + 59399))
         (with_requests (create (mkPartial (Some 1) None None)) [400]))
  = Immediate.
Proof.
  apply (delayed_call_passes_after_wait (mkReads 1000 1001 1001)
           (at_once (1001 + 59399))
           (with_requests (create (mkPartial (Some 1) None None)) [400])
           59399
           (with_requests (create (mkPartial (Some 1) None None)) [400])).
  - cbn. lia.
  - cbn. lia.
  - reflexivity.
  - cbn. lia.
Defined.

(** X5.  As long as the entries of the window and the calls made since
    are together no more than [maxRequestsPerMinute], every call of
    [waitIfNeeded] is let through at once: so are the first
    [maxRequestsPerMinute] calls on a new or a reset limiter. *)
Theorem calls_below_limit_pass :
  forall (times : list Reads) (l : t),
    Z.of_nat (List.length (requests l)) + Z.of_nat (List.length times)
    <= maxRequestsPerMinute (config l) ->
    Forall (fun p => p = Immediate) (fst (calls times l))
    /\ forall times' : list Reads,
         Z.of_nat (List.length times') <= maxRequestsPerMinute (config l) ->
         Forall (fun p => p = Immediate) (fst (calls times' (reset l))).
Proof.
  assert (Hmain : forall times l,
    Z.of_nat (List.length (requests l)) + Z.of_nat (List.length times)
    <= maxRequestsPerMinute (config l) ->
    Forall (fun p => p = Immediate) (fst (calls times l))).
  { induction times as [|at_ times IH]; intros l H; [constructor|].
    rewrite calls_cons; cbn [fst].
    pose proof (cleaned_length (cleaned_at at_) l) as Hc.
    cbn [List.length] in H.
    destruct (waitIfNeeded_cases at_ l) as [(Hfull & _)|(_ & _ & E)]; [lia|].
    rewrite E; cbn [fst snd]. constructor; [reflexivity|].
    apply IH. cbn [requests with_requests config].
    rewrite length_app; cbn [List.length]. lia. }
  intros times l H. split; [apply Hmain, H|].
  intros times' H'. apply Hmain. cbn. lia.
Qed.

Lemma calls_below_limit_pass_witness :
  Forall (fun p => p = Immediate)
    (fst (calls [at_once 5; mkReads 3 3 4; at_once 900000]
            (create (mkPartial (Some 3) None None)))).
Proof.
  refine (proj1 (calls_below_limit_pass
                   [at_once 5; mkReads 3 3 4; at_once 900000]
                   (create (mkPartial (Some 3) None None)) _)).
  cbn. lia.
Defined.

Lemma simulate_loop_spec now n :
  forall i reqs,
    simulate_loop now i n reqs
    = reqs ++ map (fun k => now - (i + Z.of_nat k) * 1000) (seq 0 n).
Proof.
  induction n as [|n IH]; intros i reqs; cbn [simulate_loop].
  - cbn. rewrite app_nil_r. reflexivity.
  - rewrite IH. cbn [seq map]. rewrite <- app_assoc. cbn [app].
    rewrite Z.add_0_r. do 2 f_equal.
    rewrite <- seq_shift, map_map.
    apply map_ext. intros k. f_equal. lia.
Qed.

Lemma live_simulated cutoff now k n :
  0 <= k -> now - 1000 * k <= cutoff ->
  Z.of_nat
    (List.length
       (filter (fun req => cutoff <? req)
          (map (fun i => now - (0 + Z.of_nat i) * 1000) (seq 0 n))))
  <= k.
Proof.
  intros Hk Hcut.
  induction n as [|n IH]; [cbn; lia|].
  rewrite seq_S, map_app, filter_app, length_app. cbn [seq map filter].
  destruct (Z.ltb_spec cutoff (now - (0 + Z.of_nat (0 + n)) * 1000)) as [Hlive|_];
    cbn [List.length]; [|lia].
  assert (Hn : Z.of_nat n < k) by lia.
  assert (Hall :
    filter (fun req => cutoff <? req)
      (map (fun i => now - (0 + Z.of_nat i) * 1000) (seq 0 n))
    = map (fun i => now - (0 + Z.of_nat i) * 1000) (seq 0 n)).
  { apply forallb_filter_id. apply forallb_forall.
    intros req Hreq. apply in_map_iff in Hreq.
    destruct Hreq as (i & <- & Hi). apply in_seq in Hi.
    apply Z.ltb_lt. lia. }
  rewrite Hall, length_map, length_seq. lia.
Qed.

(** X6.  [simulateRequests] spaces its entries a second apart, into the
    past: on an empty window of at most [k] seconds, no more than [k] of
    them are alive at any later reading, so a limit above [k] is not
    reached however large [count] is. *)
Theorem simulateRequests_cannot_fill :
  forall (now cleaned later count : Z) (l : t) (k : Z),
    requests l = [] ->
    now <= cleaned ->
    0 <= k ->
    windowMs (config l) <= 1000 * k ->
    k < maxRequestsPerMinute (config l) ->
    current (fst (getStatus cleaned later (simulateRequests now count l)))
    <> limited.
Proof.
  intros now cleaned later count l k Hempty Hlater Hk HW Hmax Hl.
  apply limited_iff in Hl.
  unfold simulateRequests, cleanOldRequests in Hl.
  cbn [requests with_requests config] in Hl.
  rewrite simulate_loop_spec, Hempty in Hl. cbn [app] in Hl.
  pose proof (live_simulated (cleaned - windowMs (config l)) now k
                (Z.to_nat count) Hk) as Hlive.
  lia.
Qed.

Lemma simulateRequests_cannot_fill_witness :
  current (fst (getStatus 5000000 5000001
                  (simulateRequests 5000000 1000 (create empty_config))))
  <> limited.
Proof.
  apply (simulateRequests_cannot_fill 5000000 5000000 5000001 1000
           (create empty_config) 60).
  - reflexivity.
  - lia.
  - lia.
  - cbn. lia.
  - cbn. lia.
Defined.

End RateLimiterMoreFacts.

(** ** More on the circuit breaker *)

Module CircuitBreakerMoreFacts.
Import CircuitBreaker CircuitBreakerTools CircuitBreakerFacts.

Lemma consistent_cleanOldMetrics b :
  0 <= failures b -> 0 <= successes b ->
  failures b + successes b = requests b ->
  consistent (cleanOldMetrics b).
Proof.
  intros Hf Hs Hr. unfold cleanOldMetrics, consistent.
  destruct (Z.ltb_spec 1000 (requests b)); cbn; lia.
Qed.

Lemma consistent_onSuccess now b : consistent b -> consistent (onSuccess now b).
Proof.
  intros (Hf & Hs & Hr & _). unfold onSuccess.
  apply consistent_cleanOldMetrics; destruct (state b); cbn; lia.
Qed.

Lemma consistent_onFailure now b : consistent b -> consistent (onFailure now b).
Proof.
  intros (Hf & Hs & Hr & _). unfold onFailure.
  apply consistent_cleanOldMetrics; destruct (state b); cbn;
    try destruct (_ <=? _); cbn; lia.
Qed.

Section Use.
Context {Env T : Type} (clock : Env -> Z).

Lemma consistent_execute (operation : Operation (T := T)) b env :
  consistent b ->
  consistent (snd (fst (execute clock operation b env))).
Proof.
  intros H. unfold execute.
  destruct (execute_enter (clock env) b) as [e|b1] eqn:He; [exact H|].
  assert (H1 : consistent b1).
  { unfold execute_enter in He. destruct (state b).
    - congruence.
    - destruct (shouldAttemptReset _ _); [|discriminate].
      injection He as <-. exact H.
    - congruence. }
  destruct (operation env) as [[e|v] env1]; cbn.
  - apply consistent_onFailure, H1.
  - apply consistent_onSuccess, H1.
Qed.

Lemma consistent_act (a : Action (T := T)) b env :
  consistent b -> consistent (fst (act clock a b env)).
Proof.
  intros H. destruct a as [operation| |]; cbn [act].
  - pose proof (consistent_execute operation b env H) as H1.
    destruct (execute clock operation b env) as [[r b1] env1]. exact H1.
  - cbn. unfold consistent; cbn. lia.
  - exact H.
Qed.

(** X7.  Whatever is done with a new breaker ([execute] with any
    operation, [reset], [forceOpen], in any order), its counters agree:
    none is negative, [failures + successes = requests], and [requests]
    is at most 1000 between the calls. *)
Theorem counters_stay_consistent :
  forall (actions : list (Action (T := T))) (created : Z)
         (cfg : PartialConfig) (env : Env),
    consistent (fst (act_all clock actions (create created cfg) env)).
Proof.
  intros actions created cfg.
  assert (H0 : consistent (create created cfg))
    by (unfold consistent; cbn; lia).
  revert H0. generalize (create created cfg) as b.
  induction actions as [|a rest IH]; intros b Hb env; [exact Hb|].
  cbn [act_all].
  pose proof (consistent_act a b env Hb) as H1.
  destruct (act clock a b env) as [b1 env1]. apply IH, H1.
Qed.

(** X8.  When a call of [execute] is over, whether it returned, threw
    what the operation threw, or refused the call, the breaker is
    [CLOSED] or [OPEN]: it is never left in [HALF_OPEN]. *)
Theorem execute_never_leaves_half_open :
  forall (operation : Operation (T := T)) (b : t) (env : Env),
    state (snd (fst (execute clock operation b env))) = CLOSED
    \/ state (snd (fst (execute clock operation b env))) = OPEN.
Proof.
  intros operation b env. unfold execute.
  destruct (execute_enter (clock env) b) as [e|b1] eqn:He.
  - right. unfold execute_enter in He.
    destruct (state b) eqn:Hs; try discriminate. exact Hs.
  - assert (H1 : state b1 = CLOSED \/ state b1 = HALF_OPEN).
    { unfold execute_enter in He. destruct (state b) eqn:Hs.
      - left. congruence.
      - destruct (shouldAttemptReset _ _); [|discriminate].
        injection He as <-. right. reflexivity.
      - right. congruence. }
    destruct (operation env) as [[e|v] env1]; cbn [fst snd execute_settle].
    + destruct H1 as [H1|H1].
      * unfold onFailure. rewrite state_cleanOldMetrics. cbn. rewrite H1.
        destruct (_ <=? _); [right|left]; reflexivity.
      * right. apply onFailure_half_open, H1.
    + left. destruct H1 as [H1|H1].
      * unfold onSuccess. rewrite state_cleanOldMetrics. cbn. rewrite H1.
        reflexivity.
      * rewrite (onSuccess_half_open _ _ H1). reflexivity.
Qed.

Lemma execute_all_app (pre post : list (Operation (T := T))) b env :
  execute_all clock (pre ++ post) b env
  = execute_all clock post (fst (execute_all clock pre b env))
      (snd (execute_all clock pre b env)).
Proof.
  revert b env. induction pre as [|operation pre IH]; intros b env;
    [reflexivity|].
  cbn [app execute_all].
  destruct (execute clock operation b env) as [[r b1] env1]. apply IH.
Qed.

Lemma execute_closed_success (operation : Operation (T := T)) b env :
  state b <> OPEN ->
  succeeds operation ->
  execute clock operation b env
  = (fst (operation env),
     onSuccess (clock (snd (operation env))) b,
     snd (operation env)).
Proof.
  intros Hs Hok. unfold execute.
  rewrite (execute_enter_not_open _ _ Hs).
  destruct (Hok env) as [v Hv].
  destruct (operation env) as [r env1]; cbn in *. subst r. reflexivity.
Qed.

Lemma onSuccess_closed_counts now b :
  state b = CLOSED ->
  requests b + 1 <= 1000 ->
  onSuccess now b
  = mk CLOSED (failures b) (successes b + 1) (requests b + 1)
       (lastFailureTime b) (stateChangedAt b) (config b).
Proof.
  intros Hs Hr. unfold onSuccess; cbn. rewrite Hs.
  unfold cleanOldMetrics; cbn.
  destruct (Z.ltb_spec 1000 (requests b + 1)); [lia | reflexivity].
Qed.

Lemma rejections_cons ok oks :
  rejections (ok :: oks) = (if ok then 0 else 1) + rejections oks.
Proof.
  unfold rejections; cbn. destruct ok; cbn [negb List.length]; lia.
Qed.

Lemma rejections_nonneg oks : 0 <= rejections oks.
Proof. unfold rejections. lia. Qed.

(** In a closed breaker, below the threshold and below a thousand
    requests, every settled operation is counted and nothing else
    happens. *)
Lemma execute_all_counts (operations : list (Operation (T := T))) :
  forall oks b env,
    outcomes oks operations ->
    state b = CLOSED ->
    requests b + Z.of_nat (List.length operations) <= 1000 ->
    failures b + rejections oks < failureThreshold (config b) ->
    let b' := fst (execute_all clock operations b env) in
    state b' = CLOSED
    /\ failures b' = failures b + rejections oks
    /\ requests b' = requests b + Z.of_nat (List.length operations)
    /\ config b' = config b.
Proof.
  induction operations as [|operation rest IH];
    intros oks b env Hout Hs Hr Hf; inversion Hout as [|ok ? oks' ? Hop Hrest];
    subst.
  - cbn. unfold rejections; cbn. repeat split; try assumption; lia.
  - cbn [execute_all]. cbn [List.length] in Hr.
    rewrite rejections_cons in Hf |- *.
    pose proof (rejections_nonneg oks') as Hn.
    assert (Hno : state b <> OPEN) by (rewrite Hs; discriminate).
    destruct ok.
    + rewrite (execute_closed_success operation b env Hno Hop).
      rewrite onSuccess_closed_counts by (assumption || lia).
      cbv zeta.
      edestruct (IH oks'
                   (mk CLOSED (failures b) (successes b + 1) (requests b + 1)
                       (lastFailureTime b) (stateChangedAt b) (config b))
                   (snd (operation env)) Hrest)
        as (H1 & H2 & H3 & H4); cbn [state failures requests config];
        try reflexivity; try lia.
      cbn [state failures requests config] in *.
      rewrite H1, H2, H3, H4. cbn [List.length].
      repeat split; try reflexivity; lia.
    + rewrite (execute_closed_failure clock operation b env Hno Hop).
      rewrite onFailure_closed_below by (assumption || lia).
      cbv zeta.
      edestruct (IH oks'
                   (mk CLOSED (failures b + 1) (successes b) (requests b + 1)
                       (clock (snd (operation env))) (stateChangedAt b)
                       (config b))
                   (snd (operation env)) Hrest)
        as (H1 & H2 & H3 & H4); cbn [state failures requests config];
        try reflexivity; try lia.
      cbn [state failures requests config] in *.
      rewrite H1, H2, H3, H4. cbn [List.length].
      repeat split; try reflexivity; lia.
Qed.

(** X9.  The failures that open the breaker need not be consecutive:
    operations that resolve in between do not set the count back.  A
    new breaker that has run fewer than a thousand operations, one less
    than [failureThreshold] of which rejected, is still [CLOSED], and
    the next rejection opens it. *)
Theorem failures_need_not_be_consecutive :
  forall (created : Z) (cfg : PartialConfig) (oks : list bool)
         (operations : list (Operation (T := T)))
         (last : Operation (T := T)) (env : Env),
    outcomes oks operations ->
    fails last ->
    Z.of_nat (List.length operations) < 1000 ->
    rejections oks + 1 = failureThreshold (config (create created cfg)) ->
    state (fst (execute_all clock operations (create created cfg) env))
    = CLOSED
    /\ state (fst (execute_all clock (operations ++ [last])
                     (create created cfg) env))
       = OPEN.
Proof.
  intros created cfg oks operations last env Hout Hlast Hlen Hsum.
  destruct (execute_all_counts operations oks (create created cfg) env Hout)
    as (H1 & H2 & H3 & H4); try reflexivity.
  - cbn [requests create]. lia.
  - cbn [failures create]. lia.
  - split; [exact H1|].
    rewrite execute_all_app. cbn [execute_all].
    set (b := fst (execute_all clock operations (create created cfg) env))
      in *.
    set (env1 := snd (execute_all clock operations (create created cfg) env)).
    assert (Hno : state b <> OPEN) by (rewrite H1; discriminate).
    rewrite (execute_closed_failure clock last b env1 Hno Hlast).
    cbn [fst]. apply onFailure_closed_reaches; [exact H1|].
    rewrite H2, H4. cbn [failures create]. lia.
Qed.

(** X10.  [forceOpen] leaves [lastFailureTime] as it was, so it holds
    calls back only while the last recorded failure is less than
    [timeoutMs] old.  When that failure is older, the first call of
    [execute] after [forceOpen] runs its operation as a trial. *)
Theorem forceOpen_holds_only_after_a_failure :
  forall (at_ : Z) (b : t) (operation : Operation (T := T)) (env : Env),
    timeoutMs (config b) <= clock env - lastFailureTime b ->
    execute clock operation (forceOpen at_ b) env
    = (fst (operation env),
       execute_settle (clock (snd (operation env))) (fst (operation env))
         (transitionTo (clock env) HALF_OPEN b),
       snd (operation env)).
Proof.
  intros at_ b operation env H.
  unfold execute, execute_enter, shouldAttemptReset, forceOpen, transitionTo.
  cbn [state config lastFailureTime failures successes requests
       stateChangedAt].
  destruct (Z.leb_spec (timeoutMs (config b)) (clock env - lastFailureTime b));
    [|lia].
  destruct (operation env) as [r env1]. reflexivity.
Qed.

End Use.

Lemma failures_need_not_be_consecutive_witness :
  state (fst (execute_all (fun now : Z => now)
                ([refused; (fun now => (inr tt, now + 1))] ++ [refused])
                (create 0 (mkPartial (Some 2) None None None)) 0))
  = OPEN.
Proof.
  refine (proj2 (failures_need_not_be_consecutive (fun now : Z => now) 0
                   (mkPartial (Some 2) None None None) [false; true]
                   [refused; (fun now => (inr tt, now + 1))] refused 0
                   _ _ _ _)).
  - repeat constructor.
    + intros env. eexists. reflexivity.
    + intros env. eexists. reflexivity.
  - intros env. eexists. reflexivity.
  - cbn. lia.
  - reflexivity.
Defined.

Lemma forceOpen_holds_only_after_a_failure_witness :
  fst (fst (execute (fun now : Z => now) (fun now => (inr tt, now + 1))
              (forceOpen 1700000000000 (create 1700000000000 empty_config))
              1700000000001))
  = inr tt.
Proof.
  rewrite (forceOpen_holds_only_after_a_failure (fun now : Z => now)
             1700000000000 (create 1700000000000 empty_config)
             (fun now => (inr tt, now + 1)) 1700000000001).
  - reflexivity.
  - cbn. lia.
Defined.

End CircuitBreakerMoreFacts.

(** ** More on the delivery service *)

Module DeliveryFacts.
Import WhatsAppService Delivery WhatsAppServiceFacts.

(** X11.  [simulateRandomError] for draws in [0, 1): it throws exactly
    when the first draw is below a tenth, and what it throws is then one
    of the four errors of its table (rate limit, network, auth,
    validation): the index never falls outside the table. *)
Theorem simulateRandomError_stays_in_table :
  forall (random1 random2 : Q),
    (0 <= random2)%Q -> (random2 < 1)%Q ->
    ((1 # 10 <= random1)%Q -> simulateRandomError random1 random2 = inr tt)
    /\ ((random1 < 1 # 10)%Q ->
        exists e,
          simulateRandomError random1 random2 = inl (ServiceError e)
          /\ In (WhatsAppError.type e)
               [RATE_LIMIT; NETWORK_ERROR; AUTH_ERROR; VALIDATION_ERROR]).
Proof.
  intros random1 random2 H0 H1. unfold simulateRandomError. split.
  - intros H. apply Qle_bool_iff in H. rewrite H. reflexivity.
  - intros H.
    destruct (Qle_bool (1 # 10) random1) eqn:Hb;
      [apply Qle_bool_iff in Hb; lra|].
    assert (Hlo : 0 <= Qfloor (random2 * 4)).
    { change 0 with (Qfloor 0). apply Qfloor_resp_le. lra. }
    assert (Hhi : Qfloor (random2 * 4) < 4).
    { pose proof (Qfloor_le (random2 * 4)) as Hle.
      assert (Hq : (inject_Z (Qfloor (random2 * 4)) < inject_Z 4)%Q)
        by (change (inject_Z 4) with 4%Q; lra).
      rewrite <- Zlt_Qlt in Hq. exact Hq. }
    assert (Hcases : Qfloor (random2 * 4) = 0 \/ Qfloor (random2 * 4) = 1
                     \/ Qfloor (random2 * 4) = 2 \/ Qfloor (random2 * 4) = 3)
      by lia.
    destruct Hcases as [ -> | [ -> | [ -> | -> ] ] ]; eexists; split;
      try reflexivity; cbn; tauto.
Qed.

Lemma simulateRandomError_stays_in_table_witness :
  exists e,
    simulateRandomError (1 # 20) (3 # 4) = inl (ServiceError e)
    /\ In (WhatsAppError.type e)
         [RATE_LIMIT; NETWORK_ERROR; AUTH_ERROR; VALIDATION_ERROR].
Proof.
  refine (proj2 (simulateRandomError_stays_in_table (1 # 20) (3 # 4) _ _) _).
  - unfold Qle; cbn; lia.
  - unfold Qlt; cbn; lia.
  - unfold Qlt; cbn; lia.
Defined.

(** X12.  What one call of [sendMessage] hands to [fetch]: one request,
    to [apiUrl/phoneNumberId/messages] with the bearer token, the
    recipient and the text of the call, when messaging is on, the inputs
    are valid, the breaker lets the call in and no simulated error is
    drawn; nothing otherwise.  The configuration is never changed. *)
Theorem sendMessage_fetches_at_most_once :
  forall (clock : Clock) (c : Call) (d : Downstream.t) (s : t),
    config (snd (sendMessage clock c d s)) = config s
    /\ fetched (snd (sendMessage clock c d s))
       = fetched s
         ++ (if reaches_fetch clock c d s
             then [request_of (config s) (phoneNumber c) (message c)]
             else []).
Proof.
  intros clock c d s. unfold sendMessage, reaches_fetch.
  destruct (sendMessage_start (at_call clock) c s) as [[settled|w] s1] eqn:Hs.
  { apply sendMessage_start_settled in Hs.
    destruct Hs as (-> & e & -> & _ & Hwhy). cbn [snd].
    split; [reflexivity|].
    destruct Hwhy as [Hoff|Hviol].
    - rewrite Hoff. cbn. rewrite app_nil_r. reflexivity.
    - apply validateInputs_violates in Hviol. destruct Hviol as [e' He'].
      rewrite He'. cbn [is_inr]. rewrite andb_false_r. cbn.
      rewrite app_nil_r. reflexivity. }
  apply sendMessage_start_passed in Hs.
  destruct Hs as (Hon & Hvalid & -> & _).
  rewrite Hon.
  assert (Hv : validateInputs (phoneNumber c) (message c) = inr tt).
  { destruct (validateInputs (phoneNumber c) (message c)) as [e|[]] eqn:Hv;
      [|reflexivity].
    exfalso. apply Hvalid, validateInputs_violates. eexists; exact Hv. }
  rewrite Hv. cbn [is_inr andb].
  set (s1 := with_rateLimiter s _).
  change (circuitBreaker s) with (circuitBreaker s1).
  change (fetched s) with (fetched s1).
  change (config s) with (config s1).
  destruct (CircuitBreaker.execute_enter (after_limiter clock)
              (circuitBreaker s1)) as [e|b] eqn:Hb.
  { erewrite sendMessage_dispatch_refused by exact Hb. cbn.
    rewrite app_nil_r. split; reflexivity. }
  erewrite sendMessage_dispatch_entered by exact Hb.
  destruct (simulated d) as [e|u] eqn:Hsim.
  { cbn. rewrite app_nil_r. split; reflexivity. }
  rewrite sendMessage_complete_eq. cbn. split; reflexivity.
Qed.

(** *** The state of a run *)

Lemma errors_of_app xs ys : errors_of (xs ++ ys) = errors_of xs ++ errors_of ys.
Proof. apply flat_map_app. Qed.

Lemma errors_of_length xs :
  Forall sound xs ->
  List.length (errors_of xs)
  = List.length (filter (fun r => negb (SendMessageResult.success r)) xs).
Proof.
  induction 1 as [|x xs Hx _ IH]; [reflexivity|].
  cbn [errors_of flat_map filter]. fold (errors_of xs).
  rewrite length_app, IH. unfold sound in Hx.
  destruct (SendMessageResult.error x); rewrite Hx; reflexivity.
Qed.

Lemma callback_resume_errors deal now r d task sh :
  errors (snd (callback_resume deal now r d task sh))
  = errors sh ++ errors_of (pushed deal r task).
Proof.
  destruct task as [c w|c|c [e|result]|]; cbn [callback_resume pushed].
  - destruct (sendMessage_dispatch now c d (service sh)) as [[settled|[]] s1];
      cbn; rewrite app_nil_r; reflexivity.
  - destruct (sendMessage_complete now c d (service sh)) as [settled s1];
      cbn; rewrite app_nil_r; reflexivity.
  - reflexivity.
  - cbn. destruct (SendMessageResult.success result),
      (SendMessageResult.error result); cbn; rewrite ?app_nil_r; reflexivity.
  - cbn. rewrite app_nil_r. reflexivity.
Qed.

(** What a turn does to the service: the configuration stays, and
    [fetch] gets a request only from a callback that leaves the
    limiter. *)
Lemma callback_resume_service deal now r d task sh :
  let out := callback_resume deal now r d task sh in
  config (service (snd out)) = config (service sh)
  /\ (fetched (service (snd out)) = fetched (service sh)
      \/ exists c w,
           task = AtLimiter c w
           /\ fetched (service (snd out))
              = fetched (service sh)
                ++ [request_of (config (service sh)) (phoneNumber c)
                      (message c)]).
Proof.
  destruct task as [c w|c|c [e|result]|]; cbn [callback_resume].
  - destruct (CircuitBreaker.execute_enter now (circuitBreaker (service sh)))
      as [e|b] eqn:Hb.
    + erewrite sendMessage_dispatch_refused by exact Hb. cbn.
      split; [reflexivity|left; reflexivity].
    + erewrite sendMessage_dispatch_entered by exact Hb.
      destruct (simulated d); cbn.
      * split; [reflexivity|left; reflexivity].
      * split; [reflexivity|]. right. exists c, w. split; reflexivity.
  - rewrite sendMessage_complete_eq. cbn.
    split; [reflexivity|left; reflexivity].
  - cbn. split; [reflexivity|left; reflexivity].
  - cbn. split; [reflexivity|left; reflexivity].
  - cbn. split; [reflexivity|left; reflexivity].
Qed.

Section Run.
Variable generateMessage : MessageTemplates.Renderer.
Variable deal : DealData.t.
Variable s0 : t.

Lemma failed_for r c e :
  call_for generateMessage deal s0 r c -> result_for s0 r (failed c e).
Proof.
  intros (text & _ & ->). repeat split.
Qed.

Lemma callback_resume_genuine now r d task sh :
  genuine generateMessage deal s0 r task ->
  genuine generateMessage deal s0 r
    (fst (callback_resume deal now r d task sh)).
Proof.
  destruct task as [c w|c|c [e|result]|]; cbn [callback_resume genuine];
    try (intros; exact I).
  - intros Hc.
    destruct (sendMessage_dispatch now c d (service sh)) as [[settled|[]] s1]
      eqn:Hd; cbn [fst genuine]; [|exact Hc].
    destruct (sendMessage_dispatch_settled _ _ _ _ _ _ Hd) as [e ->].
    rewrite sendMessage_catch_failed.
    split; [exact Hc | apply failed_for, Hc].
  - intros Hc. rewrite sendMessage_complete_eq. cbn [fst].
    unfold settlement.
    destruct (received d) as [e|response].
    + rewrite sendMessage_catch_failed. cbn [genuine].
      split; [exact Hc | apply failed_for, Hc].
    + cbn [genuine]. split; [exact Hc|].
      destruct Hc as (text & _ & ->). repeat split.
Qed.

Lemma pushed_result_for r task :
  genuine generateMessage deal s0 r task ->
  Forall (fun result => result_for s0 (SendMessageResult.role result) result)
    (pushed deal r task).
Proof.
  destruct task as [c w|c|c [e|result]|]; cbn [genuine pushed];
    try (intros; constructor).
  - destruct H as (text & _ & ->). repeat split.
  - constructor.
  - destruct H as [_ H]. destruct H as (Hs & Hto & Hrole).
    rewrite Hrole. repeat split; assumption.
  - constructor.
Qed.

Lemma orderly_resume downstream run turn :
  orderly generateMessage deal s0 run ->
  orderly generateMessage deal s0 (resume deal downstream run turn).
Proof.
  intros (Hcfg & Hgen & Hres & Herr & roles_sent & requests
          & Hnodup & Hreq & Hfetched & Hpast).
  destruct turn as [r now]. rewrite resume_eq. unfold orderly.
  cbn [shared tasks].
  set (task := PerRole.get r (tasks run)) in *.
  pose proof (callback_resume_service deal now r (downstream r) task
                (shared run)) as Hsvc.
  pose proof (callback_resume_genuine now r (downstream r) task (shared run)
                (Hgen r)) as Hnext.
  pose proof (callback_resume_rank deal now r (downstream r) task (shared run))
    as Hrank.
  pose proof (rank_le_3 task) as Hle.
  cbv zeta in Hsvc. destruct Hsvc as [Hcfg' Hfetch'].
  split; [congruence|]. split; [|split; [|split]].
  - intros r'. destruct (RecipientRole_eqb_spec r r') as [<-|Hne].
    + rewrite get_set_same. exact Hnext.
    + rewrite get_set_other by exact Hne. apply Hgen.
  - rewrite callback_resume_results. apply Forall_app. split; [exact Hres|].
    apply pushed_result_for, Hgen.
  - rewrite callback_resume_errors, callback_resume_results, errors_of_app.
    congruence.
  - destruct Hfetch' as [Hsame|(c & w & Htask & Hmore)].
    + exists roles_sent, requests. repeat split; try assumption.
      * congruence.
      * intros r' Hin. destruct (RecipientRole_eqb_spec r r') as [<-|Hne].
        -- rewrite get_set_same. lia.
        -- rewrite get_set_other by exact Hne. apply Hpast, Hin.
    + assert (Hfresh : ~ In r roles_sent).
      { intros Hin. apply Hpast in Hin. fold task in Hin.
        rewrite Htask in Hin. cbn in Hin. lia. }
      exists (roles_sent ++ [r]),
        (requests
         ++ [request_of (config (service (shared run))) (phoneNumber c)
               (message c)]).
      repeat split.
      * apply NoDup_app; [exact Hnodup | repeat constructor; intros [] |].
        intros x Hx [<-|[]]. contradiction.
      * apply Forall2_app; [exact Hreq|]. constructor; [|constructor].
        pose proof (Hgen r) as Hc. fold task in Hc. rewrite Htask in Hc.
        cbn [genuine] in Hc. destruct Hc as (text & Htext & ->).
        exists text. split; [exact Htext|]. rewrite Hcfg. reflexivity.
      * rewrite Hmore, Hfetched, app_assoc. reflexivity.
      * intros r' Hin. destruct (RecipientRole_eqb_spec r r') as [<-|Hne].
        -- rewrite get_set_same. lia.
        -- rewrite get_set_other by exact Hne. apply Hpast.
           apply in_app_or in Hin. destruct Hin as [Hin|[Heq|[]]];
             [exact Hin | contradiction].
Qed.

(** The callback up to its first [await] leaves configuration and
    [fetch] alone, is genuine, and pushes at most a failure for its
    role. *)
Lemma callback_start_effects now r sh :
  config (service sh) = config s0 ->
  let out :=
    callback_start generateMessage deal now r (recipient_of s0 r) sh in
  config (service (snd out)) = config s0
  /\ fetched (service (snd out)) = fetched (service sh)
  /\ genuine generateMessage deal s0 r (fst out)
  /\ exists extra,
       results (snd out) = results sh ++ extra
       /\ errors (snd out) = errors sh ++ errors_of extra
       /\ Forall (fun result =>
                    result_for s0 (SendMessageResult.role result) result)
            extra.
Proof.
  intros Hcfg. unfold callback_start.
  destruct (generateMessage r deal) as [e|text] eqn:Htext.
  - cbn. repeat split; try assumption.
    eexists; split; [reflexivity|]. split; [reflexivity|].
    repeat constructor.
  - assert (Hc : call_for generateMessage deal s0 r
                   (mkCall (recipient_of s0 r) text (Some (DealData.id deal))
                      (Some r)))
      by (exists text; split; [exact Htext | reflexivity]).
    destruct (sendMessage_start now
                (mkCall (recipient_of s0 r) text (Some (DealData.id deal))
                   (Some r))
                (service sh)) as [[settled|w] s1] eqn:Hs; cbn.
    + apply sendMessage_start_settled in Hs.
      destruct Hs as (-> & e & -> & _).
      repeat split; try assumption.
      exists []. rewrite !app_nil_r. repeat split. constructor.
    + apply sendMessage_start_passed in Hs.
      destruct Hs as (_ & _ & -> & _).
      repeat split; try assumption.
      exists []. rewrite !app_nil_r. repeat split. constructor.
Qed.

Lemma orderly_start now :
  orderly generateMessage deal s0 (start_all generateMessage deal now s0).
Proof.
  unfold start_all.
  set (recipients := WhatsAppConfig.recipients (config s0)).
  change (PerRole.of_accounts recipients) with (recipient_of s0 accounts).
  change (PerRole.of_logistics recipients) with (recipient_of s0 logistics).
  change (PerRole.of_boss1 recipients) with (recipient_of s0 boss1).
  change (PerRole.of_bossog recipients) with (recipient_of s0 bossog).
  pose proof (callback_start_effects now accounts (mkShared s0 [] [])
                eq_refl) as H1.
  destruct (callback_start generateMessage deal now accounts
              (recipient_of s0 accounts) (mkShared s0 [] [])) as [ta sh1].
  cbn [fst snd] in H1. destruct H1 as (C1 & F1 & G1 & x1 & R1 & E1 & O1).
  pose proof (callback_start_effects now logistics sh1 C1) as H2.
  destruct (callback_start generateMessage deal now logistics
              (recipient_of s0 logistics) sh1) as [tl sh2].
  cbn [fst snd] in H2. destruct H2 as (C2 & F2 & G2 & x2 & R2 & E2 & O2).
  pose proof (callback_start_effects now boss1 sh2 C2) as H3.
  destruct (callback_start generateMessage deal now boss1
              (recipient_of s0 boss1) sh2) as [tb sh3].
  cbn [fst snd] in H3. destruct H3 as (C3 & F3 & G3 & x3 & R3 & E3 & O3).
  pose proof (callback_start_effects now bossog sh3 C3) as H4.
  destruct (callback_start generateMessage deal now bossog
              (recipient_of s0 bossog) sh3) as [to sh4].
  cbn [fst snd] in H4. destruct H4 as (C4 & F4 & G4 & x4 & R4 & E4 & O4).
  cbn [results errors service] in R1, E1, F1.
  unfold orderly. cbn [shared tasks].
  split; [exact C4|]. split; [|split; [|split]].
  - intros r. destruct r; assumption.
  - rewrite R4, R3, R2, R1. cbn [app].
    repeat (apply Forall_app; split); assumption.
  - rewrite E4, E3, E2, E1, R4, R3, R2, R1. cbn [app].
    rewrite !errors_of_app. reflexivity.
  - exists [], []. repeat split.
    + constructor.
    + constructor.
    + rewrite F4, F3, F2, F1, app_nil_r. reflexivity.
    + intros r [].
Qed.

Lemma orderly_schedule now downstream schedule :
  orderly generateMessage deal s0
    (run_schedule deal downstream schedule
       (start_all generateMessage deal now s0)).
Proof.
  apply run_schedule_invariant;
    [intros; apply orderly_resume; assumption | apply orderly_start].
Qed.
End Run.

Lemma roles_at_most_4 (rs : list RecipientRole) :
  NoDup rs -> (List.length rs <= 4)%nat.
Proof.
  intros H.
  apply (NoDup_incl_length (l' := PerRole.roles) H).
  intros r _. destruct r; cbn; tauto.
Qed.

(** X13.  On every schedule that resumes each callback until it has
    finished, [sendDealNotifications] returns a result whose [errors] are
    exactly the errors of its failed results, in the order of [results];
    every failed result carries an error and no other does, so [errors]
    has [failureCount] entries. *)
Theorem errors_are_those_of_the_failed_results :
  forall (generateMessage : MessageTemplates.Renderer) (deal : DealData.t)
         (now : Z) (downstream : RecipientRole -> Downstream.t)
         (schedule : Schedule) (s : t),
    fair schedule ->
    exists bulk s',
      sendDealNotifications generateMessage deal now downstream schedule s
      = Some (bulk, s')
      /\ BulkSendResult.errors bulk
         = errors_of (BulkSendResult.results bulk)
      /\ Forall sound (BulkSendResult.results bulk)
      /\ Z.of_nat (List.length (BulkSendResult.errors bulk))
         = BulkSendResult.failureCount bulk.
Proof.
  intros generateMessage deal now downstream schedule s Hfair.
  unfold sendDealNotifications.
  pose proof (orderly_schedule generateMessage deal s now downstream schedule)
    as Hord.
  set (run := run_schedule deal downstream schedule
                (start_all generateMessage deal now s)) in *.
  assert (Hdone : all_settled run = true) by (apply fair_all_settled, Hfair).
  rewrite Hdone.
  destruct Hord as (_ & _ & Hres & Herr & _).
  assert (Hsound : Forall sound (results (shared run))).
  { eapply Forall_impl; [|exact Hres]. intros x Hx. apply Hx. }
  eexists; eexists; split; [reflexivity|].
  unfold summary.
  cbn [BulkSendResult.errors BulkSendResult.results
       BulkSendResult.failureCount].
  split; [exact Herr|]. split; [exact Hsound|].
  rewrite Herr, (errors_of_length _ Hsound). reflexivity.
Qed.

Lemma errors_are_those_of_the_failed_results_witness :
  exists bulk s',
    sendDealNotifications Samples.one_line Samples.deal 0
      (fun _ => Samples.answered 503) (Samples.round_robin 0) Samples.service
    = Some (bulk, s')
    /\ BulkSendResult.errors bulk = errors_of (BulkSendResult.results bulk).
Proof.
  destruct (errors_are_those_of_the_failed_results Samples.one_line
              Samples.deal 0 (fun _ => Samples.answered 503)
              (Samples.round_robin 0) Samples.service (round_robin_fair 0))
    as (bulk & s' & H & Herr & _).
  exists bulk, s'. split; assumption.
Defined.

(** X14.  On every such schedule the result is for the deal, and for
    every role there is exactly one entry in [results], which names the
    number configured for that role as its recipient. *)
Theorem results_name_the_configured_recipients :
  forall (generateMessage : MessageTemplates.Renderer) (deal : DealData.t)
         (now : Z) (downstream : RecipientRole -> Downstream.t)
         (schedule : Schedule) (s : t),
    fair schedule ->
    exists bulk s',
      sendDealNotifications generateMessage deal now downstream schedule s
      = Some (bulk, s')
      /\ BulkSendResult.dealId bulk = DealData.id deal
      /\ config s' = config s
      /\ forall r,
           exists result,
             results_of r (BulkSendResult.results bulk) = [result]
             /\ SendMessageResult.recipient result
                = PerRole.get r (WhatsAppConfig.recipients (config s)).
Proof.
  intros generateMessage deal now downstream schedule s Hfair.
  unfold sendDealNotifications.
  pose proof (orderly_schedule generateMessage deal s now downstream schedule)
    as Hord.
  assert (Htracked :
    tracked (run_schedule deal downstream schedule
               (start_all generateMessage deal now s))).
  { apply run_schedule_invariant;
      [intros; apply tracked_resume; assumption | apply tracked_start]. }
  set (run := run_schedule deal downstream schedule
                (start_all generateMessage deal now s)) in *.
  assert (Hdone : all_settled run = true) by (apply fair_all_settled, Hfair).
  rewrite Hdone.
  destruct Hord as (Hcfg & _ & Hres & _).
  eexists; eexists; split; [reflexivity|].
  unfold summary. cbn [BulkSendResult.dealId BulkSendResult.results].
  split; [reflexivity|]. split; [exact Hcfg|].
  intros r. destruct (Htracked r) as [_ Hcount].
  rewrite (all_settled_finished run Hdone r) in Hcount.
  destruct (results_of r (results (shared run))) as [|result [|x xs]] eqn:Hof;
    try discriminate.
  exists result. split; [reflexivity|].
  assert (Hin : In result (results_of r (results (shared run))))
    by (rewrite Hof; left; reflexivity).
  unfold results_of in Hin. apply filter_In in Hin. destruct Hin as [Hin Hr].
  destruct (RecipientRole_eqb_spec (SendMessageResult.role result) r)
    as [Hrole|]; [|discriminate].
  rewrite Forall_forall in Hres. destruct (Hres result Hin) as (_ & Hto & _).
  rewrite Hto, Hrole. reflexivity.
Qed.

Lemma results_name_the_configured_recipients_witness :
  exists bulk s',
    sendDealNotifications Samples.one_line Samples.deal 0
      (fun _ => Samples.accepted "wamid.1") (Samples.round_robin 0)
      Samples.service
    = Some (bulk, s')
    /\ BulkSendResult.dealId bulk = DealData.id Samples.deal.
Proof.
  destruct (results_name_the_configured_recipients Samples.one_line
              Samples.deal 0 (fun _ => Samples.accepted "wamid.1")
              (Samples.round_robin 0) Samples.service (round_robin_fair 0))
    as (bulk & s' & H & Hid & _).
  exists bulk, s'. split; assumption.
Defined.

(** X15.  On every such schedule, what [sendDealNotifications] hands to
    [fetch] is at most one request per role, so at most four in all; each
    is the request of its role: to the number configured for the role,
    with the text rendered for it, at [apiUrl/phoneNumberId/messages]
    with the bearer token. *)
Theorem fetch_gets_one_request_per_role_at_most :
  forall (generateMessage : MessageTemplates.Renderer) (deal : DealData.t)
         (now : Z) (downstream : RecipientRole -> Downstream.t)
         (schedule : Schedule) (s : t),
    fair schedule ->
    exists bulk s' roles_sent requests,
      sendDealNotifications generateMessage deal now downstream schedule s
      = Some (bulk, s')
      /\ fetched s' = fetched s ++ requests
      /\ NoDup roles_sent
      /\ Forall2 (request_for generateMessage deal s) roles_sent requests
      /\ (List.length requests <= 4)%nat.
Proof.
  intros generateMessage deal now downstream schedule s Hfair.
  unfold sendDealNotifications.
  pose proof (orderly_schedule generateMessage deal s now downstream schedule)
    as Hord.
  set (run := run_schedule deal downstream schedule
                (start_all generateMessage deal now s)) in *.
  assert (Hdone : all_settled run = true) by (apply fair_all_settled, Hfair).
  rewrite Hdone.
  destruct Hord as (_ & _ & _ & _ & roles_sent & requests
                    & Hnodup & Hreq & Hfetched & _).
  exists (summary deal run), (service (shared run)), roles_sent, requests.
  repeat split; try assumption.
  rewrite <- (Forall2_length Hreq). apply roles_at_most_4, Hnodup.
Qed.

Lemma fetch_gets_one_request_per_role_at_most_witness :
  exists bulk s' requests,
    sendDealNotifications Samples.one_line Samples.deal 0
      (fun _ => Samples.accepted "wamid.1") (Samples.round_robin 0)
      Samples.service
    = Some (bulk, s')
    /\ fetched s' = fetched Samples.service ++ requests
    /\ (List.length requests <= 4)%nat.
Proof.
  destruct (fetch_gets_one_request_per_role_at_most Samples.one_line
              Samples.deal 0 (fun _ => Samples.accepted "wamid.1")
              (Samples.round_robin 0) Samples.service (round_robin_fair 0))
    as (bulk & s' & roles_sent & requests & H & Hf & _ & _ & Hlen).
  exists bulk, s', requests. repeat split; assumption.
Defined.

(** *** The switches and settings the service does not read *)

(** X24.  [rateLimitEnabled], [retryEnabled], [maxRetries],
    [retryDelays] and [circuitBreakerThreshold] have no effect on the
    service: the constructor builds the same limiter and the same breaker
    whatever they are (80 requests a minute, 10 failures to open), and
    [sendMessage] returns the same result and leaves the same limiter,
    breaker and requests behind. *)
Theorem switches_and_settings_are_not_read :
  forall (rateLimitEnabled retryEnabled : bool)
         (settings : WhatsAppConfig.Settings),
    (forall (now : Z) (cfg : WhatsAppConfig.t),
        create now (retuned rateLimitEnabled retryEnabled settings cfg)
        = with_config (create now cfg)
            (retuned rateLimitEnabled retryEnabled settings cfg))
    /\ forall (clock : Clock) (c : Call) (d : Downstream.t) (s : t),
         sendMessage clock c d
           (with_config s
              (retuned rateLimitEnabled retryEnabled settings (config s)))
         = (fst (sendMessage clock c d s),
            with_config (snd (sendMessage clock c d s))
              (retuned rateLimitEnabled retryEnabled settings (config s))).
Proof.
  intros rl re st. split; [reflexivity|].
  intros clock c d s.
  set (cfg' := retuned rl re st (config s)).
  unfold sendMessage, sendMessage_start.
  change (WhatsAppConfig.messagingEnabled
            (WhatsAppConfig.features (config (with_config s cfg'))))
    with (WhatsAppConfig.messagingEnabled (WhatsAppConfig.features (config s))).
  destruct (WhatsAppConfig.messagingEnabled
              (WhatsAppConfig.features (config s))); cbn [negb];
    [|reflexivity].
  destruct (validateInputs (phoneNumber c) (message c)) as [e|[]];
    [reflexivity|].
  change (rateLimiter (with_config s cfg')) with (rateLimiter s).
  destruct (RateLimiter.waitIfNeeded (RateLimiter.at_once (at_call clock)) (rateLimiter s))
    as [w l].
  unfold sendMessage_dispatch.
  change (circuitBreaker (with_rateLimiter (with_config s cfg') l))
    with (circuitBreaker (with_rateLimiter s l)).
  destruct (CircuitBreaker.execute_enter (after_limiter clock)
              (circuitBreaker (with_rateLimiter s l))) as [e|b];
    [reflexivity|].
  unfold makeApiCall_request.
  destruct (simulated d) as [e|u]; [reflexivity|].
  rewrite !sendMessage_complete_eq. reflexivity.
Qed.

(** *** Messaging switched off *)

Lemma sendMessage_start_disabled now c s :
  enabled s = false ->
  exists e, sendMessage_start now c s = (inl (inr (failed c e)), s).
Proof.
  intros Hoff. unfold sendMessage_start. fold (enabled s). rewrite Hoff.
  eexists. reflexivity.
Qed.

Lemma callback_start_idle generateMessage deal now r phone sh :
  enabled (service sh) = false ->
  let out := callback_start generateMessage deal now r phone sh in
  service (snd out) = service sh
  /\ match fst out with
     | AtLimiter _ _ | AtFetch _ => False
     | Resolved _ (inr result) => SendMessageResult.success result = false
     | _ => True
     end
  /\ forall x,
       In x (results (snd out)) ->
       In x (results sh) \/ SendMessageResult.success x = false.
Proof.
  intros Hoff. unfold callback_start.
  destruct (generateMessage r deal) as [e|text]; cbn [fst snd].
  - split; [reflexivity|]. split; [exact I|]. intros x Hx. cbn in Hx.
    apply in_app_or in Hx. destruct Hx as [Hx|[<-|[]]]; [left; exact Hx|].
    right; reflexivity.
  - destruct (sendMessage_start_disabled now
                (mkCall phone text (Some (DealData.id deal)) (Some r))
                (service sh) Hoff) as [e ->].
    cbn. split; [destruct sh; reflexivity|]. split; [reflexivity|].
    intros x Hx. left; exact Hx.
Qed.

Lemma idle_start generateMessage deal now s :
  enabled s = false ->
  idle s (start_all generateMessage deal now s).
Proof.
  intros Hoff. unfold start_all.
  set (recipients := WhatsAppConfig.recipients (config s)).
  pose proof (callback_start_idle generateMessage deal now accounts
                (PerRole.of_accounts recipients) (mkShared s [] []) Hoff)
    as H1.
  destruct (callback_start generateMessage deal now accounts
              (PerRole.of_accounts recipients) (mkShared s [] []))
    as [ta sh1].
  cbn [fst snd service] in H1. destruct H1 as (S1 & T1 & R1).
  assert (Hoff1 : enabled (service sh1) = false) by (rewrite S1; exact Hoff).
  pose proof (callback_start_idle generateMessage deal now logistics
                (PerRole.of_logistics recipients) sh1 Hoff1) as H2.
  destruct (callback_start generateMessage deal now logistics
              (PerRole.of_logistics recipients) sh1) as [tl sh2].
  cbn [fst snd] in H2. destruct H2 as (S2 & T2 & R2).
  assert (Hoff2 : enabled (service sh2) = false) by (rewrite S2; exact Hoff1).
  pose proof (callback_start_idle generateMessage deal now boss1
                (PerRole.of_boss1 recipients) sh2 Hoff2) as H3.
  destruct (callback_start generateMessage deal now boss1
              (PerRole.of_boss1 recipients) sh2) as [tb sh3].
  cbn [fst snd] in H3. destruct H3 as (S3 & T3 & R3).
  assert (Hoff3 : enabled (service sh3) = false) by (rewrite S3; exact Hoff2).
  pose proof (callback_start_idle generateMessage deal now bossog
                (PerRole.of_bossog recipients) sh3 Hoff3) as H4.
  destruct (callback_start generateMessage deal now bossog
              (PerRole.of_bossog recipients) sh3) as [to sh4].
  cbn [fst snd] in H4. destruct H4 as (S4 & T4 & R4).
  unfold idle. cbn [shared tasks]. split; [congruence|]. split.
  - intros r. destruct r; assumption.
  - intros x Hx.
    destruct (R4 x Hx) as [Hx3|Hf]; [|exact Hf].
    destruct (R3 x Hx3) as [Hx2|Hf]; [|exact Hf].
    destruct (R2 x Hx2) as [Hx1|Hf]; [|exact Hf].
    destruct (R1 x Hx1) as [[]|Hf]. exact Hf.
Qed.

Lemma idle_resume deal downstream s run turn :
  idle s run -> idle s (resume deal downstream run turn).
Proof.
  intros (Hs & Htasks & Hres). destruct turn as [r now].
  unfold idle. rewrite resume_eq. cbn [tasks shared].
  rewrite callback_resume_results.
  pose proof (Htasks r) as Hr.
  assert (Hgoal :
            service (snd (callback_resume deal now r (downstream r)
                            (PerRole.get r (tasks run)) (shared run)))
            = s
            /\ match fst (callback_resume deal now r (downstream r)
                            (PerRole.get r (tasks run)) (shared run)) with
               | AtLimiter _ _ | AtFetch _ => False
               | Resolved _ (inr result) =>
                   SendMessageResult.success result = false
               | _ => True
               end
            /\ forall x,
                 In x (pushed deal r (PerRole.get r (tasks run))) ->
                 SendMessageResult.success x = false).
  { destruct (PerRole.get r (tasks run)) as [c w|c|c [e'|result]|];
      try contradiction; cbn [callback_resume pushed].
    - cbn. repeat split; [exact Hs|]. intros x [<-|[]]. reflexivity.
    - cbn. repeat split; [exact Hs|]. intros x [<-|[]]. exact Hr.
    - cbn. repeat split; [exact Hs | intros x []]. }
  destruct Hgoal as (G1 & G2 & G3).
  split; [exact G1|]. split.
  - intros r'. destruct (RecipientRole_eqb_spec r r') as [<-|Hne].
    + rewrite get_set_same. exact G2.
    + rewrite get_set_other by exact Hne. apply Htasks.
  - intros x Hx. apply in_app_or in Hx.
    destruct Hx as [Hx|Hx]; [apply Hres | apply G3]; exact Hx.
Qed.

(** X22.  With messaging switched off in the configuration,
    [sendDealNotifications] reports four failures and no success on every
    schedule that resumes each callback until it has finished, and leaves
    the service exactly as it was: nothing is handed to [fetch], and
    neither the limiter nor the breaker is touched. *)
Theorem disabled_messaging_sends_nothing :
  forall (generateMessage : MessageTemplates.Renderer) (deal : DealData.t)
         (now : Z) (downstream : RecipientRole -> Downstream.t)
         (schedule : Schedule) (s : t),
    enabled s = false ->
    fair schedule ->
    exists bulk,
      sendDealNotifications generateMessage deal now downstream schedule s
      = Some (bulk, s)
      /\ BulkSendResult.successCount bulk = 0
      /\ BulkSendResult.failureCount bulk = 4.
Proof.
  intros generateMessage deal now downstream schedule s Hoff Hfair.
  unfold sendDealNotifications.
  set (run := run_schedule deal downstream schedule
                (start_all generateMessage deal now s)).
  assert (Hdone : all_settled run = true) by (apply fair_all_settled, Hfair).
  rewrite Hdone.
  assert (Htracked : tracked run).
  { apply run_schedule_invariant;
      [intros; apply tracked_resume; assumption | apply tracked_start]. }
  assert (Hidle : idle s run).
  { apply run_schedule_invariant;
      [intros; apply idle_resume; assumption | apply idle_start, Hoff]. }
  destruct Hidle as (Hs & _ & Hres).
  rewrite Hs. eexists; split; [reflexivity|].
  assert (Hlen : List.length (results (shared run)) = 4%nat).
  { rewrite (results_partition (results (shared run))).
    assert (Hone : forall r,
               List.length (results_of r (results (shared run))) = 1%nat).
    { intros r. destruct (Htracked r) as [_ Hcount].
      rewrite (all_settled_finished run Hdone r) in Hcount. exact Hcount. }
    rewrite !Hone. reflexivity. }
  pose proof (filter_split_length SendMessageResult.success
                (results (shared run))) as Hsplit.
  unfold summary. cbn [BulkSendResult.successCount
                         BulkSendResult.failureCount].
  rewrite (filter_none SendMessageResult.success (results (shared run)) Hres)
    in *.
  cbn [List.length] in *. split; lia.
Qed.


Lemma disabled_messaging_sends_nothing_witness :
  exists bulk,
    sendDealNotifications Samples.one_line Samples.deal 0
      (fun _ => Samples.accepted "wamid.1") (Samples.round_robin 0)
      (WhatsAppService.create 0
         (WhatsAppConfig.mk "EAAsampletoken0001"
            "https://graph.facebook.com/v17.0" "123456789012345"
            (PerRole.mk "+919876543210" "+919876543211" "+919876543212"
               "+919876543213")
            (WhatsAppConfig.mkFeatures false true true)
            (WhatsAppConfig.mkSettings 3 [1000; 5000; 15000] 10)))
    = Some (bulk,
            WhatsAppService.create 0
              (WhatsAppConfig.mk "EAAsampletoken0001"
                 "https://graph.facebook.com/v17.0" "123456789012345"
                 (PerRole.mk "+919876543210" "+919876543211" "+919876543212"
                    "+919876543213")
                 (WhatsAppConfig.mkFeatures false true true)
                 (WhatsAppConfig.mkSettings 3 [1000; 5000; 15000] 10)))
    /\ BulkSendResult.failureCount bulk = 4.
Proof.
  destruct (disabled_messaging_sends_nothing Samples.one_line Samples.deal 0
              (fun _ => Samples.accepted "wamid.1") (Samples.round_robin 0)
              (WhatsAppService.create 0
                 (WhatsAppConfig.mk "EAAsampletoken0001"
                    "https://graph.facebook.com/v17.0" "123456789012345"
                    (PerRole.mk "+919876543210" "+919876543211"
                       "+919876543212" "+919876543213")
                    (WhatsAppConfig.mkFeatures false true true)
                    (WhatsAppConfig.mkSettings 3 [1000; 5000; 15000] 10)))
              eq_refl (round_robin_fair 0))
    as (bulk & H & _ & Hf).
  exists bulk. split; assumption.
Defined.


End DeliveryFacts.


(** ** The configuration manager *)

Module ConfigManagerFacts.
Import ConfigManager.

Lemma units_nonneg c : 0 <= JS.utf16_units c.
Proof. unfold JS.utf16_units. repeat destruct (_ <? _); lia. Qed.

Lemma units_kept c :
  is_digit c || Ascii.eqb c "+" = true -> JS.utf16_units c = 1.
Proof.
  intros H. unfold JS.utf16_units.
  assert (Hn : Z.of_N (N_of_ascii c) < 128).
  { apply orb_true_iff in H. destruct H as [H|H].
    - unfold is_digit in H. apply andb_true_iff in H. destruct H as [_ H].
      apply N.leb_le in H. lia.
    - apply Ascii.eqb_eq in H. subst c. cbn. lia. }
  destruct (Z.ltb_spec (Z.of_N (N_of_ascii c)) 128); [reflexivity | lia].
Qed.

Lemma strip_length s : JS.length (strip_separators s) <= JS.length s.
Proof.
  induction s as [|c s IH]; cbn [strip_separators JS.length]; [lia|].
  pose proof (units_nonneg c).
  destruct (is_digit c || Ascii.eqb c "+"); cbn [JS.length]; lia.
Qed.

Lemma strip_digits s : all_digits s = true -> strip_separators s = s.
Proof.
  induction s as [|c s IH]; cbn [all_digits strip_separators];
    [reflexivity|].
  intros H. apply andb_true_iff in H. destruct H as [Hc Hs].
  rewrite Hc. cbn [orb]. rewrite IH by exact Hs. reflexivity.
Qed.

Lemma strip_formatted digits :
  all_digits digits = true ->
  strip_separators (String "+" digits) = String "+" digits.
Proof.
  intros H. cbn [strip_separators].
  change (is_digit "+" || Ascii.eqb "+" "+") with true. cbv iota.
  rewrite (strip_digits digits H). reflexivity.
Qed.

Lemma validatePhoneNumber_valid phone :
  valid (validatePhoneNumber phone) = true ->
  exists digits,
    strip_separators phone = String "+" digits
    /\ phone <> ""
    /\ all_digits digits = true
    /\ 10 <= JS.length digits <= 15
    /\ validatePhoneNumber phone
       = mkValidation true (Some (String "+" digits)) None.
Proof.
  unfold validatePhoneNumber.
  destruct phone as [|c0 phone0]; [discriminate|].
  set (phone := String c0 phone0). cbn [JS.truthy negb].
  destruct (strip_separators phone) as [|c digits] eqn:Hclean;
    [discriminate|].
  cbn [JS.startsWith slice_1].
  destruct (Ascii.eqb_spec c "+") as [->|]; [|discriminate].
  cbn [negb].
  destruct (Z.ltb_spec (JS.length digits) 10); [discriminate|].
  destruct (Z.ltb_spec 15 (JS.length digits)); [discriminate|].
  cbn [orb].
  destruct (only_digits digits) eqn:Hd; [|discriminate].
  intros _. exists digits. repeat split; try lia; try discriminate.
  unfold only_digits in Hd. apply andb_true_iff in Hd. apply Hd.
Qed.

(** X16.  A number [validatePhoneNumber] accepts: its [formatted] form
    is [+] followed by 10 to 15 digits and nothing else, there is no
    error, and the formatted form is accepted again and formats to
    itself. *)
Theorem validatePhoneNumber_formats :
  forall phone : string,
    valid (validatePhoneNumber phone) = true ->
    exists digits,
      formatted (validatePhoneNumber phone) = Some (String "+" digits)
      /\ error (validatePhoneNumber phone) = None
      /\ all_digits digits = true
      /\ 10 <= JS.length digits <= 15
      /\ validatePhoneNumber (String "+" digits) = validatePhoneNumber phone.
Proof.
  intros phone H.
  destruct (validatePhoneNumber_valid phone H)
    as (digits & Hclean & _ & Hd & Hlen & ->).
  exists digits. repeat split; try lia; try assumption.
  unfold validatePhoneNumber. cbn [JS.truthy negb].
  rewrite (strip_formatted digits Hd).
  cbn [JS.startsWith slice_1 negb].
  change (Ascii.eqb "+" "+") with true. cbn [negb].
  destruct (Z.ltb_spec (JS.length digits) 10); [lia|].
  destruct (Z.ltb_spec 15 (JS.length digits)); [lia|].
  cbn [orb]. unfold only_digits. rewrite Hd.
  destruct digits; [cbn in Hlen; lia|]. reflexivity.
Qed.

Lemma validatePhoneNumber_formats_witness :
  exists digits,
    formatted (validatePhoneNumber "+91 (98765) 432-10")
    = Some (String "+" digits)
    /\ all_digits digits = true.
Proof.
  destruct (validatePhoneNumber_formats "+91 (98765) 432-10" eq_refl)
    as (digits & H & _ & Hd & _).
  exists digits. split; assumption.
Defined.

(** X17.  A recipient the configuration accepts, sent a valid text:
    [validateInputs] of the service accepts it exactly when it is written
    with the [+] first and in at most 16 characters, separators counted;
    its formatted form is always accepted.  (The service is handed the
    number as configured, not the formatted form.) *)
Theorem configured_recipient_and_validateInputs :
  forall (phone text : string),
    valid (validatePhoneNumber phone) = true ->
    text <> "" ->
    JS.length text <= 4096 ->
    (WhatsAppService.validateInputs phone text = inr tt
     <-> JS.startsWith phone "+" = true /\ JS.length phone <= 16)
    /\ forall f,
         formatted (validatePhoneNumber phone) = Some f ->
         WhatsAppService.validateInputs f text = inr tt.
Proof.
  intros phone text H Htext Hlen.
  destruct (validatePhoneNumber_valid phone H)
    as (digits & Hclean & Hphone & Hd & Hdlen & Heq).
  assert (Hlong : 11 <= JS.length phone).
  { pose proof (strip_length phone) as Hs. rewrite Hclean in Hs.
    cbn [JS.length] in Hs. change (JS.utf16_units "+") with 1 in Hs. lia. }
  assert (Htruthy : JS.truthy text = true)
    by (destruct text; [contradiction | reflexivity]).
  assert (Hshort : (4096 <? JS.length text) = false)
    by (apply Z.ltb_ge; exact Hlen).
  split.
  - unfold WhatsAppService.validateInputs.
    destruct phone as [|c0 phone0]; [contradiction|].
    cbn [JS.truthy negb].
    destruct (JS.startsWith (String c0 phone0) "+"); cbn [negb].
    + destruct (Z.ltb_spec (JS.length (String c0 phone0)) 10); [lia|].
      cbn [orb].
      destruct (Z.ltb_spec 16 (JS.length (String c0 phone0))).
      * split; [discriminate | intros [_ Hle]; lia].
      * rewrite Htruthy, Hshort. cbn [negb]. split; [intros _|reflexivity].
        split; [reflexivity | lia].
    + split; [discriminate | intros [Hno _]; discriminate].
  - intros f Hf. rewrite Heq in Hf. cbn [formatted] in Hf.
    injection Hf as <-.
    assert (Hf : JS.length (String "+" digits) = 1 + JS.length digits)
      by reflexivity.
    unfold WhatsAppService.validateInputs.
    cbn [JS.truthy negb JS.startsWith].
    change (Ascii.eqb "+" "+") with true. cbn [negb].
    destruct (Z.ltb_spec (JS.length (String "+" digits)) 10); [lia|].
    destruct (Z.ltb_spec 16 (JS.length (String "+" digits))); [lia|].
    cbn [orb]. rewrite Htruthy, Hshort. reflexivity.
Qed.

Lemma configured_recipient_and_validateInputs_witness :
  valid (validatePhoneNumber "+91 (98765) 432-10") = true
  /\ WhatsAppService.validateInputs "+91 (98765) 432-10" "Deal ID: DEAL-1"
     <> inr tt
  /\ WhatsAppService.validateInputs "+919876543210" "Deal ID: DEAL-1"
     = inr tt.
Proof.
  assert (H : valid (validatePhoneNumber "+91 (98765) 432-10") = true)
    by reflexivity.
  assert (Hlen : JS.length "Deal ID: DEAL-1" <= 4096) by (cbn; lia).
  destruct (configured_recipient_and_validateInputs "+91 (98765) 432-10"
              "Deal ID: DEAL-1" H ltac:(discriminate) Hlen) as [Hiff Hf].
  split; [exact H|]. split.
  - intros Hok. apply Hiff in Hok. destruct Hok as [_ Hle].
    cbn in Hle. lia.
  - apply Hf. reflexivity.
Defined.

Lemma push_if_nil c m errors :
  MessageTemplates.push_if c m errors = [] <-> c = false /\ errors = [].
Proof.
  unfold MessageTemplates.push_if. destruct c.
  - split; [|intros [H _]; discriminate].
    intros H. apply app_eq_nil in H. destruct H as [_ H]. discriminate.
  - tauto.
Qed.

Lemma long_truthy s : 10 <= JS.length s -> JS.truthy s = true.
Proof. destruct s; cbn [JS.length JS.truthy]; [lia | reflexivity]. Qed.

Lemma in_range_iff st :
  settings_in_range st <->
  below (maxRetries st) 0 || above (maxRetries st) 10 = false
  /\ below (circuitBreakerThreshold st) 1 = false.
Proof.
  unfold settings_in_range, below, above.
  destruct (maxRetries st) as [|m|[|]],
    (circuitBreakerThreshold st) as [|t|[|]].
  all: repeat match goal with
              | |- context [?a <? ?b] => destruct (Z.ltb_spec a b)
              end; cbn [orb negb].
  all: split;
    [ intros [[Hm|(z & Hz & Hm)] [Ht|[Ht|(z' & Hz' & Ht)]]];
      try discriminate;
      try (injection Hz as <-); try (injection Hz' as <-);
      first [split; reflexivity | exfalso; lia]
    | intros [Ha Hb]; try discriminate;
      split; first [left; reflexivity
                   | right; left; reflexivity
                   | right; eexists; split; [reflexivity | lia]
                   | right; right; eexists; split; [reflexivity | lia]] ].
Qed.

Lemma config_errors_nil isValidUrl config :
  WhatsAppConfig.messagingEnabled (features config) = true ->
  config_errors isValidUrl config = [] <-> acceptable isValidUrl config.
Proof.
  intros Hon. unfold acceptable, config_errors.
  rewrite in_range_iff.
  cbn [PerRole.entries PerRole.roles map fold_left check_recipient
       validateRecipients PerRole.init PerRole.get PerRole.of_accounts
       PerRole.of_logistics PerRole.of_boss1 PerRole.of_bossog].
  rewrite !push_if_nil.
  set (e1 := if negb (JS.truthy (apiToken config)) then _ else _).
  set (e2 := if negb (JS.truthy (phoneNumberId config)) then _ else _).
  assert (H1 : e1 = [] <-> validateToken (apiToken config) = true).
  { unfold e1. destruct (JS.truthy (apiToken config)) eqn:Ht; cbn [negb].
    - destruct (validateToken (apiToken config)); cbn [negb app];
        split; (reflexivity || discriminate).
    - split; [discriminate|]. intros Hv. exfalso.
      unfold validateToken in Hv. apply andb_true_iff in Hv.
      destruct Hv as [Hv _]. apply Z.ltb_lt in Hv.
      rewrite long_truthy in Ht by lia. discriminate. }
  assert (H2 : e2 = [] <->
               e1 = [] /\ validatePhoneNumberId (phoneNumberId config) = true).
  { unfold e2. destruct (JS.truthy (phoneNumberId config)) eqn:Ht; cbn [negb].
    - destruct (validatePhoneNumberId (phoneNumberId config)); cbn [negb].
      + tauto.
      + split; [|intros [_ H]; discriminate].
        intros H. apply app_eq_nil in H. destruct H as [_ H]. discriminate.
    - split.
      + intros H. apply app_eq_nil in H. destruct H as [_ H]. discriminate.
      + intros [_ Hv]. exfalso.
        unfold validatePhoneNumberId in Hv. apply andb_true_iff in Hv.
        destruct Hv as [Hv _]. apply andb_true_iff in Hv.
        destruct Hv as [_ Hv]. apply Z.leb_le in Hv.
        rewrite long_truthy in Ht by lia. discriminate. }
  rewrite H2, H1. clearbody e1 e2.
  assert (Hrec : forall phone,
    negb (valid (validatePhoneNumber phone)) && negb (String.eqb phone "")
    = false
    <-> phone = "" \/ valid (validatePhoneNumber phone) = true).
  { intros phone. destruct (String.eqb_spec phone "") as [->|Hne].
    - rewrite andb_false_r. tauto.
    - destruct (valid (validatePhoneNumber phone)); cbn.
      + split; [intros _; right; reflexivity | reflexivity].
      + split; [discriminate | intros [H|H]; [contradiction | discriminate]]. }
  rewrite !Hrec, !negb_false_iff. split.
  - intros (Ht & Hm & Hbo & Hb1 & Hlo & Hac & Hurl & Htok & Hid).
    repeat split; try assumption.
    intros r; destruct r; assumption.
  - intros (_ & Htok & Hid & Hurl & Hall & Hm & Ht).
    repeat split; try assumption.
    + apply (Hall bossog).
    + apply (Hall boss1).
    + apply (Hall logistics).
    + apply (Hall accounts).
Qed.

(** X18.  [loadAndValidateConfig] returns the configuration read from
    the environment exactly when messaging is enabled, token, phone
    number id and URL pass their checks, every recipient is either empty
    or a number [validatePhoneNumber] accepts, and the two settings are in
    range or not numbers at all ([NaN] passes the range checks, and so
    does [Infinity] as the breaker's threshold); [isEnabled] is then
    true.  Otherwise it throws, and what it throws is
    a [WhatsAppValidationError]. *)
Theorem loadAndValidateConfig_accepts :
  forall (isValidUrl : string -> bool) (env : Env),
    (forall config,
        loadAndValidateConfig isValidUrl env = inr config
        <-> config = loadConfigFromEnv env /\ acceptable isValidUrl config)
    /\ (forall config,
          loadAndValidateConfig isValidUrl env = inr config ->
          isEnabled env = true)
    /\ (forall thrown,
          loadAndValidateConfig isValidUrl env = inl thrown ->
          exists m,
            thrown = ServiceError (WhatsAppValidationError m None None)).
Proof.
  intros isValidUrl env. unfold loadAndValidateConfig, validateConfigOrThrow.
  set (loaded := loadConfigFromEnv env).
  assert (Hflag : WhatsAppConfig.messagingEnabled (features loaded)
                  = isEnabled env) by reflexivity.
  destruct (WhatsAppConfig.messagingEnabled (features loaded)) eqn:Hon;
    cbn [negb].
  - pose proof (config_errors_nil isValidUrl loaded Hon) as Hnil.
    destruct (config_errors isValidUrl loaded) as [|e errors].
    + split; [|split].
      * intros config. split.
        -- intros [= <-]. split; [reflexivity|]. apply Hnil. reflexivity.
        -- intros [-> _]. reflexivity.
      * intros _ _. symmetry. exact Hflag.
      * intros thrown H. discriminate H.
    + split; [|split].
      * intros config. split; [discriminate|].
        intros [-> Hacc]. apply Hnil in Hacc. discriminate.
      * intros config H. discriminate H.
      * intros thrown [= <-]. eexists. reflexivity.
  - split; [|split].
    + intros config. split; [discriminate|].
      intros [-> (Hacc & _)]. congruence.
    + intros config H. discriminate H.
    + intros thrown [= <-]. eexists. reflexivity.
Qed.

Lemma split_commas_cons s : split_commas s <> [].
Proof.
  destruct s as [|c s]; cbn [split_commas]; [discriminate|].
  destruct (Ascii.eqb c ","); [discriminate|].
  destruct (split_commas s); discriminate.
Qed.

(** X19.  Whatever [WHATSAPP_RETRY_DELAYS] holds, [parseRetryDelays]
    returns a list that is not empty and of which no entry is [NaN] or
    negative: every entry is a double that is an integer of zero or
    more, or it is [Infinity], which a run of digits beyond the largest
    double parses to and which the check lets through. *)
Theorem parseRetryDelays_is_usable :
  forall delaysString : option string,
    parseRetryDelays delaysString <> []
    /\ Forall (fun d => d = JS.Infinite false
                        \/ exists z, d = JS.Int z /\ 0 <= z)
         (parseRetryDelays delaysString).
Proof.
  assert (Hdef : default_delays <> []
                 /\ Forall (fun d => d = JS.Infinite false
                                     \/ exists z, d = JS.Int z /\ 0 <= z)
                      default_delays).
  { split; [discriminate|].
    repeat (apply Forall_cons;
            [right; eexists; (split; [reflexivity | lia])|]).
    apply Forall_nil. }
  intros [str|]; cbn [parseRetryDelays]; [|exact Hdef].
  destruct (JS.truthy str); cbn [negb]; [|exact Hdef].
  destruct (existsb is_bad_delay _) eqn:Hbad; [exact Hdef|].
  split.
  - pose proof (split_commas_cons str) as Hne.
    destruct (split_commas str); [contradiction | discriminate].
  - apply Forall_forall. intros d Hin.
    assert (Hd : is_bad_delay d = false).
    { destruct (is_bad_delay d) eqn:Hd; [|reflexivity].
      assert (Hyes : existsb is_bad_delay
                       (map (fun d => JS.parseInt (JS.trim d))
                          (split_commas str))
                     = true)
        by (apply existsb_exists; exists d; split; assumption).
      congruence. }
    destruct d as [|z|[|]]; try discriminate.
    + right. exists z. split; [reflexivity|].
      cbn in Hd. apply Z.ltb_ge in Hd. exact Hd.
    + left. reflexivity.
Qed.

(** The entry need not be an integer: four hundred nines parse to
    [Infinity], and the list is returned with it. *)
Lemma parseRetryDelays_keeps_infinity :
  parseRetryDelays (Some (String.concat "" (repeat "9" 400)))
  = [JS.Infinite false].
Proof. vm_compute. reflexivity. Qed.

End ConfigManagerFacts.

(** ** The deal service and the validators *)

Module DealChecksFacts.
Import DealService DealChecks MessageTemplates.
Import WhatsAppService Delivery WhatsAppServiceFacts DeliveryFacts.

Lemma push_nil c m errors :
  push_if c m errors = [] <-> c = false /\ errors = [].
Proof.
  unfold push_if. destruct c.
  - split; [|intros [H _]; discriminate].
    intros H. apply app_eq_nil in H. destruct H as [_ H]. discriminate.
  - tauto.
Qed.

(** X20.  The two validators agree on what [createDeal] builds: a
    request passes [validateDealData] exactly when the deal
    [convertFormDataToDealData] makes of it, under an identifier that is
    not empty, passes [validateDealForMessaging]. *)
Theorem validators_agree_on_converted_deals :
  forall (dealRequest : CreateDealRequest) (dealId : string),
    dealId <> "" ->
    validateDealData dealRequest = []
    <-> validateDealForMessaging
          (as_partial (convertFormDataToDealData dealRequest dealId))
        = [].
Proof.
  intros dealRequest dealId Hid.
  assert (Hsome : no_string (Some dealId) = false)
    by (destruct dealId; [contradiction | reflexivity]).
  unfold validateDealData, validateDealForMessaging, as_partial,
    convertFormDataToDealData.
  cbn [PartialDealData.id PartialDealData.date PartialDealData.saleParty
       PartialDealData.quantitySold PartialDealData.saleRate
       PartialDealData.deliveryTerms PartialDealData.productCode
       PartialDealData.materialSource PartialDealData.purchaseParty
       PartialDealData.quantityPurchased PartialDealData.purchaseRate
       DealData.id DealData.date DealData.saleParty DealData.quantitySold
       DealData.saleRate DealData.deliveryTerms DealData.productCode
       DealData.materialSource DealData.purchaseParty
       DealData.quantityPurchased DealData.purchaseRate].
  rewrite Hsome.
  destruct (materialSource dealRequest); cbn [when_new];
    rewrite !push_nil; cbn [no_string no_value not_positive]; tauto.
Qed.

Lemma validators_agree_on_converted_deals_witness :
  validateDealData
    (mkRequest (Time 0) "Customer Ltd" (JS.Num 1000) (JS.Num 85) delivered ""
       "PP-001" None from_inventory "" JS.NaN JS.NaN "" "" "")
  = []
  <-> validateDealForMessaging
        (as_partial
           (convertFormDataToDealData
              (mkRequest (Time 0) "Customer Ltd" (JS.Num 1000) (JS.Num 85)
                 delivered "" "PP-001" None from_inventory "" JS.NaN JS.NaN
                 "" "" "")
              "DEAL-1"))
      = [].
Proof.
  apply (validators_agree_on_converted_deals
           (mkRequest (Time 0) "Customer Ltd" (JS.Num 1000) (JS.Num 85)
              delivered "" "PP-001" None from_inventory "" JS.NaN JS.NaN
              "" "" "")
           "DEAL-1").
  discriminate.
Defined.

(** What [sendDealNotifications] reports once every callback has
    finished. *)
Lemma notifications_settle generateMessage deal now downstream schedule s :
  fair schedule ->
  exists bulk s',
    sendDealNotifications generateMessage deal now downstream schedule s
    = Some (bulk, s')
    /\ BulkSendResult.successCount bulk + BulkSendResult.failureCount bulk = 4
    /\ Z.of_nat (List.length (BulkSendResult.errors bulk))
       = BulkSendResult.failureCount bulk.
Proof.
  intros Hfair. unfold sendDealNotifications.
  pose proof (orderly_schedule generateMessage deal s now downstream schedule)
    as Hord.
  assert (Htracked :
    tracked (run_schedule deal downstream schedule
               (start_all generateMessage deal now s))).
  { apply run_schedule_invariant;
      [intros; apply tracked_resume; assumption | apply tracked_start]. }
  set (run := run_schedule deal downstream schedule
                (start_all generateMessage deal now s)) in *.
  assert (Hdone : all_settled run = true) by (apply fair_all_settled, Hfair).
  rewrite Hdone.
  destruct Hord as (_ & _ & Hres & Herr & _).
  assert (Hsound : Forall sound (results (shared run))).
  { eapply Forall_impl; [|exact Hres]. intros x Hx. apply Hx. }
  assert (Hone : forall r,
             List.length (results_of r (results (shared run))) = 1%nat).
  { intros r. destruct (Htracked r) as [_ Hcount].
    rewrite (all_settled_finished run Hdone r) in Hcount. exact Hcount. }
  assert (Hfour : List.length (results (shared run)) = 4%nat)
    by (rewrite (results_partition (results (shared run))), !Hone;
        reflexivity).
  eexists; eexists; split; [reflexivity|].
  unfold summary.
  cbn [BulkSendResult.errors BulkSendResult.successCount
       BulkSendResult.failureCount].
  split.
  - pose proof (filter_split_length SendMessageResult.success
                  (results (shared run))). lia.
  - rewrite Herr, (errors_of_length _ Hsound). reflexivity.
Qed.

(** X21.  [createDeal] with messaging enabled and the delivery service
    behind it, on every schedule that resumes each callback until it has
    finished: it returns, with [success = true]; the breakdown it reports
    counts four sends in all, successes and failures together, as the
    fallback of its [catch] branch assumes; it lists one error entry per
    failure; and its [success] flag is set exactly when at least one
    send succeeded. *)
Theorem createDeal_reports_every_role :
  forall (generateMessage : Renderer) (now : Z) (suffix : string)
         (started : Z) (downstream : RecipientRole -> Downstream.t)
         (schedule : Schedule) (s : WhatsAppService.t)
         (dealRequest : CreateDealRequest),
    fair schedule ->
    exists result breakdown,
      createDeal_through generateMessage now suffix true started downstream
        schedule s dealRequest
      = Some result
      /\ DealService.success result = true
      /\ whatsappResults result = Some breakdown
      /\ DealService.enabled breakdown = true
      /\ successCount breakdown + failureCount breakdown = 4
      /\ Z.of_nat (List.length (DealService.errors breakdown))
         = failureCount breakdown
      /\ results_success breakdown = (0 <? successCount breakdown).
Proof.
  intros generateMessage now suffix started downstream schedule s dealRequest
         Hfair.
  unfold createDeal_through.
  destruct (notifications_settle generateMessage
              (convertFormDataToDealData dealRequest
                 ("DEAL-" ++ JS.show now ++ "-" ++ suffix)%string)
              started downstream schedule s Hfair)
    as (bulk & s' & -> & Hsum & Herrs).
  eexists; eexists; split; [reflexivity|].
  unfold createDeal.
  cbn [DealService.success whatsappResults DealService.enabled successCount
       failureCount DealService.errors results_success].
  repeat split;
    cbn [DealService.success whatsappResults DealService.enabled successCount
         failureCount DealService.errors results_success];
    try assumption.
  rewrite length_map. exact Herrs.
Qed.

Lemma createDeal_reports_every_role_witness :
  exists result breakdown,
    createDeal_through Samples.one_line 1700000000000 "A1B2C3" true
      1700000000001 (fun _ => Samples.accepted "wamid.1")
      (Samples.round_robin 1700000000001) Samples.service
      (mkRequest (Time 0) "Customer Ltd" (JS.Num 1000) (JS.Num 85) delivered
         "" "PP-001" None from_inventory "" JS.NaN JS.NaN "" "" "")
    = Some result
    /\ whatsappResults result = Some breakdown
    /\ successCount breakdown + failureCount breakdown = 4.
Proof.
  destruct (createDeal_reports_every_role Samples.one_line 1700000000000
              "A1B2C3" 1700000000001 (fun _ => Samples.accepted "wamid.1")
              (Samples.round_robin 1700000000001) Samples.service
              (mkRequest (Time 0) "Customer Ltd" (JS.Num 1000) (JS.Num 85)
                 delivered "" "PP-001" None from_inventory "" JS.NaN JS.NaN
                 "" "" "")
              (round_robin_fair 1700000000001))
    as (result & breakdown & H & _ & Hb & _ & Hsum & _).
  exists result, breakdown. repeat split; assumption.
Defined.

End DealChecksFacts.
